(** * ONEX userland: path resolution, command tokenizer, shell [cd],
      file-browser ordering and the application registry.

    A shallow embedding of the Python sources

    - [userland/userland.py]      ([UserLandSystem])
    - [userland/file_manager.py]  ([FileManager])
    - [system/app_manager.py]     ([AppManager])

    Python [str] values are modelled by [string]; a character stands for a
    code point below 256.  [pathlib] paths are modelled by their parsed form
    (root and segments), the way [PurePosixPath] stores them. *)

From Stdlib Require Import List String Ascii Bool Arith PeanoNat Lia ZArith.
From Stdlib Require Import Sorting Permutation.
Import ListNotations.
Local Open Scope string_scope.
Local Open Scope list_scope.

Set Implicit Arguments.

(* ================================================================== *)
(** * Python string primitives *)
(* ================================================================== *)

Module PyStr.

(** Truthiness of a string: [not s] holds exactly for the empty string. *)
Definition is_empty (s : string) : bool :=
  match s with
  | EmptyString => true
  | String _ _ => false
  end.

(** [s[n:]] *)
Fixpoint slice_from (n : nat) (s : string) : string :=
  match n, s with
  | O, _ => s
  | S _, EmptyString => EmptyString
  | S n', String _ s' => slice_from n' s'
  end.

(** [s.startswith(p)] *)
Definition startswith (s p : string) : bool := String.prefix p s.

(** [s.endswith(p)] for a one-character [p]. *)
Fixpoint endswith_char (s : string) (c : ascii) : bool :=
  match s with
  | EmptyString => false
  | String a EmptyString => Ascii.eqb a c
  | String _ s' => endswith_char s' c
  end.

(** [s.split(sep)] for a one-character separator: never an empty list,
    and the empty string splits into one empty field. *)
Fixpoint split (sep : ascii) (s : string) : list string :=
  match s with
  | EmptyString => [EmptyString]
  | String c s' =>
      if Ascii.eqb c sep then EmptyString :: split sep s'
      else match split sep s' with
           | [] => [String c EmptyString]
           | w :: ws => String c w :: ws
           end
  end.

(** [sep.join(parts)] *)
Definition join (sep : string) (parts : list string) : string :=
  String.concat sep parts.

(** [c in s] for a character. *)
Fixpoint mem_char (c : ascii) (s : string) : bool :=
  match s with
  | EmptyString => false
  | String a s' => Ascii.eqb a c || mem_char c s'
  end.

(** The two quote characters. *)
Definition dquote : ascii := Eval cbv in ascii_of_nat 34.
Definition squote : ascii := "'"%char.

(** [str.isspace] on a code point below 256. *)
Definition isspace (c : ascii) : bool :=
  let n := nat_of_ascii c in
  (Nat.leb 9 n && Nat.leb n 13) || (Nat.leb 28 n && Nat.leb n 32)
  || Nat.eqb n 133 || Nat.eqb n 160.

Fixpoint lstrip (s : string) : string :=
  match s with
  | EmptyString => EmptyString
  | String c s' => if isspace c then lstrip s' else s
  end.

Fixpoint rstrip (s : string) : string :=
  match s with
  | EmptyString => EmptyString
  | String c s' =>
      match rstrip s' with
      | EmptyString => if isspace c then EmptyString else String c EmptyString
      | r => String c r
      end
  end.

(** [s.strip()] *)
Definition strip (s : string) : string := lstrip (rstrip s).

(** [str.lower] on a code point below 256. *)
Definition lower_char (c : ascii) : ascii :=
  let n := nat_of_ascii c in
  if (Nat.leb 65 n && Nat.leb n 90)
     || (Nat.leb 192 n && Nat.leb n 222 && negb (Nat.eqb n 215))
  then ascii_of_nat (n + 32) else c.

Fixpoint lower (s : string) : string :=
  match s with
  | EmptyString => EmptyString
  | String c s' => String (lower_char c) (lower s')
  end.

(** [f.readlines()] on text whose lines end in a line feed: every line
    keeps its terminator. *)
Definition newline : ascii := Eval cbv in ascii_of_nat 10.

Fixpoint readlines (s : string) : list string :=
  match s with
  | EmptyString => []
  | String c s' =>
      if Ascii.eqb c newline then String c EmptyString :: readlines s'
      else match readlines s' with
           | [] => [String c EmptyString]
           | l :: ls => String c l :: ls
           end
  end.

End PyStr.

(* ================================================================== *)
(** * pathlib: pure POSIX paths *)
(* ================================================================== *)

Module PurePath.
Import PyStr.

(** The root of a POSIX path is empty, one slash, or exactly two slashes
    ([posixpath.splitroot]). *)
Inductive anchor : Type := Rel | Root1 | Root2.

Record Path : Type := mkPath { root : anchor; segments : list string }.

Definition slash : ascii := "/"%char.

Definition splitroot (s : string) : anchor :=
  match s with
  | String a rest =>
      if Ascii.eqb a slash then
        match rest with
        | String b rest' =>
            if Ascii.eqb b slash then
              match rest' with
              | String c _ => if Ascii.eqb c slash then Root1 else Root2
              | EmptyString => Root2
              end
            else Root1
        | EmptyString => Root1
        end
      else Rel
  | EmptyString => Rel
  end.

(** A component is kept by the parser unless it is empty or a single dot. *)
Definition kept (x : string) : bool :=
  negb (String.eqb x EmptyString) && negb (String.eqb x ".").

(** [Path(s)] *)
Definition Path_of_string (s : string) : Path :=
  mkPath (splitroot s) (filter kept (split slash s)).

Definition is_absolute (p : Path) : bool :=
  match root p with Rel => false | _ => true end.

(** [p.joinpath(q)]: an absolute right operand replaces the left one. *)
Definition joinpath (p q : Path) : Path :=
  match root q with
  | Rel => mkPath (root p) (segments p ++ segments q)
  | _ => q
  end.

(** [p / s] *)
Definition truediv (p : Path) (s : string) : Path :=
  joinpath p (Path_of_string s).

(** [p.joinpath] applied to the unpacked list [parts] *)
Definition joinpath_all (p : Path) (parts : list string) : Path :=
  fold_left truediv parts p.

(** [p.parent] *)
Definition parent (p : Path) : Path :=
  match segments p with
  | [] => p
  | _ => mkPath (root p) (removelast (segments p))
  end.

Definition root_str (r : anchor) : string :=
  match r with Rel => EmptyString | Root1 => "/" | Root2 => "//" end.

(** [str(p)] *)
Definition str (p : Path) : string :=
  match root p, segments p with
  | Rel, [] => "."
  | r, segs => (root_str r ++ join "/" segs)%string
  end.

(** [p.name] *)
Definition name (p : Path) : string := last (segments p) EmptyString.

End PurePath.

(* ================================================================== *)
(** * The path resolver ([_virtual_to_real_path]) *)
(* ================================================================== *)

Module Resolver.
Import PyStr PurePath.

Definition mount_prefix : string := "/mnt/system".

(** One iteration of the normalisation loop over [parts]. *)
Definition normalize_step (parts : list string) (part : string) : list string :=
  if String.eqb part ".." then
    match parts with
    | [] => parts
    | _ => removelast parts
    end
  else if negb (is_empty part) && negb (String.eqb part ".") then parts ++ [part]
  else parts.

(** The loop [for part in virtual_path.split("/")] starting from [[]]. *)
Definition normalize (virtual_path : string) : list string :=
  fold_left normalize_step (split slash virtual_path) [].

(** The normalisation as the specification words it: the segments are
    read left to right against a stack; [..] pops a stack that is not empty
    and is ignored on an empty one, [.] and the empty segment are skipped,
    every other segment is pushed.  The stack is kept top first. *)
Fixpoint spec_walk (stack : list string) (segs : list string) : list string :=
  match segs with
  | [] => rev stack
  | seg :: rest =>
      if String.eqb seg ".." then
        match stack with
        | [] => spec_walk [] rest
        | _ :: below => spec_walk below rest
        end
      else if String.eqb seg "." || String.eqb seg EmptyString then
        spec_walk stack rest
      else spec_walk (seg :: stack) rest
  end.

Definition spec_normalize (virtual_path : string) : list string :=
  spec_walk [] (split slash virtual_path).

(** A segment of a normalised path: not empty, not a dot, not two dots,
    and free of separators. *)
Definition plain_segment (x : string) : Prop :=
  x <> EmptyString /\ x <> "." /\ x <> ".." /\ mem_char slash x = false.

(** The same, as a test. *)
Definition plain_segmentb (x : string) : bool :=
  negb (String.eqb x EmptyString) && negb (String.eqb x ".")
  && negb (String.eqb x "..") && negb (mem_char slash x).

(** [q] lies inside [p]: same root, and the segments of [p] followed by
    plain segments only. *)
Definition inside (p q : Path) : Prop :=
  root q = root p /\
  exists below, segments q = segments p ++ below /\ Forall plain_segment below.

Module UserLandSystem.

(** [UserLandSystem._virtual_to_real_path] *)
Definition _virtual_to_real_path (fs_root : Path) (virtual_path : string) : Path :=
let virtual_path := if is_empty virtual_path then "/" else virtual_path in
if startswith virtual_path "/mnt/system" then
let rel_path := slice_from 11 virtual_path in
if is_empty rel_path then Path_of_string "/"
else Path_of_string rel_path
else
let parts := normalize virtual_path in
let norm_virtual_path :=
match parts with
| [] => "/"
| _ => ("/" ++ join "/" parts)%string
end in
if String.eqb norm_virtual_path "/" then fs_root
else
let path_without_leading_slash := slice_from 1 norm_virtual_path in
truediv fs_root path_without_leading_slash.

End UserLandSystem.

Module FileManager.

(** [FileManager._virtual_to_real_path] *)
Definition _virtual_to_real_path (fs_root : Path) (virtual_path : string) : Path :=
let virtual_path := if is_empty virtual_path then "/" else virtual_path in
if startswith virtual_path "/mnt/system" then
let rel_path := slice_from 11 virtual_path in
if is_empty rel_path then Path_of_string "/"
else Path_of_string rel_path
else
let parts := normalize virtual_path in
match parts with
| [] => fs_root
| _ => joinpath_all fs_root parts
end.

End FileManager.

End Resolver.

(* ================================================================== *)
(** * The host filesystem as seen through [pathlib] and [os] *)
(* ================================================================== *)

Module HostFS.
Import PyStr PurePath.

(** A regular file: its text, whether [open] succeeds on it, and whether
    [os.access(_, os.X_OK)] holds. *)
Record file : Type := mkFile
  { content : string; readable : bool; executable : bool }.

(** A directory carries the names [iterdir] yields, in the order it
    yields them. *)
Inductive node : Type :=
| File (f : file)
| Dir (entries : list string).

Definition filesystem : Type := Path -> option node.

Definition exists_ (fs : filesystem) (p : Path) : bool :=
  match fs p with Some _ => true | None => false end.

Definition is_dir (fs : filesystem) (p : Path) : bool :=
  match fs p with Some (Dir _) => true | _ => false end.

Definition is_file (fs : filesystem) (p : Path) : bool :=
  match fs p with Some (File _) => true | _ => false end.

(** [os.access(p, os.X_OK)]; only ever asked of regular files. *)
Definition access_x (fs : filesystem) (p : Path) : bool :=
  match fs p with
  | Some (File f) => executable f
  | Some (Dir _) => true
  | None => false
  end.

(** The child of [p] called [n]: [iterdir] and [glob] append the entry
    name as one segment, without parsing it. *)
Definition child (p : Path) (n : string) : Path :=
  mkPath (root p) (segments p ++ [n]).

(** [p.iterdir()]: the children of a directory, [None] when listing
    raises. *)
Definition iterdir (fs : filesystem) (p : Path) : option (list Path) :=
  match fs p with
  | Some (Dir entries) => Some (map (child p) entries)
  | _ => None
  end.

End HostFS.

(* ================================================================== *)
(** * The interactive shell ([UserLandSystem]) *)
(* ================================================================== *)

Module Shell.
Import PyStr PurePath HostFS Resolver.

(** The four variables of the tokenizing loop in [_main_loop]. *)
Record tok_state : Type := mkTok
  { cmd_parts : list string;
    current_part : string;
    in_quotes : bool;
    quote_char : option ascii }.

Definition tok_init : tok_state := mkTok [] EmptyString false None.

Definition is_quote (c : ascii) : bool :=
  Ascii.eqb c dquote || Ascii.eqb c squote.

Definition same_quote (q : option ascii) (c : ascii) : bool :=
  match q with Some a => Ascii.eqb c a | None => false end.

Definition push_char (s : string) (c : ascii) : string :=
  (s ++ String c EmptyString)%string.

(** The body of [for char in cmd]. *)
Definition tok_step (st : tok_state) (char : ascii) : tok_state :=
  if is_quote char then
    if negb (in_quotes st) then
      mkTok (cmd_parts st) (current_part st) true (Some char)
    else if same_quote (quote_char st) char then
      mkTok (cmd_parts st) (current_part st) false None
    else
      mkTok (cmd_parts st) (push_char (current_part st) char)
            (in_quotes st) (quote_char st)
  else if isspace char && negb (in_quotes st) then
    if negb (is_empty (current_part st)) then
      mkTok (cmd_parts st ++ [current_part st]) EmptyString
            (in_quotes st) (quote_char st)
    else st
  else
    mkTok (cmd_parts st) (push_char (current_part st) char)
          (in_quotes st) (quote_char st).

Fixpoint tok_loop (st : tok_state) (cmd : string) : tok_state :=
  match cmd with
  | EmptyString => st
  | String c rest => tok_loop (tok_step st c) rest
  end.

(** The flush after the loop: [if current_part: cmd_parts.append(...)]. *)
Definition tok_flush (st : tok_state) : tok_state :=
  if negb (is_empty (current_part st)) then
    mkTok (cmd_parts st ++ [current_part st]) (current_part st)
          (in_quotes st) (quote_char st)
  else st.

Inductive tok_error : Type := UnterminatedQuote.

(** The tokenizer: the loop, the flush and the open-quote test. *)
Definition tokenize (cmd : string) : tok_error + list string :=
  let st := tok_flush (tok_loop tok_init cmd) in
  if in_quotes st then inl UnterminatedQuote else inr (cmd_parts st).

(** ** The tokenizer as the specification words it

    A line whose quotes are all closed is a sequence of elements: a blank
    outside quotes, an ordinary character outside quotes, or a quoted span.
    Blanks separate tokens; a token is what the elements between two
    blanks mean, quoted spans standing verbatim for their bodies; an empty
    token is not kept. *)
Inductive element : Type :=
| Blank (c : ascii)
| Plain (c : ascii)
| Quoted (q : ascii) (body : string).

Definition element_ok (e : element) : bool :=
  match e with
  | Blank c => isspace c
  | Plain c => negb (isspace c) && negb (is_quote c)
  | Quoted q body => is_quote q && negb (mem_char q body)
  end.

(** The characters typed for an element, and what the element means. *)
Definition typed (e : element) : string :=
  match e with
  | Blank c => String c EmptyString
  | Plain c => String c EmptyString
  | Quoted q body => String q (body ++ String q EmptyString)
  end.

Definition meant (e : element) : string :=
  match e with
  | Blank _ => EmptyString
  | Plain c => String c EmptyString
  | Quoted _ body => body
  end.

Definition typed_line (els : list element) : string :=
  String.concat EmptyString (map typed els).

(** The runs of elements between blanks. *)
Fixpoint groups (els : list element) : list (list element) :=
  match els with
  | [] => [[]]
  | Blank _ :: rest => [] :: groups rest
  | e :: rest =>
      match groups rest with
      | [] => [[e]]
      | g :: gs => (e :: g) :: gs
      end
  end.

Definition meant_group (g : list element) : string :=
  String.concat EmptyString (map meant g).

Definition expected_tokens (els : list element) : list string :=
  filter (fun t => negb (is_empty t)) (map meant_group (groups els)).

(** A quote is opened and never closed: after a stretch in which every
    quote is closed comes a quote character that does not occur again. *)
Definition unterminated (line : string) : Prop :=
  exists (els : list element) (q : ascii) (rest : string),
    forallb element_ok els = true
    /\ is_quote q = true
    /\ mem_char q rest = false
    /\ line = (typed_line els ++ String q rest)%string.

(** ** Auxiliary notions for reasoning about the loop *)

(** The flush: a pending token is kept unless it is empty. *)
Definition keep (parts : list string) (cur : string) : list string :=
  if is_empty cur then parts else parts ++ [cur].

(** The tokens a run of groups contributes when [cur] is pending. *)
Fixpoint pending (cur : string) (gs : list (list element)) : list string :=
  match gs with
  | [] => keep [] cur
  | g :: gs' =>
      match gs' with
      | [] => keep [] (cur ++ meant_group g)
      | _ => keep [] (cur ++ meant_group g) ++ pending EmptyString gs'
      end
  end.

(** The quote state of the loop: whether a quote is open, and which. *)
Definition qs (st : tok_state) : bool * option ascii :=
  (in_quotes st, quote_char st).

(** The two lines of the examples. *)
Definition ls_line : string :=
  ("ls -a " ++ String dquote ("my dir" ++ String dquote EmptyString))%string.

Definition echo_line : string :=
  ("echo " ++ String dquote "unterminated")%string.

(** What one turn of [_main_loop] does with the line it read, up to the
    choice of a handler. *)
Inductive command : Type :=
| CExit
| CHelp
| CCd (path : string)
| CLs (path : string)
| CCat (file : string)
| CPwd
| CWhoami
| CClear
| CApps (args : list string)
| CRun (app : string) (args : list string)
| CMkdir (path : string)
| CTouch (path : string)
| CRm (path : string)
| CEcho (args : list string)
| COther (cmd_base : string) (cmd_args : list string) (cmd : string).

Inductive turn : Type :=
| Skipped
| Printed (msg : string)
| Dispatched (c : command).

Definition first_arg (cmd_args : list string) : string :=
  match cmd_args with a :: _ => a | [] => EmptyString end.

Definition need_operand (cmd_args : list string) (msg : string)
           (k : string -> command) : turn :=
  match cmd_args with
  | [] => Printed msg
  | a :: _ => Dispatched (k a)
  end.

Definition dispatch (cmd : string) (cmd_base : string) (cmd_args : list string) : turn :=
  if String.eqb cmd_base "exit" then Dispatched CExit
  else if String.eqb cmd_base "help" then Dispatched CHelp
  else if String.eqb cmd_base "cd" then Dispatched (CCd (first_arg cmd_args))
  else if String.eqb cmd_base "ls" then Dispatched (CLs (first_arg cmd_args))
  else if String.eqb cmd_base "cat" then
    need_operand cmd_args "cat: manca l'operando che specifica il file" CCat
  else if String.eqb cmd_base "pwd" then Dispatched CPwd
  else if String.eqb cmd_base "whoami" then Dispatched CWhoami
  else if String.eqb cmd_base "clear" then Dispatched CClear
  else if String.eqb cmd_base "apps" then Dispatched (CApps cmd_args)
  else if String.eqb cmd_base "run" then
    match cmd_args with
    | [] => Printed "run: manca il nome dell'applicazione da eseguire"
    | a :: rest => Dispatched (CRun a rest)
    end
  else if String.eqb cmd_base "mkdir" then
    need_operand cmd_args "mkdir: manca l'operando" CMkdir
  else if String.eqb cmd_base "touch" then
    need_operand cmd_args "touch: manca l'operando" CTouch
  else if String.eqb cmd_base "rm" then
    need_operand cmd_args "rm: manca l'operando" CRm
  else if String.eqb cmd_base "echo" then Dispatched (CEcho cmd_args)
  else Dispatched (COther cmd_base cmd_args cmd).

(** One turn of the loop on the raw line returned by [input]. *)
Definition read_eval (line : string) : turn :=
  let cmd := strip line in
  if is_empty cmd then Skipped
  else
    match tokenize cmd with
    | inl UnterminatedQuote => Printed "Errore: citazione non chiusa nel comando"
    | inr [] => Skipped
    | inr (cmd_base :: cmd_args) => dispatch cmd cmd_base cmd_args
    end.

(** The session state touched by [cd]. *)
Record session : Type := mkSession
  { fs_root : Path;
    current_dir : string;
    real_current_dir : Path }.

(** The virtual target computed by [_change_directory]; [None] is the
    early return of [cd ..] at the root. *)
Definition cd_target (st : session) (path : string) : option string :=
  if startswith path "/" then Some path
  else if String.eqb path ".." then
    if String.eqb (current_dir st) "/" then None
    else
      let new_path := str (parent (Path_of_string (current_dir st))) in
      Some (if is_empty new_path then "/" else new_path)
  else if endswith_char (current_dir st) slash then
    Some (current_dir st ++ path)%string
  else
    Some (current_dir st ++ "/" ++ path)%string.

(** [UserLandSystem._change_directory]: the new state and the lines
    printed. *)
Definition _change_directory (fs : filesystem) (st : session) (path : string)
  : session * list string :=
  match cd_target st path with
  | None => (st, [])
  | Some new_path =>
      let real_path := UserLandSystem._virtual_to_real_path (fs_root st) new_path in
      if negb (exists_ fs real_path) then
        (st, [("cd: " ++ path ++ ": No such file or directory")%string])
      else if negb (is_dir fs real_path) then
        (st, [("cd: " ++ path ++ ": Not a directory")%string])
      else
        (mkSession (fs_root st) new_path real_path, [])
  end.

(** The normal form of a stored virtual directory, as a test: the root,
    or a separator followed by plain segments joined by separators. *)
Definition normalized_dir (s : string) : bool :=
  match s with
  | String c EmptyString => Ascii.eqb c slash
  | String c rest => Ascii.eqb c slash && forallb plain_segmentb (split slash rest)
  | EmptyString => false
  end.

(** A relative path made of plain segments only. *)
Definition plain_relative (s : string) : bool :=
  forallb plain_segmentb (split slash s).

End Shell.

(* ================================================================== *)
(** * The file browser ([FileManager._load_directory]) *)
(* ================================================================== *)

Module Browser.
Import PyStr PurePath HostFS Resolver.

(** [os.path.join(a, b)] *)
Definition posix_join (a b : string) : string :=
  if startswith b "/" then b
  else if is_empty a || endswith_char a slash then (a ++ b)%string
  else (a ++ "/" ++ b)%string.

(** The fields of [FileItem] that navigation and ordering read; the size
    and the type tag only feed the display. *)
Record FileItem : Type := mkItem
  { path : Path;
    virtual_path : string;
    name : string;
    is_dir : bool;
    is_executable : bool }.

(** [FileItem(path, virtual_path)] *)
Definition new_FileItem (fs : filesystem) (p : Path) (vp : string) : FileItem :=
  mkItem p vp (PurePath.name p) (HostFS.is_dir fs p)
         (if HostFS.is_file fs p then access_x fs p else false).

Definition rename (it : FileItem) (n : string) : FileItem :=
  mkItem (path it) (virtual_path it) n (is_dir it) (is_executable it).

(** The sort key [(0 if x.name == '..' else (1 if not x.is_dir else 0),
    x.name.lower())]. *)
Definition sort_key (x : FileItem) : nat * string :=
  (if String.eqb (name x) ".." then 0
   else if negb (is_dir x) then 1 else 0,
   lower (name x)).

(** Tuple comparison [k1 <= k2]. *)
Definition key_le (k1 k2 : nat * string) : bool :=
  Nat.ltb (fst k1) (fst k2)
  || (Nat.eqb (fst k1) (fst k2) && String.leb (snd k1) (snd k2)).

(** [list.sort(key=...)] is a stable sort; the stable ordering of a list
    is unique and is computed here by insertion. *)
Section StableSort.
Variables (A K : Type) (key : A -> K) (le : K -> K -> bool).

Fixpoint insert_stable (x : A) (l : list A) : list A :=
match l with
| [] => [x]
| y :: l' =>
if le (key x) (key y) then x :: l
else y :: insert_stable x l'
end.

Definition sort_by_key (l : list A) : list A :=
fold_right insert_stable [] l.
End StableSort.

Definition sort_items (items : list FileItem) : list FileItem :=
  sort_by_key sort_key key_le items.

(** The navigation state of the browser. *)
Record browser : Type := mkBrowser
  { fs_root : Path;
    current_virtual_dir : string;
    current_real_dir : Path;
    items : list FileItem;
    selection : nat;
    offset : nat }.

Inductive popup : Type :=
| AccessDenied (dir : Path)
| LoadError.

(** The virtual path of an entry under the mount point; [None] when
    [relative_to('/')] raises, which it does for a doubled root. *)
Definition mounted_virtual_path (item : Path) : option string :=
  match root item with
  | Rel => Some (posix_join "/mnt/system" (str item))
  | Root1 => Some (posix_join "/mnt/system" (str (mkPath Rel (segments item))))
  | Root2 => None
  end.

Fixpoint add_mounted (fs : filesystem) (acc : list FileItem) (children : list Path)
  : list FileItem * bool :=
  match children with
  | [] => (acc, true)
  | item :: rest =>
      match mounted_virtual_path item with
      | Some vp => add_mounted fs (acc ++ [new_FileItem fs item vp]) rest
      | None => (acc, false)
      end
  end.

Definition add_plain (fs : filesystem) (vdir : string) (acc : list FileItem)
           (children : list Path) : list FileItem :=
  acc ++ map (fun item => new_FileItem fs item (posix_join vdir (PurePath.name item)))
             children.

Definition with_items (b : browser) (l : list FileItem) : browser :=
  mkBrowser (fs_root b) (current_virtual_dir b) (current_real_dir b) l 0 0.

(** [_load_directory], with [_action_go_parent] unfolded at the one place
    where the loader calls it.  Each nested call is on a directory with one
    segment fewer; [fuel] bounds the nesting and [None] means it ran out. *)
Fixpoint _load_directory (fuel : nat) (fs : filesystem) (b : browser)
  : option (browser * list popup) :=
  match fuel with
  | O => None
  | S fuel' =>
      let vdir := current_virtual_dir b in
      let rdir := current_real_dir b in
      let is_real_fs := startswith vdir "/mnt/system" in
      let items0 :=
        if negb (String.eqb vdir "/") then
          [rename (new_FileItem fs (parent rdir)
                                (str (parent (Path_of_string vdir)))) ".."]
        else [] in
      if is_real_fs then
        match iterdir fs rdir with
        | Some children =>
            match add_mounted fs items0 children with
            | (l, true) => Some (with_items b (sort_items l), [])
            | (l, false) => Some (with_items b l, [LoadError])
            end
        | None =>
            if negb (String.eqb vdir "/mnt/system") then
              let parent_virtual := str (parent (Path_of_string vdir)) in
              let parent_virtual :=
                if is_empty parent_virtual then "/" else parent_virtual in
              let b' := mkBrowser (fs_root b) parent_virtual (parent rdir)
                                  items0 0 0 in
              match _load_directory fuel' fs b' with
              | Some (b'', pops) =>
                  Some (with_items b'' (sort_items (items b'')),
                        AccessDenied rdir :: pops)
              | None => None
              end
            else Some (with_items b (sort_items items0), [AccessDenied rdir])
        end
      else
        match iterdir fs rdir with
        | Some children =>
            Some (with_items b (sort_items (add_plain fs vdir items0 children)), [])
        | None => Some (with_items b items0, [LoadError])
        end
  end.

(** Enough fuel for any directory: one call per segment of the virtual
    directory, and one more. *)
Definition load_directory (fs : filesystem) (b : browser)
  : option (browser * list popup) :=
  _load_directory (S (S (String.length (current_virtual_dir b)))) fs b.

End Browser.

(* ================================================================== *)
(** * Writing to the host filesystem *)
(* ================================================================== *)

Module HostIO.
Import PyStr PurePath HostFS.

Definition anchor_eqb (a b : anchor) : bool :=
  match a, b with
  | Rel, Rel | Root1, Root1 | Root2, Root2 => true
  | _, _ => false
  end.

Fixpoint segments_eqb (l1 l2 : list string) : bool :=
  match l1, l2 with
  | [], [] => true
  | x :: l1', y :: l2' => String.eqb x y && segments_eqb l1' l2'
  | _, _ => false
  end.

Definition Path_eqb (p q : Path) : bool :=
  anchor_eqb (root p) (root q) && segments_eqb (segments p) (segments q).

(** The exceptions the filesystem calls raise. *)
Inductive exn : Type :=
| FileExistsError
| FileNotFoundError
| NotADirectoryError
| IsADirectoryError
| PermissionError.

(** A filesystem action: the filesystem it leaves behind, and its value
    or the exception it raised. *)
Definition io (A : Type) : Type := filesystem -> filesystem * (exn + A).

Definition ret {A : Type} (a : A) : io A := fun fs => (fs, inr a).

Definition raise {A : Type} (e : exn) : io A := fun fs => (fs, inl e).

Definition bind {A B : Type} (m : io A) (k : A -> io B) : io B :=
  fun fs =>
    match m fs with
    | (fs', inr a) => k a fs'
    | (fs', inl e) => (fs', inl e)
    end.

Definition read {A : Type} (f : filesystem -> A) : io A :=
  fun fs => (fs, inr (f fs)).

Fixpoint for_each {A : Type} (l : list A) (body : A -> io unit) : io unit :=
  match l with
  | [] => ret tt
  | x :: l' => bind (body x) (fun _ => for_each l' body)
  end.

Definition fs_set (fs : filesystem) (p : Path) (n : node) : filesystem :=
  fun q => if Path_eqb q p then Some n else fs q.

(** Enter the name of [p] in the listing of its parent directory. *)
Definition link_entry (fs : filesystem) (p : Path) : filesystem :=
  match segments p with
  | [] => fs
  | _ =>
      match fs (parent p) with
      | Some (Dir es) =>
          if existsb (String.eqb (name p)) es then fs
          else fs_set fs (parent p) (Dir (es ++ [name p]))
      | _ => fs
      end
  end.

(** [os.mkdir(p)] *)
Definition os_mkdir (p : Path) : io unit :=
  fun fs =>
    match fs (parent p) with
    | None => (fs, inl FileNotFoundError)
    | Some (File _) => (fs, inl NotADirectoryError)
    | Some (Dir _) =>
        match fs p with
        | Some _ => (fs, inl FileExistsError)
        | None => (link_entry (fs_set fs p (Dir [])) p, inr tt)
        end
    end.

(** [p.mkdir(exist_ok=True)] *)
Definition mkdir_exist_ok (p : Path) : io unit :=
  fun fs =>
    match os_mkdir p fs with
    | (fs', inr u) => (fs', inr u)
    | (_, inl FileNotFoundError) => (fs, inl FileNotFoundError)
    | (_, inl e) => if is_dir fs p then (fs, inr tt) else (fs, inl e)
    end.

(** [p.mkdir(parents=True, exist_ok=True)]; the recursion climbs one
    segment per call, so [fuel] is the number of segments of [p]. *)
Fixpoint mkdir_parents_fuel (fuel : nat) (p : Path) : io unit :=
  fun fs =>
    match os_mkdir p fs with
    | (fs', inr u) => (fs', inr u)
    | (_, inl FileNotFoundError) =>
        match fuel with
        | O => (fs, inl FileNotFoundError)
        | S fuel' =>
            if Path_eqb (parent p) p then (fs, inl FileNotFoundError)
            else bind (mkdir_parents_fuel fuel' (parent p))
                      (fun _ => mkdir_exist_ok p) fs
        end
    | (_, inl e) => if is_dir fs p then (fs, inr tt) else (fs, inl e)
    end.

Definition mkdir_parents (p : Path) : io unit :=
  mkdir_parents_fuel (List.length (segments p)) p.

(** [open(p, 'rb')]: succeeds on a readable regular file. *)
Definition open_read (p : Path) : io unit :=
  fun fs =>
    match fs p with
    | None => (fs, inl FileNotFoundError)
    | Some (Dir _) => (fs, inl IsADirectoryError)
    | Some (File f) =>
        if readable f then (fs, inr tt) else (fs, inl PermissionError)
    end.

(** [open(p, 'wb')] or [open(p, 'w')]: creates the file or truncates it;
    an existing file keeps its mode. *)
Definition open_write (p : Path) : io unit :=
  fun fs =>
    match fs (parent p) with
    | None => (fs, inl FileNotFoundError)
    | Some (File _) => (fs, inl NotADirectoryError)
    | Some (Dir _) =>
        match fs p with
        | Some (Dir _) => (fs, inl IsADirectoryError)
        | Some (File f) =>
            (fs_set fs p (File (mkFile EmptyString (readable f) (executable f))),
             inr tt)
        | None =>
            (link_entry (fs_set fs p (File (mkFile EmptyString true false))) p,
             inr tt)
        end
    end.

(** [f.read()] on an open file: what the file holds now. *)
Definition read_open (p : Path) : io string :=
  fun fs =>
    match fs p with
    | Some (File f) => (fs, inr (content f))
    | _ => (fs, inr EmptyString)
    end.

(** [f.write(text)] on a file opened for writing. *)
Definition write_open (p : Path) (text : string) : io unit :=
  fun fs =>
    match fs p with
    | Some (File f) =>
        (fs_set fs p (File (mkFile text (readable f) (executable f))), inr tt)
    | _ => (fs, inr tt)
    end.

(** [os.chmod(p, 0o755)] *)
Definition chmod_755 (p : Path) : io unit :=
  fun fs =>
    match fs p with
    | None => (fs, inl FileNotFoundError)
    | Some (File f) => (fs_set fs p (File (mkFile (content f) true true)), inr tt)
    | Some (Dir es) => (fs, inr tt)
    end.

(** [open(p, 'r')] followed by reading the whole text; [None] when either
    raises. *)
Definition read_text (fs : filesystem) (p : Path) : option string :=
  match fs p with
  | Some (File f) => if readable f then Some (content f) else None
  | _ => None
  end.

(** [p.glob('*')]: the children of a directory, nothing otherwise. *)
Definition glob_all (fs : filesystem) (p : Path) : list Path :=
  match iterdir fs p with
  | Some l => l
  | None => []
  end.

(** ** Where an action writes *)

(** [p] is [d] or lies below it. *)
Definition under (d p : Path) : Prop :=
  root p = root d /\ exists l, segments p = segments d ++ l.

(** Neither directory contains the other. *)
Definition apart (d e : Path) : Prop := ~ under d e /\ ~ under e d.

(** The paths a write below [d] can reach: [d], what lies below it, and
    the directories above it, which [mkdir] may create. *)
Definition zone (d q : Path) : Prop := under d q \/ under q d.

Definition agree_outside (W : Path -> Prop) (fs fs' : filesystem) : Prop :=
  forall q, ~ W q -> fs' q = fs q.

Definition not_a_file (fs : filesystem) (p : Path) : Prop :=
  match fs p with
  | Some (File _) => False
  | _ => True
  end.

(** An action keeps the property [I] of the filesystem, however it
    ends. *)
Definition preserves (I : filesystem -> Prop) {A : Type} (m : io A) : Prop :=
  forall fs fs' r, I fs -> m fs = (fs', r) -> I fs'.

(** Outside [Z] nothing has changed since [fs0], and no path in [B] has
    become a regular file. *)
Definition kept_apart (Z : Path -> Prop) (fs0 : filesystem)
           (B : Path -> Prop) (fs : filesystem) : Prop :=
  agree_outside Z fs0 fs /\ forall b, B b -> not_a_file fs b.

(** A filesystem given by a table of its nodes. *)
Fixpoint fs_of_table (t : list (Path * node)) : filesystem :=
  fun p =>
    match t with
    | [] => None
    | (q, n) :: t' => if Path_eqb p q then Some n else fs_of_table t' p
    end.

Definition table_listings_plain (t : list (Path * node)) : bool :=
  forallb (fun e => match snd e with
                    | Dir es => forallb Resolver.plain_segmentb es
                    | File _ => true
                    end) t.

(** [d] holds a copy of the file [f]: a regular file with the content of
    [f], executable when [f] is. *)
Definition copied (d : Path) (f : file) (fs : filesystem) : Prop :=
  exists g, fs d = Some (File g)
            /\ content g = content f
            /\ (executable f = true -> executable g = true).

(** The part of [Z] that is neither [d] nor below it. *)
Definition except_below (d : Path) (Z : Path -> Prop) (q : Path) : Prop :=
  Z q /\ ~ under d q.

(** No path is protected. *)
Definition nothing (q : Path) : Prop := False.

(** The names a directory lists are single plain segments. *)
Definition listings_plain (fs : filesystem) : Prop :=
  forall p es, fs p = Some (Dir es) -> Forall Resolver.plain_segment es.

End HostIO.

(* ================================================================== *)
(** * The application registry ([AppManager]) *)
(* ================================================================== *)

Module Apps.
Import PyStr PurePath HostFS HostIO.

Record AppInfo : Type := mkApp
  { name : string;
    path : Path;
    app_type : string;
    description : string;
    version : string;
    author : string;
    system_app : bool }.

(** A Python [dict] keyed by strings: insertion order, and an assignment
    to a key that is present replaces its value in place. *)
Definition dict : Type := list (string * AppInfo).

Fixpoint dict_set (d : dict) (k : string) (v : AppInfo) : dict :=
  match d with
  | [] => [(k, v)]
  | (k', v') :: d' =>
      if String.eqb k k' then (k, v) :: d'
      else (k', v') :: dict_set d' k v
  end.

Fixpoint dict_get (d : dict) (k : string) : option AppInfo :=
  match d with
  | [] => None
  | (k', v') :: d' => if String.eqb k k' then Some v' else dict_get d' k
  end.

(** [d.get(key, default)] and [getattr(m, attr, default)] on a field that
    may be absent. *)
Definition get_or {A : Type} (o : option A) (default : A) : A :=
  match o with Some a => a | None => default end.

(** The object [json.load] returns for a descriptor, field by field. *)
Record descriptor : Type := mkDescriptor
  { d_name : option string;
    d_type : option string;
    d_description : option string;
    d_version : option string;
    d_author : option string;
    d_system_app : option bool }.

(** The metadata attributes of an imported [main.py]. *)
Record module_attrs : Type := mkAttrs
  { m_title : option string;
    m_description : option string;
    m_version : option string;
    m_author : option string;
    m_system_app : option bool }.

(** [name.rfind('.')] *)
Fixpoint rfind_dot (s : string) : option nat :=
  match s with
  | EmptyString => None
  | String c s' =>
      match rfind_dot s' with
      | Some i => Some (S i)
      | None => if Ascii.eqb c "."%char then Some 0 else None
      end
  end.

Definition dot_index (n : string) : option nat :=
  match rfind_dot n with
  | Some i =>
      if Nat.ltb 0 i && Nat.ltb i (String.length n - 1) then Some i else None
  | None => None
  end.

(** [p.suffix] *)
Definition suffix (p : Path) : string :=
  match dot_index (PurePath.name p) with
  | Some i => slice_from i (PurePath.name p)
  | None => EmptyString
  end.

(** [p.stem] *)
Definition stem (p : Path) : string :=
  match dot_index (PurePath.name p) with
  | Some i => String.substring 0 i (PurePath.name p)
  | None => PurePath.name p
  end.

(** What the registry prints. *)
Inductive output : Type :=
| DescriptorError (dir_name : string)
| Summary (n_apps n_system_apps : nat).

(** The metadata gathered from the comment markers of [main.sh]. *)
Record sh_meta : Type := mkSh
  { sh_name : string;
    sh_description : string;
    sh_version : string;
    sh_author : string;
    sh_system_app : bool }.

(** The body of [for line in content[:20]]. *)
Definition sh_step (m : sh_meta) (line : string) : sh_meta :=
  let line := strip line in
  if startswith line "# Name:" then
    mkSh (strip (slice_from 7 line)) (sh_description m) (sh_version m)
         (sh_author m) (sh_system_app m)
  else if startswith line "# Description:" then
    mkSh (sh_name m) (strip (slice_from 14 line)) (sh_version m)
         (sh_author m) (sh_system_app m)
  else if startswith line "# Version:" then
    mkSh (sh_name m) (sh_description m) (strip (slice_from 10 line))
         (sh_author m) (sh_system_app m)
  else if startswith line "# Author:" then
    mkSh (sh_name m) (sh_description m) (sh_version m)
         (strip (slice_from 9 line)) (sh_system_app m)
  else if startswith line "# System:" then
    mkSh (sh_name m) (sh_description m) (sh_version m) (sh_author m)
         (String.eqb (lower (strip (slice_from 9 line))) "true")
  else m.

(** The lines that reach the branch of the system marker, and those that
    reach the branch of the name marker. *)
Definition is_system_marker (line : string) : bool :=
  startswith (strip line) "# System:".

Definition is_name_marker (line : string) : bool :=
  startswith (strip line) "# Name:".

(** The name is the folder name, or what follows a name marker. *)
Definition name_origin (dir_name : string) (lines : list string) (n : string)
  : Prop :=
  n = dir_name
  \/ exists x, In x lines /\ is_name_marker x = true
               /\ n = strip (slice_from 7 (strip x)).

Definition sh_scan (dir_name : string) (content : list string) : sh_meta :=
  fold_left sh_step (firstn 20 content)
            (mkSh dir_name EmptyString "1.0.0" EmptyString false).

Section Registry.

(** [json.load] on the text of a descriptor: [None] when it raises, or
when what it returns has no [get] method. *)
Variable json_load : string -> option descriptor.

(** Importing [main.py] and reading its attributes: [None] when the
import raises. *)
Variable exec_module : string -> option module_attrs.

(** [sys.executable] *)
Variable python : string.

Variables (base_path fs_root : Path).

Definition apps_dir : Path := truediv base_path "apps".
Definition virtual_apps_dir : Path := truediv (truediv fs_root "usr") "apps".
Definition system_apps_dir : Path := truediv fs_root "bin".

Definition minimal (app_dir : Path) (kind : string) : AppInfo :=
mkApp (PurePath.name app_dir) app_dir kind
  ("Applicazione: " ++ PurePath.name app_dir)%string
  "1.0.0" EmptyString false.

(** [AppManager._load_app_info] *)
Definition _load_app_info (fs : filesystem) (app_dir : Path)
: option AppInfo * list output :=
let app_json := truediv app_dir "app.json" in
let main_py := truediv app_dir "main.py" in
let main_sh := truediv app_dir "main.sh" in
if exists_ fs app_json then
match option_map json_load (read_text fs app_json) with
| Some (Some data) =>
  let app_type :=
    if exists_ fs main_sh && negb (exists_ fs main_py) then "sh"
    else "py" in
  (Some (mkApp (get_or (d_name data) (PurePath.name app_dir))
               app_dir
               (get_or (d_type data) app_type)
               (get_or (d_description data) EmptyString)
               (get_or (d_version data) "1.0.0")
               (get_or (d_author data) EmptyString)
               (get_or (d_system_app data) false)),
   [])
| _ => (None, [DescriptorError (PurePath.name app_dir)])
end
else if exists_ fs main_py then
match option_map exec_module (read_text fs main_py) with
| Some (Some module) =>
  (Some (mkApp (get_or (m_title module) (PurePath.name app_dir))
               app_dir
               "py"
               (get_or (m_description module) EmptyString)
               (get_or (m_version module) "1.0.0")
               (get_or (m_author module) EmptyString)
               (get_or (m_system_app module) false)),
   [])
| _ => (Some (minimal app_dir "py"), [])
end
else if exists_ fs main_sh then
match read_text fs main_sh with
| Some text =>
  let m := sh_scan (PurePath.name app_dir) (readlines text) in
  (Some (mkApp (sh_name m) app_dir "sh" (sh_description m)
               (sh_version m) (sh_author m) (sh_system_app m)),
   [])
| None => (Some (minimal app_dir "sh"), [])
end
else (None, []).

(** The descriptor file of [app_dir] cannot be used: it cannot be read,
or [json.load] fails on it. *)
Definition descriptor_unusable (fs : filesystem) (app_dir : Path) : bool :=
match option_map json_load (read_text fs (truediv app_dir "app.json")) with
| Some (Some _) => false
| _ => true
end.

(** The two namespaces. *)
Record registry : Type := mkRegistry
{ apps : dict; system_apps : dict }.

Definition register (r : registry) (app_info : AppInfo) : registry :=
if negb (system_app app_info) then
mkRegistry (dict_set (apps r) (name app_info) app_info) (system_apps r)
else
mkRegistry (apps r) (dict_set (system_apps r) (name app_info) app_info).

(** The body of [for app_dir in self.apps_dir.iterdir()]. *)
Definition scan_app_dir (fs : filesystem) (acc : registry * list output)
     (app_dir : Path) : registry * list output :=
if is_dir fs app_dir then
match _load_app_info fs app_dir with
| (Some app_info, out) => (register (fst acc) app_info, snd acc ++ out)
| (None, out) => (fst acc, snd acc ++ out)
end
else acc.

(** The test [item.is_file() and (item.suffix == '.py' or item.suffix ==
'.sh') and os.access(item, os.X_OK)]. *)
Definition is_system_script (fs : filesystem) (item : Path) : bool :=
is_file fs item
&& (String.eqb (suffix item) ".py" || String.eqb (suffix item) ".sh")
&& access_x fs item.

(** The directory of system binaries contributes nothing to a scan: it
is absent, or none of its entries passes the test. *)
Definition no_system_scripts (fs : filesystem) (dir : Path) : Prop :=
match fs dir with
| None => True
| Some (Dir es) =>
Forall (fun n => is_system_script fs (child dir n) = false) es
| Some (File _) => False
end.

(** The body of [for item in self.system_apps_dir.iterdir()]. *)
Definition scan_system_item (fs : filesystem) (r : registry) (item : Path)
: registry :=
if is_system_script fs item then
let app_name := stem item in
mkRegistry (apps r)
(dict_set (system_apps r) app_name
   (mkApp app_name item (slice_from 1 (suffix item))
          ("Applicazione di sistema: " ++ app_name)%string
          "1.0.0" EmptyString true))
else r.

(** [AppManager.scan_apps]; [None] when listing a directory raises,
which nothing in [scan_apps] catches. *)
Definition scan_apps (fs : filesystem) : option (registry * list output) :=
let start : registry * list output := (mkRegistry [] [], []) in
let after_apps :=
if exists_ fs apps_dir then
option_map (fun l => fold_left (scan_app_dir fs) l start)
           (iterdir fs apps_dir)
else Some start in
match after_apps with
| None => None
| Some (r, out) =>
let after_system :=
  if exists_ fs system_apps_dir then
    option_map (fun l => fold_left (scan_system_item fs) l r)
               (iterdir fs system_apps_dir)
  else Some r in
match after_system with
| None => None
| Some r' =>
    Some (r', out ++ [Summary (List.length (apps r'))
                              (List.length (system_apps r'))])
end
end.

(** Copying one file: both files are open while the data moves. *)
Definition copy_file (item dest : Path) : io unit :=
bind (open_read item) (fun _ =>
bind (open_write dest) (fun _ =>
bind (read_open item) (fun data =>
write_open dest data))).

(** The body of [for item in app_info.path.glob('*')]. *)
Definition install_item (dest_dir : Path) (item : Path) : io unit :=
bind (read (fun fs => is_file fs item)) (fun regular =>
if regular then
let dest := truediv dest_dir (PurePath.name item) in
bind (copy_file item dest) (fun _ =>
bind (read (fun fs => access_x fs item)) (fun x =>
if x then chmod_755 dest else ret tt))
else ret tt).

(** The body of [for app_name, app_info in self.apps.items()]. *)
Definition install_user_app (entry : string * AppInfo) : io unit :=
let dest_dir := truediv virtual_apps_dir (fst entry) in
bind (mkdir_exist_ok dest_dir) (fun _ =>
bind (read (fun fs => glob_all fs (path (snd entry)))) (fun items =>
for_each items (install_item dest_dir))).

Definition wrapper_text (app_info : AppInfo) : string :=
("#!/bin/sh" ++ String newline
("exec "
  ++ (if String.eqb (app_type app_info) "py" then python else "/bin/bash")
  ++ " " ++ str (path app_info) ++ " "
  ++ String dquote ("$@" ++ String dquote (String newline EmptyString))))%string.

(** The body of [for app_name, app_info in self.system_apps.items()]. *)
Definition install_system_app (entry : string * AppInfo) : io unit :=
if negb (system_app (snd entry)) then ret tt
else
let dest_file := truediv system_apps_dir (fst entry) in
bind (read (fun fs => exists_ fs dest_file)) (fun present =>
if present then ret tt
else
bind (open_write dest_file) (fun _ =>
bind (write_open dest_file (wrapper_text (snd entry))) (fun _ =>
chmod_755 dest_file))).

(** The names under which a dictionary files its entries are single
plain segments. *)
Definition names_plain (d : dict) : Prop :=
Forall (fun e => Resolver.plain_segment (fst e)) d.

(** Every application the scan files was loaded from a folder directly
  below the applications directory. *)
Definition from_apps_dir (d : dict) : Prop :=
Forall (fun e => exists n, path (snd e) = child apps_dir n) d.

(** What an installation may touch: the virtual applications directory,
the directory of system binaries, what lies below them and the
directories above them. *)
Definition install_zone (q : Path) : Prop :=
zone virtual_apps_dir q \/ zone system_apps_dir q.

(** The entries an installation can copy without touching their source:
  filed under a plain name, from a folder that lies, with what it
  lists, outside the zone of the installation. *)
Definition installable (e : string * AppInfo) : Prop :=
Resolver.plain_segment (fst e)
/\ ~ install_zone (path (snd e))
/\ forall n, ~ install_zone (child (path (snd e)) n).

(** [AppManager.install_app_to_virtual_fs]: the filesystem it leaves
and the boolean it returns; an exception ends it where it stands. *)
Definition install_app_to_virtual_fs (r : registry) (fs : filesystem)
: filesystem * bool :=
match
bind (mkdir_parents virtual_apps_dir) (fun _ =>
bind (mkdir_parents system_apps_dir) (fun _ =>
bind (for_each (apps r) install_user_app) (fun _ =>
for_each (system_apps r) install_system_app))) fs
with
| (fs', inr _) => (fs', true)
| (fs', inl _) => (fs', false)
end.

End Registry.

End Apps.

(* ================================================================== *)
(** * A small host used in the examples *)
(* ================================================================== *)

Module Demo.
Import PyStr PurePath HostFS HostIO Resolver Shell Browser.
(* Apps is used with qualified names: its records share field names with
   the browser. *)

Definition demo_root : Path := mkPath Root1 ["srv"; "onex"].

(** Under [/srv/onex]: [home/ada] with a text file and a directory whose
    name starts with a hyphen. *)
Definition demo_fs : filesystem :=
  fs_of_table
    [(mkPath Root1 ["srv"; "onex"], Dir ["home"]);
     (mkPath Root1 ["srv"; "onex"; "home"], Dir ["ada"]);
     (mkPath Root1 ["srv"; "onex"; "home"; "ada"],
      Dir ["notes.txt"; "-drafts"; "Music"]);
     (mkPath Root1 ["srv"; "onex"; "home"; "ada"; "notes.txt"],
      File (mkFile "hello" true false));
     (mkPath Root1 ["srv"; "onex"; "home"; "ada"; "-drafts"], Dir []);
     (mkPath Root1 ["srv"; "onex"; "home"; "ada"; "Music"], Dir [])].

Definition demo_session : session :=
  mkSession demo_root "/home/ada" (mkPath Root1 ["srv"; "onex"; "home"; "ada"]).

(** The installation of the examples: the program under [/opt/onex], its
    virtual root under [/opt/onex/userland_fs]. *)
Definition demo_base : Path := mkPath Root1 ["opt"; "onex"].
Definition demo_fs_root : Path := mkPath Root1 ["opt"; "onex"; "userland_fs"].

(** The text of a descriptor that gives the name [calc] and says the
    application is not a system application. *)
Definition calc_descriptor_text : string :=
  let q := String dquote EmptyString in
  ("{" ++ q ++ "name" ++ q ++ ": " ++ q ++ "calc" ++ q ++ ", "
       ++ q ++ "system_app" ++ q ++ ": false}")%string.

(** A descriptor cut short after its first field. *)
Definition broken_descriptor_text : string :=
  let q := String dquote EmptyString in
  ("{" ++ q ++ "name" ++ q ++ ": " ++ q ++ "calc" ++ q ++ ",")%string.

(** The decoder of the examples.  It knows the one well-formed descriptor
    they use; the only other descriptor text they contain is the one cut
    short, which [json.load] rejects. *)
Definition demo_json_load (text : string) : option Apps.descriptor :=
  if String.eqb text calc_descriptor_text then
    Some (Apps.mkDescriptor (Some "calc") None None None None (Some false))
  else None.

(** The scripts of the examples define none of the metadata attributes. *)
Definition demo_exec_module (text : string) : option Apps.module_attrs :=
  Some (Apps.mkAttrs None None None None None).

Definition monitor_script : string :=
  ("#!/bin/bash" ++ String newline
     ("# Name: sysmon" ++ String newline
        ("# System: true" ++ String newline "uptime")))%string.

(** Two application folders: [calculator] with a descriptor and a Python
    entry script, [monitor] with a shell entry script only. *)
Definition demo_apps_table : list (Path * node) :=
  [(mkPath Root1 [], Dir ["opt"]);
   (mkPath Root1 ["opt"], Dir ["onex"]);
   (mkPath Root1 ["opt"; "onex"], Dir ["apps"; "userland_fs"]);
   (mkPath Root1 ["opt"; "onex"; "userland_fs"], Dir []);
   (mkPath Root1 ["opt"; "onex"; "apps"], Dir ["calculator"; "monitor"]);
   (mkPath Root1 ["opt"; "onex"; "apps"; "calculator"],
    Dir ["app.json"; "main.py"]);
   (mkPath Root1 ["opt"; "onex"; "apps"; "calculator"; "app.json"],
    File (mkFile calc_descriptor_text true false));
   (mkPath Root1 ["opt"; "onex"; "apps"; "calculator"; "main.py"],
    File (mkFile "print(6 * 7)" true true));
   (mkPath Root1 ["opt"; "onex"; "apps"; "monitor"], Dir ["main.sh"]);
   (mkPath Root1 ["opt"; "onex"; "apps"; "monitor"; "main.sh"],
    File (mkFile monitor_script true true))].

Definition demo_apps_fs : filesystem := fs_of_table demo_apps_table.

(** One application folder whose descriptor is cut short, next to a
    working Python entry script. *)
Definition broken_apps_fs : filesystem :=
  fs_of_table
    [(mkPath Root1 ["opt"; "onex"], Dir ["apps"]);
     (mkPath Root1 ["opt"; "onex"; "apps"], Dir ["calculator"]);
     (mkPath Root1 ["opt"; "onex"; "apps"; "calculator"],
      Dir ["app.json"; "main.py"]);
     (mkPath Root1 ["opt"; "onex"; "apps"; "calculator"; "app.json"],
      File (mkFile broken_descriptor_text true false));
     (mkPath Root1 ["opt"; "onex"; "apps"; "calculator"; "main.py"],
      File (mkFile "print(6 * 7)" true true))].

(** The registry after scanning the two folders, the host after
    installing from it, and the folder the installation gives [calc]. *)
Definition demo_registry : Apps.registry :=
  match Apps.scan_apps demo_json_load demo_exec_module demo_base demo_fs_root
                       demo_apps_fs with
  | Some (r, _) => r
  | None => Apps.mkRegistry [] []
  end.

Definition demo_python : string := "/usr/bin/python3".

Definition demo_installed : filesystem :=
  fst (Apps.install_app_to_virtual_fs demo_python demo_fs_root demo_registry
                                      demo_apps_fs).

Definition demo_calc_source : Path :=
  mkPath Root1 ["opt"; "onex"; "apps"; "calculator"].

Definition demo_calc_copy : Path :=
  mkPath Root1 ["opt"; "onex"; "userland_fs"; "usr"; "apps"; "calc"].

(** The browser opened on [/home/ada]. *)
Definition demo_browser : browser :=
  mkBrowser demo_root "/home/ada"
            (FileManager._virtual_to_real_path demo_root "/home/ada") [] 0 0.

End Demo.

(* ================================================================== *)
(** * More of the host filesystem: removing, touching, ordering paths *)
(* ================================================================== *)

Module HostOps.
Import PyStr PurePath HostFS HostIO.

(** [p.mkdir(parents=True)], without [exist_ok]: the missing parents are
    made with [exist_ok=True], the directory itself is not. *)
Definition mkdir_parents_strict (p : Path) : io unit :=
  fun fs =>
    match os_mkdir p fs with
    | (fs', inr u) => (fs', inr u)
    | (_, inl FileNotFoundError) =>
        if Path_eqb (parent p) p then (fs, inl FileNotFoundError)
        else bind (mkdir_parents (parent p)) (fun _ => os_mkdir p) fs
    | (_, inl e) => (fs, inl e)
    end.

(** [p.touch()]: a path that exists only has its times updated, which
    the model does not record; otherwise an empty regular file is created,
    readable and not executable. *)
Definition touch (p : Path) : io unit :=
  fun fs =>
    match fs p with
    | Some _ => (fs, inr tt)
    | None =>
        match fs (parent p) with
        | Some (Dir _) =>
            (link_entry (fs_set fs p (File (mkFile EmptyString true false))) p,
             inr tt)
        | Some (File _) => (fs, inl NotADirectoryError)
        | None => (fs, inl FileNotFoundError)
        end
    end.

(** Take the name of [p] out of the listing of its parent directory. *)
Definition unlink_entry (fs : filesystem) (p : Path) : filesystem :=
  match segments p with
  | [] => fs
  | _ =>
      match fs (parent p) with
      | Some (Dir es) =>
          fs_set fs (parent p)
                 (Dir (filter (fun n => negb (String.eqb n (name p))) es))
      | _ => fs
      end
  end.

(** The filesystem without the node at [p]. *)
Definition fs_unset (fs : filesystem) (p : Path) : filesystem :=
  fun q => if Path_eqb q p then None else fs q.

(** [p.unlink()], called on what is not a directory. *)
Definition unlink (p : Path) : io unit :=
  fun fs =>
    match fs p with
    | None => (fs, inl FileNotFoundError)
    | Some (Dir _) => (fs, inl IsADirectoryError)
    | Some (File _) => (unlink_entry (fs_unset fs p) p, inr tt)
    end.

Fixpoint is_prefix (l1 l2 : list string) : bool :=
  match l1, l2 with
  | [], _ => true
  | x :: l1', y :: l2' => String.eqb x y && is_prefix l1' l2'
  | _ :: _, [] => false
  end.

(** [q] is [d] or lies below it, as a test. *)
Definition underb (d q : Path) : bool :=
  anchor_eqb (root q) (root d) && is_prefix (segments d) (segments q).

(** [shutil.rmtree(p)] on a directory: when it returns, the directory and
    all that lay below it are gone. *)
Definition rmtree (p : Path) : io unit :=
  fun fs =>
    match fs p with
    | None => (fs, inl FileNotFoundError)
    | Some (File _) => (fs, inl NotADirectoryError)
    | Some (Dir _) =>
        (unlink_entry (fun q => if underb p q then None else fs q) p, inr tt)
    end.

(** [p.parts]: the root, when there is one, and the segments. *)
Definition parts (p : Path) : list string :=
  match root p with
  | Rel => segments p
  | r => root_str r :: segments p
  end.

(** Comparison of lists of strings, the way Python compares lists. *)
Fixpoint parts_leb (l1 l2 : list string) : bool :=
  match l1, l2 with
  | [], _ => true
  | _ :: _, [] => false
  | x :: l1', y :: l2' =>
      if String.eqb x y then parts_leb l1' l2' else String.ltb x y
  end.

(** [p <= q] on pure POSIX paths compares their parts. *)
Definition Path_leb (p q : Path) : bool := parts_leb (parts p) (parts q).

(** [sorted(files)] on a list of paths. *)
Definition sorted_paths (files : list Path) : list Path :=
  Browser.sort_by_key (fun p : Path => p) Path_leb files.

End HostOps.

(* ================================================================== *)
(** * The file commands of the shell ([UserLandSystem]) *)
(* ================================================================== *)

Module ShellCommands.
Import PyStr PurePath HostFS HostIO HostOps Resolver Shell.

(** [UserLandSystem.__init__]: the session starts in the home directory
    of the user. *)
Definition __init__ (fs_root : Path) (current_user : string) : session :=
  mkSession fs_root ("/home/" ++ current_user)%string
            (truediv (truediv fs_root "home") current_user).

(** What a command prints: a line of text, or a prefix followed by the
    text of the exception that was caught. *)
Inductive report : Type :=
| Say (text : string)
| Caught (prefix : string) (e : exn).

(** The virtual path an operand names.  [_list_directory], [_cat_file],
    [_make_directory], [_touch_file] and [_remove_file] all open with
    these lines. *)
Definition operand_path (st : session) (path : string) : string :=
  if startswith path "/" then path
  else if endswith_char (current_dir st) slash then
    (current_dir st ++ path)%string
  else (current_dir st ++ "/" ++ path)%string.

Definition operand_real (st : session) (path : string) : Path :=
  UserLandSystem._virtual_to_real_path (fs_root st) (operand_path st path).

Definition esc : ascii := Eval cbv in ascii_of_nat 27.

(** The line printed for one entry of a listing. *)
Definition ls_entry (fs : filesystem) (file : Path) : string :=
  if is_dir fs file then
    String esc ("[1;34m" ++ name file ++ "/" ++ String esc "[0m")%string
  else if access_x fs file then
    String esc ("[1;32m" ++ name file ++ "*\033[0m")%string
  else name file.

(** [UserLandSystem._list_directory] *)
Definition _list_directory (fs : filesystem) (st : session) (path : string)
  : list string :=
  let target_path :=
    if is_empty path then real_current_dir st else operand_real st path in
  if negb (exists_ fs target_path) then
    [("ls: cannot access '" ++ path ++ "': No such file or directory")%string]
  else if negb (is_dir fs target_path) then [path]
  else
    match iterdir fs target_path with
    | Some files => map (ls_entry fs) (sorted_paths files)
    | None =>
        [("ls: cannot open directory '" ++ path ++ "': Permission denied")%string]
    end.

(** [UserLandSystem._cat_file] *)
Definition _cat_file (fs : filesystem) (st : session) (path : string)
  : list report :=
  let real_path := operand_real st path in
  if negb (exists_ fs real_path) then
    [Say ("cat: " ++ path ++ ": No such file or directory")%string]
  else if negb (is_file fs real_path) then
    [Say ("cat: " ++ path ++ ": Is a directory")%string]
  else
    match bind (open_read real_path) (fun _ => read_open real_path) fs with
    | (_, inr text) => [Say text]
    | (_, inl e) => [Caught ("cat: " ++ path ++ ": ")%string e]
    end.

(** [UserLandSystem._make_directory] *)
Definition _make_directory (st : session) (path : string) (fs : filesystem)
  : filesystem * list report :=
  let real_path := operand_real st path in
  match mkdir_parents_strict real_path fs with
  | (fs', inr _) => (fs', [])
  | (fs', inl e) =>
      (fs', [Caught ("mkdir: impossibile creare la directory '" ++ path
                       ++ "': ")%string e])
  end.

(** [UserLandSystem._touch_file] *)
Definition _touch_file (st : session) (path : string) (fs : filesystem)
  : filesystem * list report :=
  let real_path := operand_real st path in
  match bind (mkdir_parents (parent real_path)) (fun _ => touch real_path) fs with
  | (fs', inr _) => (fs', [])
  | (fs', inl e) =>
      (fs', [Caught ("touch: impossibile creare il file '" ++ path
                       ++ "': ")%string e])
  end.

(** [UserLandSystem._remove_file] *)
Definition _remove_file (st : session) (path : string) (fs : filesystem)
  : filesystem * list report :=
  let real_path := operand_real st path in
  match (if is_dir fs real_path then rmtree real_path else unlink real_path) fs with
  | (fs', inr _) => (fs', [])
  | (fs', inl e) =>
      (fs', [Caught ("rm: impossibile rimuovere '" ++ path ++ "': ")%string e])
  end.

(** The session after a run of [cd] commands, each given with the host
    as it is when the command runs: other commands change the host in
    between. *)
Definition cd_all (st : session) (steps : list (filesystem * string))
  : session :=
  fold_left (fun s step => fst (_change_directory (fst step) s (snd step)))
            steps st.

(** Two states of the tokenizing loop that differ by parts collected
    earlier, and by the quote character remembered while no quote is
    open. *)
Definition ahead (pre : list string) (s s' : tok_state) : Prop :=
  cmd_parts s' = pre ++ cmd_parts s
  /\ current_part s' = current_part s
  /\ in_quotes s' = in_quotes s
  /\ (in_quotes s = true -> quote_char s' = quote_char s).

(** The cached real directory is the resolution of the stored virtual
    one. *)
Definition consistent (st : session) : Prop :=
  real_current_dir st
  = UserLandSystem._virtual_to_real_path (fs_root st) (current_dir st).

End ShellCommands.

(* ================================================================== *)
(** * Moving about in the file browser ([FileManager]) *)
(* ================================================================== *)

Module BrowserNav.
Import PyStr PurePath HostFS Resolver Browser.

(** [FileManager.__init__]: the real directory is the resolution of the
    virtual one. *)
Definition __init__ (fs_root : Path) (current_virtual_dir : string) : browser :=
  mkBrowser fs_root current_virtual_dir
            (FileManager._virtual_to_real_path fs_root current_virtual_dir)
            [] 0 0.

(** [_move_selection]: the new value of [self.selection], an integer
    that the code lets go below zero. *)
Definition _move_selection (n_items selection delta : Z) : Z :=
  let selection := (selection + delta)%Z in
  let selection := if (selection <? 0)%Z then 0%Z else selection in
  if (selection >=? n_items)%Z then (n_items - 1)%Z else selection.

(** The keys of [_handle_input] that move the selection, and the step
    each of them asks for. *)
Inductive move_key : Type :=
| KEY_UP | KEY_DOWN | KEY_PPAGE | KEY_NPAGE | KEY_HOME | KEY_END.

Definition key_delta (n_items list_height : Z) (k : move_key) : Z :=
  match k with
  | KEY_UP => (-1)%Z
  | KEY_DOWN => 1%Z
  | KEY_PPAGE => (- list_height)%Z
  | KEY_NPAGE => list_height
  | KEY_HOME => (- n_items)%Z
  | KEY_END => n_items
  end.

(** The lines of [_draw_file_list] that place the window over the list:
    the new value of [self.offset]. *)
Definition window_offset (n_items list_height selection offset : Z) : Z :=
  let offset := if (selection <? offset)%Z then selection else offset in
  let offset :=
    if (selection >=? offset + list_height)%Z
    then (selection - list_height + 1)%Z else offset in
  let max_offset := Z.max 0 (n_items - list_height) in
  Z.min offset max_offset.

(** [l[i]] on a Python list: a negative index counts from the end;
    [None] stands for [IndexError]. *)
Definition py_index {A : Type} (l : list A) (i : Z) : option A :=
  let n := Z.of_nat (List.length l) in
  if (i <? 0)%Z then
    if (i + n <? 0)%Z then None else nth_error l (Z.to_nat (i + n))
  else nth_error l (Z.to_nat i).

(** What [_action_open_item] does. *)
Inductive opened : Type :=
| Nothing
| IndexError
| Entered (loaded : option (browser * list popup))
| Executed (item : FileItem)
| Viewed (item : FileItem).

(** [_action_open_item], for the selection the browser has reached. *)
Definition _action_open_item (fs : filesystem) (b : browser) (selection : Z)
  : opened :=
  if (selection >=? Z.of_nat (List.length (items b)))%Z then Nothing
  else
    match py_index (items b) selection with
    | None => IndexError
    | Some item =>
        if is_dir item then
          Entered (load_directory fs
                     (mkBrowser (fs_root b) (virtual_path item) (path item)
                                (items b) (Browser.selection b) (offset b)))
        else if is_executable item then Executed item
        else Viewed item
    end.

(** [_action_go_parent] *)
Definition _action_go_parent (fs : filesystem) (b : browser)
  : option (browser * list popup) :=
  if String.eqb (current_virtual_dir b) "/" then Some (b, [])
  else
    let parent_virtual := str (parent (Path_of_string (current_virtual_dir b))) in
    let parent_virtual :=
      if is_empty parent_virtual then "/" else parent_virtual in
    load_directory fs
      (mkBrowser (fs_root b) parent_virtual (parent (current_real_dir b))
                 (items b) (selection b) (offset b)).

(** The real directory of the browser is the resolution of its virtual
    directory. *)
Definition in_step (b : browser) : Prop :=
  current_real_dir b
  = FileManager._virtual_to_real_path (fs_root b) (current_virtual_dir b).

(** The entry for the parent directory, as [_load_directory] builds it. *)
Definition parent_entry (fs : filesystem) (b : browser) : FileItem :=
  rename (new_FileItem fs (parent (current_real_dir b))
                       (str (parent (Path_of_string (current_virtual_dir b)))))
         "..".

End BrowserNav.

(* ================================================================== *)
(** * Listing and starting applications ([AppManager]) *)
(* ================================================================== *)

Module AppRun.
Import PyStr PurePath HostFS HostIO Apps.

(** The dictionary of [AppInfo.to_dict], key by key; a key may be absent
    from a dictionary handed to [from_dict]. *)
Record app_dict : Type := mkAppDict
  { k_name : option string;
    k_path : option string;
    k_app_type : option string;
    k_description : option string;
    k_version : option string;
    k_author : option string;
    k_system_app : option bool }.

(** [AppInfo.to_dict] *)
Definition to_dict (a : AppInfo) : app_dict :=
  mkAppDict (Some (name a)) (Some (str (path a))) (Some (app_type a))
            (Some (description a)) (Some (version a)) (Some (author a))
            (Some (system_app a)).

(** [AppInfo.from_dict]; the base path is not used. *)
Definition from_dict (data : app_dict) (base_path : Path) : AppInfo :=
  mkApp (get_or (k_name data) EmptyString)
        (Path_of_string (get_or (k_path data) EmptyString))
        (get_or (k_app_type data) "py")
        (get_or (k_description data) EmptyString)
        (get_or (k_version data) "1.0.0")
        (get_or (k_author data) EmptyString)
        (get_or (k_system_app data) false).

(** A path as the parser leaves it: no segment is empty, a single dot,
    or holds a separator. *)
Definition parsed (p : Path) : Prop :=
  Forall (fun x => kept x = true /\ mem_char slash x = false) (segments p).

(** [list(d.values())] *)
Definition values (d : dict) : list AppInfo := map snd d.

(** [AppManager.get_app_list] *)
Definition get_app_list (r : registry) (include_system : bool)
  : list AppInfo :=
  let result := values (apps r) in
  let result :=
    if include_system then result ++ values (system_apps r) else result in
  Browser.sort_by_key name String.leb result.

Fixpoint spaces (n : nat) : string :=
  match n with
  | O => EmptyString
  | S n' => String " " (spaces n')
  end.

(** [f"{s:<{w}}"]: [s] followed by blanks up to the width [w]. *)
Definition ljust (s : string) (w : nat) : string :=
  (s ++ spaces (w - String.length s))%string.

(** [max(len(x) for x in l)] on a list that is not empty. *)
Definition max_len (l : list string) : nat :=
  fold_right Nat.max 0 (map String.length l).

Fixpoint dashes (n : nat) : string :=
  match n with
  | O => EmptyString
  | S n' => String "-" (dashes n')
  end.

(** One row of the table of [_list_apps]. *)
Definition app_row (name_width version_width : nat) (app : AppInfo) : string :=
  (ljust (name app) name_width ++ ljust (version app) version_width
     ++ description app)%string.

(** [UserLandSystem._list_apps]: the lines printed. *)
Definition _list_apps (r : registry) (args : list string) : list string :=
  let show_all :=
    existsb (String.eqb "--all") args || existsb (String.eqb "-a") args in
  let apps := get_app_list r show_all in
  match apps with
  | [] => ["Nessuna applicazione trovata"]
  | _ =>
      let name_width := max_len (map name apps) + 2 in
      let version_width := max_len (map version apps) + 2 in
      ("=== Applicazioni Disponibili ===" ++ String newline EmptyString)%string
      :: (ljust "Nome" name_width ++ ljust "Versione" version_width
            ++ "Descrizione")%string
      :: dashes (name_width + version_width + 40)
      :: map (app_row name_width version_width) apps
  end.

(** [needle in hay] *)
Fixpoint contains (needle hay : string) : bool :=
  String.prefix needle hay
  || match hay with
     | EmptyString => false
     | String _ rest => contains needle rest
     end.

(** [AppManager._app_uses_curses] *)
Definition _app_uses_curses (fs : filesystem) (app_path : Path) : bool :=
  match read_text fs app_path with
  | Some content =>
      contains "import curses" content || contains "curses.wrapper" content
  | None => false
  end.

(** What [run_app] decides before a process is started: it gives up with
    a message, or it starts the command line [argv], with the variables
    [env] added to the environment when there are any, either waiting for
    it without looking at its result or capturing what it prints. *)
Inductive plan : Type :=
| Refuse (message : string)
| Direct (argv : list string) (env : list (string * string))
| Captured (argv : list string) (env : list (string * string))
           (done : string).

Section Run.
Variable python : string.
Variable fs_root : Path.

Definition app_env (app_info : AppInfo) : list (string * string) :=
[("ONEX_APP_PATH", str (path app_info));
 ("ONEX_APP_NAME", name app_info);
 ("ONEX_FS_ROOT", str fs_root)].

(** The part of [run_app] that follows the lookup, up to the start of the
  process: the host it leaves, and what it decided; an exception of
  [os.chmod] ends it with a message that quotes the exception. *)
Definition launch (app_name : string) (app_info : AppInfo)
     (args : list string) (fs : filesystem)
: filesystem * (exn + plan) :=
if String.eqb (app_type app_info) "py" then
if system_app app_info && is_file fs (path app_info) then
  (fs, inr (Captured (python :: str (path app_info) :: args) []
                     "Applicazione eseguita con successo"))
else
  let main_py := truediv (path app_info) "main.py" in
  if negb (exists_ fs main_py) then
    (fs, inr (Refuse ("File main.py non trovato per l'app '" ++ app_name
                        ++ "'")%string))
  else if String.eqb app_name "filemanager" || _app_uses_curses fs main_py
  then (fs, inr (Direct (python :: str main_py :: args) (app_env app_info)))
  else (fs, inr (Captured (python :: str main_py :: args) (app_env app_info)
                          "Applicazione eseguita con successo"))
else if String.eqb (app_type app_info) "sh" then
let script_path :=
  if system_app app_info && is_file fs (path app_info)
  then Some (path app_info)
  else
    let main_sh := truediv (path app_info) "main.sh" in
    if negb (exists_ fs main_sh) then None else Some main_sh in
match script_path with
| None =>
    (fs, inr (Refuse ("File main.sh non trovato per l'app '" ++ app_name
                        ++ "'")%string))
| Some script_path =>
    match chmod_755 script_path fs with
    | (fs', inl e) => (fs', inl e)
    | (fs', inr _) =>
        (fs', inr (Captured ("/bin/bash" :: str script_path :: args)
                            (app_env app_info)
                            "Script eseguito con successo"))
    end
end
else
(fs, inr (Refuse ("Tipo di applicazione non supportato: "
                    ++ app_type app_info)%string)).

(** [AppManager.run_app], up to the start of the process. *)
Definition run_app (r : registry) (app_name : string) (args : list string)
     (fs : filesystem) : filesystem * (exn + plan) :=
let app_info :=
match dict_get (system_apps r) app_name with
| Some a => Some a
| None => dict_get (apps r) app_name
end in
match app_info with
| None =>
  (fs, inr (Refuse ("Applicazione '" ++ app_name ++ "' non trovata")%string))
| Some app_info => launch app_name app_info args fs
end.

End Run.

End AppRun.

(* ================================================================== *)
(** * The shell of the host ([ShellManager]) *)
(* ================================================================== *)

Module ShellCompat.
Import PyStr AppRun.

(** [ShellManager._detect_shell], on the value of [SHELL] or the empty
    string. *)
Definition _detect_shell (shell_path : string) : string :=
  if contains "bash" shell_path then "bash"
  else if contains "zsh" shell_path then "zsh"
  else if contains "fish" shell_path then "fish"
  else if contains "dash" shell_path then "dash"
  else if contains "sh" shell_path then "sh"
  else "unknown".

End ShellCompat.

(* ================================================================== *)
(** * The browser outside the mount point *)
(* ================================================================== *)

Module BrowserInv.
Import PyStr PurePath HostFS HostIO Resolver Shell Browser BrowserNav.

(** An item of the directory the browser shows: the entry for the parent,
    away from the virtual root, or the entry for a name the directory
    lists. *)
Definition listed (b : browser) (item : FileItem) : Prop :=
  (current_virtual_dir b <> "/"
   /\ virtual_path item = str (parent (Path_of_string (current_virtual_dir b)))
   /\ path item = parent (current_real_dir b))
  \/ exists n, plain_segment n
               /\ virtual_path item = posix_join (current_virtual_dir b) n
               /\ path item = child (current_real_dir b) n.

(** The browser shows a directory of the virtual filesystem: its virtual
    directory is in normal form and outside the mount prefix, its real
    directory is the resolution of the virtual one, and its items belong
    to that directory. *)
Definition browsing (b : browser) : Prop :=
  normalized_dir (current_virtual_dir b) = true
  /\ startswith (current_virtual_dir b) "/mnt/system" = false
  /\ in_step b
  /\ Forall (listed b) (items b).

(** One step of navigation: reloading, going to the parent, or opening
    the selected item when it is a directory. *)
Inductive nav (fs : filesystem) (b : browser) : browser -> Prop :=
| nav_reload (b' : browser) (pops : list popup) :
    load_directory fs b = Some (b', pops) -> nav fs b b'
| nav_parent (b' : browser) (pops : list popup) :
    _action_go_parent fs b = Some (b', pops) -> nav fs b b'
| nav_open (selection : Z) (b' : browser) (pops : list popup) :
    _action_open_item fs b selection = Entered (Some (b', pops)) ->
    nav fs b b'.

End BrowserInv.

(* ================================================================== *)
(** * More examples *)
(* ================================================================== *)

Module Examples.
Import PyStr PurePath HostFS HostIO Resolver Shell Browser BrowserNav Demo.

(** The browser of the examples after it has loaded [/home/ada]. *)
Definition loaded_browser : browser :=
  match load_directory demo_fs demo_browser with
  | Some (b, _) => b
  | None => demo_browser
  end.

End Examples.

(* ================================================================== *)
(** * The text viewer of the file browser *)
(* ================================================================== *)

Module TextViewer.
Import BrowserNav.

(** The keys the loop of [_show_text_viewer] answers to, apart from
    those that leave it. *)
Definition viewer_step (n_lines max_lines top_line : Z) (k : move_key) : Z :=
  match k with
  | KEY_UP => Z.max 0 (top_line - 1)
  | KEY_DOWN => Z.min (n_lines - 1) (top_line + 1)
  | KEY_PPAGE => Z.max 0 (top_line - max_lines)
  | KEY_NPAGE => Z.min (n_lines - 1) (top_line + max_lines)
  | KEY_HOME => 0%Z
  | KEY_END => Z.max 0 (n_lines - max_lines)
  end.

(** [range(n)] *)
Definition range (n : Z) : list Z := map Z.of_nat (seq 0 (Z.to_nat n)).

(** The lines one pass of the loop draws: [lines[top_line + i]] for [i]
    in [range(min(max_lines, len(lines) - top_line))]; [None] stands for
    the [IndexError] that ends the pass. *)
Fixpoint fetch_all (lines : list string) (indices : list Z)
  : option (list string) :=
  match indices with
  | [] => Some []
  | i :: rest =>
      match py_index lines i with
      | None => None
      | Some line =>
          match fetch_all lines rest with
          | None => None
          | Some l => Some (line :: l)
          end
      end
  end.

Definition drawn (lines : list string) (max_lines top_line : Z)
  : option (list string) :=
  let n := Z.of_nat (List.length lines) in
  fetch_all lines
            (map (fun i => (top_line + i)%Z)
                 (range (Z.min max_lines (n - top_line)))).

End TextViewer.

(* ================================================================== *)
(** * What an installation leaves in place *)
(* ================================================================== *)

Module InstallInv.
Import PurePath HostFS HostIO.

(** Every directory of [fs0] is a directory of [fs], and every regular
    file of [fs0] a regular file of [fs]. *)
Definition kinds_kept (fs0 fs : filesystem) : Prop :=
  forall p, (is_dir fs0 p = true -> is_dir fs p = true)
            /\ (is_file fs0 p = true -> is_file fs p = true).

(** The node [n] can take the place of what [fs] holds at [p]. *)
Definition same_kind (fs : filesystem) (p : Path) (n : node) : Prop :=
  match fs p, n with
  | Some (Dir _), Dir _ => True
  | Some (File _), File _ => True
  | None, _ => True
  | _, _ => False
  end.

End InstallInv.


(* ================================================================== *)
(** * Facts about the string primitives *)
(* ================================================================== *)

Module PyStrFacts.
Import PyStr.

Lemma append_empty_r (s : string) : (s ++ EmptyString)%string = s.
Proof. induction s as [|c s IH]; simpl; [reflexivity | now rewrite IH]. Qed.

Lemma append_assoc (a b c : string) :
  ((a ++ b) ++ c)%string = (a ++ (b ++ c))%string.
Proof. induction a as [|x a IH]; simpl; [reflexivity | now rewrite IH]. Qed.

Lemma is_empty_true (s : string) : is_empty s = true <-> s = EmptyString.
Proof. destruct s; simpl; split; congruence. Qed.

Lemma is_empty_false (s : string) : is_empty s = false <-> s <> EmptyString.
Proof. destruct s; simpl; split; congruence. Qed.

Lemma mem_char_app (c : ascii) (a b : string) :
  mem_char c (a ++ b)%string = mem_char c a || mem_char c b.
Proof.
  induction a as [|x a IH]; simpl; [reflexivity|].
  now rewrite IH, orb_assoc.
Qed.

Lemma split_not_nil (sep : ascii) (s : string) : split sep s <> [].
Proof.
  destruct s as [|c s]; simpl; [discriminate|].
  destruct (Ascii.eqb c sep); [discriminate|].
  destruct (split sep s); discriminate.
Qed.

(** No field of a split contains the separator. *)
Lemma split_fields_clean (sep : ascii) (s : string) :
  Forall (fun w => mem_char sep w = false) (split sep s).
Proof.
  induction s as [|c s IH]; simpl.
  - constructor; [reflexivity | constructor].
  - destruct (Ascii.eqb c sep) eqn:E.
    + constructor; [reflexivity | exact IH].
    + destruct (split sep s) as [|w ws].
      * constructor; [simpl; now rewrite E | constructor].
      * inversion IH; subst. constructor; [simpl; now rewrite E | assumption].
Qed.

Lemma split_clean (sep : ascii) (w : string) :
  mem_char sep w = false -> split sep w = [w].
Proof.
  induction w as [|c w IH]; simpl; intros H; [reflexivity|].
  apply orb_false_iff in H as [Hc Hw].
  rewrite Hc, (IH Hw). reflexivity.
Qed.

Lemma split_app_sep (sep : ascii) (w rest : string) :
  mem_char sep w = false ->
  split sep (w ++ String sep rest)%string = w :: split sep rest.
Proof.
  induction w as [|c w IH]; simpl; intros H.
  - now rewrite Ascii.eqb_refl.
  - apply orb_false_iff in H as [Hc Hw].
    rewrite Hc, (IH Hw). reflexivity.
Qed.

(** Splitting undoes joining, when no part holds the separator. *)
Lemma split_join (sep : ascii) (parts : list string) :
  parts <> [] ->
  Forall (fun w => mem_char sep w = false) parts ->
  split sep (join (String sep EmptyString) parts) = parts.
Proof.
  intros Hne Hall. induction Hall as [|w ws Hw Hws IH]; [congruence|].
  destruct ws as [|w' ws'].
  - simpl. now apply split_clean.
  - change (join (String sep EmptyString) (w :: w' :: ws'))
      with (w ++ String sep (join (String sep EmptyString) (w' :: ws')))%string.
    rewrite split_app_sep by assumption.
    f_equal. apply IH. discriminate.
Qed.

Lemma join_cons_nonempty (sep w : string) (ws : list string) :
  w <> EmptyString -> join sep (w :: ws) <> EmptyString.
Proof.
  intros Hw. destruct w as [|c w]; [congruence|].
  destruct ws; simpl; discriminate.
Qed.

Lemma startswith_nothing (s : string) : startswith s EmptyString = true.
Proof. now destruct s. Qed.

Lemma startswith_slash (c : ascii) (r : string) :
  startswith (String c r) "/" = Ascii.eqb c "/".
Proof.
  unfold startswith.
  change (String.prefix "/" (String c r))
    with (if Ascii.ascii_dec "/" c then String.prefix EmptyString r else false).
  destruct (Ascii.ascii_dec "/" c) as [<-|Hne].
  - now destruct r.
  - symmetry. apply Ascii.eqb_neq. congruence.
Qed.

End PyStrFacts.


(* ================================================================== *)
(** * Facts about parsed paths *)
(* ================================================================== *)

Module PathFacts.
Import PyStr PurePath Resolver PyStrFacts.

Lemma plain_kept (x : string) : plain_segment x -> kept x = true.
Proof.
  intros (He & Hd & _ & _). unfold kept.
  destruct (String.eqb_spec x EmptyString); [contradiction|].
  destruct (String.eqb_spec x "."); [contradiction|]. reflexivity.
Qed.

Lemma filter_kept_plain (l : list string) :
  Forall plain_segment l -> filter kept l = l.
Proof.
  induction 1 as [|x l Hx _ IH]; simpl; [reflexivity|].
  now rewrite (plain_kept Hx), IH.
Qed.

Lemma plain_no_slash (l : list string) :
  Forall plain_segment l -> Forall (fun w => mem_char slash w = false) l.
Proof. apply Forall_impl. intros x (_ & _ & _ & H). exact H. Qed.

(** The first character of a join is the first character of its first
    part, so a join of plain segments has no root. *)
Lemma splitroot_join_plain (x : string) (l : list string) :
  plain_segment x -> splitroot (join "/" (x :: l)) = Rel.
Proof.
  intros (He & _ & _ & Hs).
  destruct x as [|c x]; [congruence|].
  simpl in Hs. apply orb_false_iff in Hs as [Hc _].
  destruct l; simpl; fold slash; now rewrite Hc.
Qed.

(** Parsing the join of plain segments gives those segments back. *)
Lemma Path_of_join_plain (l : list string) :
  l <> [] -> Forall plain_segment l ->
  Path_of_string (join "/" l) = mkPath Rel l.
Proof.
  intros Hne Hall. unfold Path_of_string.
  destruct l as [|x l]; [congruence|].
  rewrite splitroot_join_plain by (now inversion Hall).
  change "/" with (String slash EmptyString).
  rewrite split_join by (auto using plain_no_slash).
  now rewrite filter_kept_plain.
Qed.

Lemma Path_of_plain (x : string) :
  plain_segment x -> Path_of_string x = mkPath Rel [x].
Proof.
  intros Hx. apply (@Path_of_join_plain [x]); [discriminate | now constructor].
Qed.

Lemma truediv_join_plain (p : Path) (l : list string) :
  l <> [] -> Forall plain_segment l ->
  truediv p (join "/" l) = mkPath (root p) (segments p ++ l).
Proof.
  intros Hne Hall. unfold truediv. now rewrite Path_of_join_plain.
Qed.

Lemma truediv_plain (p : Path) (x : string) :
  plain_segment x -> truediv p x = mkPath (root p) (segments p ++ [x]).
Proof. intros Hx. unfold truediv. now rewrite Path_of_plain. Qed.

Lemma joinpath_all_plain (l : list string) :
  Forall plain_segment l ->
  forall p, joinpath_all p l = mkPath (root p) (segments p ++ l).
Proof.
  unfold joinpath_all.
  induction 1 as [|x l Hx _ IH]; intros p; simpl.
  - rewrite app_nil_r. now destruct p.
  - rewrite IH, truediv_plain by assumption. simpl.
    now rewrite <- app_assoc.
Qed.

End PathFacts.

(* ================================================================== *)
(** * The resolver *)
(* ================================================================== *)

Module ResolverFacts.
Import PyStr PurePath Resolver PyStrFacts PathFacts.

Lemma Forall_removelast (A : Type) (P : A -> Prop) (l : list A) :
  Forall P l -> Forall P (removelast l).
Proof.
  induction 1 as [|x l Hx Hl IH]; simpl; [constructor|].
  destruct l; [constructor | now constructor].
Qed.

Lemma normalize_step_plain (parts : list string) (part : string) :
  mem_char slash part = false ->
  Forall plain_segment parts ->
  Forall plain_segment (normalize_step parts part).
Proof.
  intros Hs Hp. unfold normalize_step.
  destruct (String.eqb_spec part "..") as [->|Hdd].
  - destruct parts; [assumption | now apply Forall_removelast].
  - destruct (is_empty part) eqn:He; simpl; [assumption|].
    destruct (String.eqb_spec part ".") as [->|Hd]; simpl; [assumption|].
    apply Forall_app; split; [assumption|].
    constructor; [|constructor].
    apply is_empty_false in He. now repeat split.
Qed.

Lemma fold_normalize_plain (segs : list string) :
  Forall (fun w => mem_char slash w = false) segs ->
  forall parts, Forall plain_segment parts ->
  Forall plain_segment (fold_left normalize_step segs parts).
Proof.
  induction 1 as [|seg segs Hseg _ IH]; intros parts Hp; simpl; [assumption|].
  apply IH. now apply normalize_step_plain.
Qed.

(** Every segment the loop leaves on its stack is plain. *)
Lemma normalize_plain (P : string) : Forall plain_segment (normalize P).
Proof.
  unfold normalize. apply fold_normalize_plain; [|constructor].
  apply split_fields_clean.
Qed.

Lemma removelast_rev_cons (A : Type) (x : A) (l : list A) :
  removelast (rev (x :: l)) = rev l.
Proof. simpl. now rewrite removelast_last. Qed.

Lemma fold_normalize_spec_walk (segs stack : list string) :
  fold_left normalize_step segs (rev stack) = spec_walk stack segs.
Proof.
  revert stack. induction segs as [|seg segs IH]; intros stack; simpl;
    [reflexivity|].
  unfold normalize_step at 2.
  destruct (String.eqb_spec seg "..") as [->|Hdd].
  - destruct stack as [|top below].
    + simpl. apply (IH []).
    + destruct (rev (top :: below)) eqn:E.
      * apply (f_equal (@List.length _)) in E.
        rewrite length_rev in E. discriminate.
      * rewrite <- E, removelast_rev_cons. apply IH.
  - destruct (String.eqb_spec seg ".") as [->|Hd]; simpl.
    + apply IH.
    + destruct seg as [|c seg]; simpl; [apply IH|].
      apply (IH (String c seg :: stack)).
Qed.

(** The loop of the source computes the normal form the specification
    describes. *)
Lemma normalize_is_spec (P : string) : normalize P = spec_normalize P.
Proof. apply (fold_normalize_spec_walk (split slash P) []). Qed.

End ResolverFacts.


Module ResolverClaims.
Import PyStr PurePath Resolver PyStrFacts PathFacts ResolverFacts.

Lemma path_eta (p : Path) : mkPath (root p) (segments p ++ []) = p.
Proof. destruct p; simpl. now rewrite app_nil_r. Qed.

Lemma userland_sandboxed (fs_root : Path) (P : string) :
  startswith P mount_prefix = false ->
  UserLandSystem._virtual_to_real_path fs_root P
  = mkPath (root fs_root) (segments fs_root ++ normalize P).
Proof.
  intros Hpre. unfold UserLandSystem._virtual_to_real_path.
  assert (Hn : normalize (if is_empty P then "/" else P) = normalize P)
    by (destruct P; reflexivity).
  assert (Hs : startswith (if is_empty P then "/" else P) "/mnt/system" = false)
    by (destruct P; [reflexivity | exact Hpre]).
  rewrite Hs, Hn.
  pose proof (normalize_plain P) as Hplain.
  destruct (normalize P) as [|x l] eqn:E.
  - simpl. now rewrite path_eta.
  - assert (Hx : plain_segment x) by now inversion Hplain.
    pose proof (join_cons_nonempty "/" l (proj1 Hx)) as Hj.
    destruct (join "/" (x :: l)) as [|c j] eqn:Ej; [congruence|].
    change (("/" ++ String c j)%string) with (String "/" (String c j)).
    simpl String.eqb. cbn [slice_from].
    rewrite <- Ej. apply truediv_join_plain; [discriminate | assumption].
Qed.

Lemma filemanager_sandboxed (fs_root : Path) (P : string) :
  startswith P mount_prefix = false ->
  FileManager._virtual_to_real_path fs_root P
  = mkPath (root fs_root) (segments fs_root ++ normalize P).
Proof.
  intros Hpre. unfold FileManager._virtual_to_real_path.
  assert (Hn : normalize (if is_empty P then "/" else P) = normalize P)
    by (destruct P; reflexivity).
  assert (Hs : startswith (if is_empty P then "/" else P) "/mnt/system" = false)
    by (destruct P; [reflexivity | exact Hpre]).
  rewrite Hs, Hn.
  pose proof (normalize_plain P) as Hplain.
  destruct (normalize P) as [|x l] eqn:E.
  - now rewrite path_eta.
  - now apply joinpath_all_plain.
Qed.

(** C1.  Outside the mount prefix both resolvers return [fs_root] followed
    by the lexically normalised segments of the virtual path, as the
    specification describes them (a [..] pops a non-empty stack and is
    absorbed on an empty one, [.] and empty segments are skipped, the rest
    is pushed); the result therefore lies inside [fs_root]. *)
Theorem resolve_sandboxed (fs_root : Path) (P : string) :
  startswith P mount_prefix = false ->
  UserLandSystem._virtual_to_real_path fs_root P
  = mkPath (root fs_root) (segments fs_root ++ spec_normalize P)
  /\ FileManager._virtual_to_real_path fs_root P
     = mkPath (root fs_root) (segments fs_root ++ spec_normalize P)
  /\ Forall plain_segment (spec_normalize P)
  /\ inside fs_root (UserLandSystem._virtual_to_real_path fs_root P)
  /\ inside fs_root (FileManager._virtual_to_real_path fs_root P).
Proof.
  intros Hpre.
  rewrite (userland_sandboxed fs_root P Hpre).
  rewrite (filemanager_sandboxed fs_root P Hpre).
  rewrite <- normalize_is_spec.
  pose proof (normalize_plain P) as Hplain.
  assert (Hin : inside fs_root
                  (mkPath (root fs_root) (segments fs_root ++ normalize P))).
  { split; [reflexivity|].
    exists (normalize P). split; [reflexivity | assumption]. }
  split; [reflexivity|]. split; [reflexivity|].
  split; [assumption|]. split; exact Hin.
Qed.

Lemma resolve_sandboxed_witness :
  startswith "/home/../../etc/./passwd" mount_prefix = false
  /\ UserLandSystem._virtual_to_real_path (Path_of_string "/srv/onex")
       "/home/../../etc/./passwd"
     = mkPath Root1 ["srv"; "onex"; "etc"; "passwd"].
Proof.
  split; [reflexivity|].
  destruct (@resolve_sandboxed (Path_of_string "/srv/onex")
              "/home/../../etc/./passwd" eq_refl) as [H _].
  rewrite H. reflexivity.
Defined.

Lemma absolute_of_slash (rest : string) :
  is_absolute (Path_of_string (String "/" rest)) = true.
Proof.
  unfold is_absolute, Path_of_string; simpl.
  destruct rest as [|b rest]; [reflexivity|].
  destruct (Ascii.eqb b slash); [|reflexivity].
  destruct rest as [|c rest]; [reflexivity|].
  destruct (Ascii.eqb c slash); reflexivity.
Qed.

(** C2.  The virtual path [/mnt/system] resolves to the host root, and
    [/mnt/system/rest] resolves to the host path [/rest], an absolute path
    in which [fs_root] plays no part; [/mnt/system/etc/hosts] resolves to
    [/etc/hosts]. *)
Theorem resolve_mount (fs_root : Path) :
  UserLandSystem._virtual_to_real_path fs_root "/mnt/system"
  = Path_of_string "/"
  /\ FileManager._virtual_to_real_path fs_root "/mnt/system"
     = Path_of_string "/"
  /\ (forall rest : string,
        UserLandSystem._virtual_to_real_path fs_root ("/mnt/system/" ++ rest)
        = Path_of_string ("/" ++ rest)
        /\ FileManager._virtual_to_real_path fs_root ("/mnt/system/" ++ rest)
           = Path_of_string ("/" ++ rest)
        /\ is_absolute (Path_of_string ("/" ++ rest)) = true)
  /\ UserLandSystem._virtual_to_real_path fs_root "/mnt/system/etc/hosts"
     = mkPath Root1 ["etc"; "hosts"]
  /\ FileManager._virtual_to_real_path fs_root "/mnt/system/etc/hosts"
     = mkPath Root1 ["etc"; "hosts"]
  /\ str (UserLandSystem._virtual_to_real_path fs_root "/mnt/system/etc/hosts")
     = "/etc/hosts"
  /\ str (UserLandSystem._virtual_to_real_path fs_root "/mnt/system") = "/".
Proof.
  repeat split; try reflexivity.
  apply absolute_of_slash.
Qed.

Lemma relative_of_no_slash (rest : string) :
  startswith rest "/" = false -> splitroot rest = Rel.
Proof.
  destruct rest as [|a rest]; [reflexivity|].
  rewrite startswith_slash. simpl. unfold slash. now intros ->.
Qed.

(** C10.  The mount test is a bare prefix test with a cut at eleven
    characters: a virtual path that continues [/mnt/system] with anything
    but a separator takes the mount branch and resolves to the remainder
    parsed as a relative host path, whatever [fs_root] is; under an
    absolute [fs_root] that result is not inside [fs_root].
    [/mnt/systemfoo] resolves to the relative path [foo]. *)
Theorem resolve_mount_prefix_without_separator (fs_root : Path) (rest : string) :
  rest <> EmptyString ->
  startswith rest "/" = false ->
  UserLandSystem._virtual_to_real_path fs_root ("/mnt/system" ++ rest)
  = Path_of_string rest
  /\ FileManager._virtual_to_real_path fs_root ("/mnt/system" ++ rest)
     = Path_of_string rest
  /\ is_absolute (Path_of_string rest) = false
  /\ (is_absolute fs_root = true -> ~ inside fs_root (Path_of_string rest))
  /\ UserLandSystem._virtual_to_real_path fs_root "/mnt/systemfoo"
     = mkPath Rel ["foo"]
  /\ FileManager._virtual_to_real_path fs_root "/mnt/systemfoo"
     = mkPath Rel ["foo"].
Proof.
  intros Hne Hrel.
  pose proof (relative_of_no_slash rest Hrel) as Hroot.
  assert (Hemp : is_empty rest = false) by now apply is_empty_false.
  repeat split.
  - unfold UserLandSystem._virtual_to_real_path. simpl.
    now rewrite startswith_nothing, Hemp.
  - unfold FileManager._virtual_to_real_path. simpl.
    now rewrite startswith_nothing, Hemp.
  - unfold is_absolute, Path_of_string; simpl. now rewrite Hroot.
  - intros Habs [Hr _]. unfold is_absolute in Habs.
    unfold Path_of_string in Hr; simpl in Hr.
    rewrite Hroot in Hr. rewrite <- Hr in Habs. discriminate.
Qed.

Lemma resolve_mount_prefix_without_separator_witness :
  ".old/secrets" <> EmptyString
  /\ startswith ".old/secrets" "/" = false
  /\ UserLandSystem._virtual_to_real_path (Path_of_string "/srv/onex")
       "/mnt/system.old/secrets"
     = mkPath Rel [".old"; "secrets"].
Proof.
  split; [discriminate|]. split; [reflexivity|].
  destruct (@resolve_mount_prefix_without_separator
              (Path_of_string "/srv/onex") ".old/secrets")
    as [H _]; [discriminate | reflexivity |].
  exact H.
Defined.

End ResolverClaims.


(* ================================================================== *)
(** * The tokenizer *)
(* ================================================================== *)

Module TokenizerFacts.
Import PyStr Shell PyStrFacts.

Lemma is_quote_cases (c : ascii) :
  is_quote c = true -> c = dquote \/ c = squote.
Proof.
  unfold is_quote. intros H. apply orb_true_iff in H as [H|H];
    apply Ascii.eqb_eq in H; auto.
Qed.

(** A blank is never a quote character. *)
Lemma space_not_quote (c : ascii) : isspace c = true -> is_quote c = false.
Proof.
  intros Hs. destruct (is_quote c) eqn:Hq; [|reflexivity].
  apply is_quote_cases in Hq as [->| ->]; discriminate.
Qed.

Lemma tok_loop_app (st : tok_state) (a b : string) :
  tok_loop st (a ++ b)%string = tok_loop (tok_loop st a) b.
Proof. revert st. induction a as [|c a IH]; intros st; simpl; auto. Qed.

(** Inside a quoted span every character but the closing quote is copied. *)
Lemma tok_loop_body (q : ascii) (body : string) :
  mem_char q body = false ->
  forall parts cur,
    tok_loop (mkTok parts cur true (Some q)) body
    = mkTok parts (cur ++ body) true (Some q).
Proof.
  induction body as [|c body IH]; intros Hq parts cur; simpl.
  - now rewrite append_empty_r.
  - simpl in Hq. apply orb_false_iff in Hq as [Hc Hb].
    assert (Hstep : tok_step (mkTok parts cur true (Some q)) c
                    = mkTok parts (push_char cur c) true (Some q)).
    { unfold tok_step; simpl. rewrite Hc.
      destruct (is_quote c); [reflexivity|].
      now rewrite andb_false_r. }
    rewrite Hstep, (IH Hb). unfold push_char.
    now rewrite append_assoc.
Qed.

Lemma tok_loop_quoted (q : ascii) (body : string) (parts : list string)
      (cur : string) :
  is_quote q = true -> mem_char q body = false ->
  tok_loop (mkTok parts cur false None) (typed (Quoted q body))
  = mkTok parts (cur ++ body) false None.
Proof.
  intros Hq Hb. simpl.
  assert (Hopen : tok_step (mkTok parts cur false None) q
                  = mkTok parts cur true (Some q))
    by (unfold tok_step; simpl; now rewrite Hq).
  rewrite Hopen, tok_loop_app, tok_loop_body by assumption. simpl.
  unfold tok_step; simpl. now rewrite Hq, Ascii.eqb_refl.
Qed.

Lemma keep_app (parts : list string) (cur : string) :
  keep parts cur = parts ++ keep [] cur.
Proof. unfold keep. destruct (is_empty cur); simpl; now rewrite ?app_nil_r. Qed.

Lemma groups_not_nil (els : list element) : groups els <> [].
Proof.
  destruct els as [|[c|c|q b] els]; simpl; try discriminate;
    destruct (groups els); discriminate.
Qed.

Lemma pending_fresh (gs : list (list element)) :
  gs <> [] ->
  pending EmptyString gs
  = filter (fun t => negb (is_empty t)) (map meant_group gs).
Proof.
  induction gs as [|g gs IH]; [congruence|]. intros _.
  assert (Hk : forall t, keep [] t
                         = if negb (is_empty t) then [t] else [])
    by (intros t; unfold keep; now destruct (is_empty t)).
  destruct gs as [|g' gs'].
  - simpl. rewrite Hk. now destruct (is_empty (meant_group g)).
  - change (pending EmptyString (g :: g' :: gs'))
      with (keep [] (meant_group g) ++ pending EmptyString (g' :: gs')).
    rewrite IH by discriminate. rewrite Hk. simpl.
    now destruct (is_empty (meant_group g)).
Qed.

Lemma pending_cons (cur : string) (e : element) (els : list element) :
  (forall c, e <> Blank c) ->
  pending cur (groups (e :: els)) = pending (cur ++ meant e) (groups els).
Proof.
  intros Hnb.
  assert (Hg : groups (e :: els)
               = match groups els with
                 | [] => [[e]]
                 | g :: gs => (e :: g) :: gs
                 end)
    by (destruct e; [now contradiction (Hnb c) | reflexivity | reflexivity]).
  rewrite Hg. pose proof (groups_not_nil els) as Hne.
  destruct (groups els) as [|g gs]; [congruence|].
  assert (Hm : (cur ++ meant_group (e :: g))%string
               = ((cur ++ meant e) ++ meant_group g)%string).
  { unfold meant_group. simpl.
    destruct (map meant g) eqn:Eg; simpl.
    - now rewrite !append_empty_r.
    - now rewrite append_assoc. }
  destruct gs; simpl; now rewrite Hm.
Qed.

Lemma typed_line_cons (e : element) (els : list element) :
  typed_line (e :: els) = (typed e ++ typed_line els)%string.
Proof.
  unfold typed_line. simpl. destruct (map typed els); simpl.
  - now rewrite append_empty_r.
  - reflexivity.
Qed.

(** The loop over a line of closed quotes ends outside quotes, and the
    flush then leaves the expected tokens. *)
Lemma tok_loop_elements (els : list element) :
  forallb element_ok els = true ->
  forall parts cur,
    exists parts' cur',
      tok_loop (mkTok parts cur false None) (typed_line els)
      = mkTok parts' cur' false None
      /\ keep parts' cur' = parts ++ pending cur (groups els).
Proof.
  induction els as [|e els IH]; intros Hok parts cur.
  - exists parts, cur. split; [reflexivity|].
    simpl. rewrite append_empty_r. apply keep_app.
  - simpl in Hok. apply andb_true_iff in Hok as [He Hels].
    rewrite typed_line_cons, tok_loop_app.
    destruct e as [c|c|q body]; simpl in He.
    + assert (Hstep : tok_loop (mkTok parts cur false None) (typed (Blank c))
                      = mkTok (keep parts cur) EmptyString false None).
      { simpl. unfold tok_step; simpl.
        rewrite (@space_not_quote c He), He. unfold keep.
        destruct cur; reflexivity. }
      rewrite Hstep.
      destruct (IH Hels (keep parts cur) EmptyString) as (p' & c' & Hl & Hk).
      exists p', c'. split; [exact Hl|].
      rewrite Hk. pose proof (groups_not_nil els) as Hne.
      simpl. destruct (groups els) as [|g gs]; [congruence|].
      rewrite append_empty_r, (keep_app parts cur).
      now rewrite <- app_assoc.
    + apply andb_true_iff in He as [Hs Hq].
      apply negb_true_iff in Hs. apply negb_true_iff in Hq.
      assert (Hstep : tok_loop (mkTok parts cur false None) (typed (Plain c))
                      = mkTok parts (cur ++ meant (Plain c)) false None).
      { simpl. unfold tok_step; simpl. now rewrite Hq, Hs. }
      rewrite Hstep.
      destruct (IH Hels parts (cur ++ meant (Plain c))%string)
        as (p' & c' & Hl & Hk).
      exists p', c'. split; [exact Hl|].
      rewrite Hk, pending_cons; [reflexivity | discriminate].
    + apply andb_true_iff in He as [Hq Hb]. apply negb_true_iff in Hb.
      rewrite tok_loop_quoted by assumption.
      destruct (IH Hels parts (cur ++ body)%string) as (p' & c' & Hl & Hk).
      exists p', c'. split; [exact Hl|].
      rewrite Hk, pending_cons; [reflexivity | discriminate].
Qed.

Lemma tokenize_elements (els : list element) :
  forallb element_ok els = true ->
  tokenize (typed_line els) = inr (expected_tokens els).
Proof.
  intros Hok. unfold tokenize, tok_init.
  destruct (@tok_loop_elements els Hok [] EmptyString) as (p' & c' & Hl & Hk).
  rewrite Hl. unfold tok_flush; simpl.
  rewrite pending_fresh in Hk by apply groups_not_nil.
  unfold keep in Hk. unfold expected_tokens.
  destruct (is_empty c'); simpl; now rewrite Hk.
Qed.

Lemma qs_step_congr (st1 st2 : tok_state) (c : ascii) :
  qs st1 = qs st2 -> qs (tok_step st1 c) = qs (tok_step st2 c).
Proof.
  destruct st1 as [p1 c1 i1 q1], st2 as [p2 c2 i2 q2]. unfold qs; simpl.
  intros H; injection H as -> ->. unfold tok_step; simpl.
  destruct (is_quote c); [destruct i2; simpl; [destruct (same_quote q2 c)|];
                          reflexivity|].
  destruct (isspace c && negb i2); [|reflexivity].
  destruct (is_empty c1), (is_empty c2); reflexivity.
Qed.

Lemma qs_step_space (st : tok_state) (c : ascii) :
  isspace c = true -> qs (tok_step st c) = qs st.
Proof.
  intros Hs. destruct st as [parts cur i q].
  unfold tok_step. rewrite (@space_not_quote c Hs), Hs. simpl.
  destruct i; simpl; [reflexivity|].
  destruct (is_empty cur); reflexivity.
Qed.

Lemma qs_loop_congr (s : string) :
  forall st1 st2, qs st1 = qs st2 ->
                  qs (tok_loop st1 s) = qs (tok_loop st2 s).
Proof.
  induction s as [|c s IH]; intros st1 st2 H; simpl; [exact H|].
  apply IH. now apply qs_step_congr.
Qed.

Lemma qs_lstrip (s : string) (st : tok_state) :
  qs (tok_loop st (lstrip s)) = qs (tok_loop st s).
Proof.
  revert st. induction s as [|c s IH]; intros st; simpl; [reflexivity|].
  destruct (isspace c) eqn:Hs; [|reflexivity].
  rewrite IH. apply qs_loop_congr. symmetry. now apply qs_step_space.
Qed.

Lemma qs_rstrip (s : string) :
  forall st, qs (tok_loop st (rstrip s)) = qs (tok_loop st s).
Proof.
  induction s as [|c s IH]; intros st; simpl; [reflexivity|].
  destruct (rstrip s) as [|r rs] eqn:Er.
  - destruct (isspace c) eqn:Hs; simpl.
    + rewrite <- IH. simpl. symmetry. now apply qs_step_space.
    + now rewrite <- IH.
  - simpl. apply IH.
Qed.

(** Stripping a line does not change whether it ends inside a quote. *)
Lemma qs_strip (s : string) (st : tok_state) :
  qs (tok_loop st (strip s)) = qs (tok_loop st s).
Proof. unfold strip. now rewrite qs_lstrip, qs_rstrip. Qed.

Lemma tok_flush_quotes (st : tok_state) :
  in_quotes (tok_flush st) = in_quotes st.
Proof. unfold tok_flush. now destruct (is_empty (current_part st)). Qed.

Lemma unterminated_ends_in_quotes (line : string) :
  unterminated line -> in_quotes (tok_loop tok_init line) = true.
Proof.
  intros (els & q & rest & Hok & Hq & Hrest & ->).
  destruct (@tok_loop_elements els Hok [] EmptyString) as (p' & c' & Hl & _).
  rewrite tok_loop_app. unfold tok_init. rewrite Hl. simpl.
  assert (Hopen : tok_step (mkTok p' c' false None) q
                  = mkTok p' c' true (Some q))
    by (unfold tok_step; simpl; now rewrite Hq).
  rewrite Hopen, tok_loop_body by assumption. reflexivity.
Qed.

End TokenizerFacts.


Module TokenizerClaims.
Import PyStr Shell PyStrFacts TokenizerFacts.

Lemma tokenize_unterminated (line : string) :
  unterminated line -> tokenize line = inl UnterminatedQuote.
Proof.
  intros H. unfold tokenize.
  now rewrite tok_flush_quotes, (unterminated_ends_in_quotes H).
Qed.

Lemma strip_unterminated (line : string) :
  unterminated line ->
  is_empty (strip line) = false
  /\ tokenize (strip line) = inl UnterminatedQuote.
Proof.
  intros H. pose proof (unterminated_ends_in_quotes H) as Hq.
  assert (Hs : in_quotes (tok_loop tok_init (strip line)) = true).
  { pose proof (qs_strip line tok_init) as E. unfold qs in E.
    injection E as E _. now rewrite E. }
  split.
  - destruct (strip line); [discriminate Hs | reflexivity].
  - unfold tokenize. now rewrite tok_flush_quotes, Hs.
Qed.

(** C3.  On a line whose quotes are all closed the tokenizer returns the
    tokens between unquoted blanks, quoted spans standing verbatim inside
    their token; the line [ls_line] (ls, -a, and my dir between double
    quotes) yields the three tokens [ls], [-a] and [my dir].  On every line
    in which a quote is opened and never closed it reports the unterminated
    quote, and the turn of the loop prints the error instead of dispatching
    a command; so it does on [echo_line] (echo, and unterminated after one
    double quote). *)
Theorem tokenizer_contract :
  (forall els : list element,
      forallb element_ok els = true ->
      tokenize (typed_line els) = inr (expected_tokens els))
  /\ tokenize ls_line = inr ["ls"; "-a"; "my dir"]
  /\ (forall line : string,
         unterminated line ->
         tokenize line = inl UnterminatedQuote
         /\ read_eval line = Printed "Errore: citazione non chiusa nel comando")
  /\ tokenize echo_line = inl UnterminatedQuote
  /\ read_eval echo_line = Printed "Errore: citazione non chiusa nel comando".
Proof.
  split; [exact tokenize_elements|].
  split; [reflexivity|].
  split; [|split; reflexivity].
  intros line H. split; [now apply tokenize_unterminated|].
  destruct (strip_unterminated H) as [He Ht].
  unfold read_eval. now rewrite He, Ht.
Qed.

Lemma tokenizer_contract_witness :
  (forallb element_ok
     [Plain "l"; Plain "s"; Blank " "; Plain "-"; Plain "a"; Blank " ";
      Quoted dquote "my dir"] = true
   /\ tokenize ls_line = inr ["ls"; "-a"; "my dir"])
  /\ (unterminated echo_line
      /\ read_eval echo_line = Printed "Errore: citazione non chiusa nel comando").
Proof.
  destruct tokenizer_contract as (Hclosed & _ & Hopen & _).
  split.
  - split; [reflexivity|].
    exact (Hclosed [Plain "l"; Plain "s"; Blank " "; Plain "-"; Plain "a";
                    Blank " "; Quoted dquote "my dir"]%char eq_refl).
  - assert (Hu : unterminated echo_line).
    { exists [Plain "e"; Plain "c"; Plain "h"; Plain "o"; Blank " "]%char,
             dquote, "unterminated".
      repeat split; reflexivity. }
    split; [exact Hu|]. exact (proj2 (Hopen echo_line Hu)).
Defined.

End TokenizerClaims.


(* ================================================================== *)
(** * The [cd] built-in *)
(* ================================================================== *)

Module CdClaims.
Import PyStr PurePath HostFS Resolver Shell Demo PyStrFacts PathFacts.

(** C4.  When the resolved real path of the [cd] target does not exist the
    session prints the no-such-file message and is unchanged; when it
    exists and is not a directory the session prints the not-a-directory
    message and is unchanged; the new directory is committed only when the
    path is a directory.  At the root, [cd ..] resolves nothing and changes
    nothing. *)
Theorem cd_rejects_without_change
        (fs : filesystem) (st : session) (path : string) :
  match cd_target st path with
  | None => _change_directory fs st path = (st, [])
  | Some new_path =>
      let real_path :=
        UserLandSystem._virtual_to_real_path (fs_root st) new_path in
      (exists_ fs real_path = false ->
       _change_directory fs st path
       = (st, [("cd: " ++ path ++ ": No such file or directory")%string]))
      /\ (exists_ fs real_path = true -> is_dir fs real_path = false ->
          _change_directory fs st path
          = (st, [("cd: " ++ path ++ ": Not a directory")%string]))
      /\ (is_dir fs real_path = true ->
          _change_directory fs st path
          = (mkSession (fs_root st) new_path real_path, []))
  end.
Proof.
  unfold _change_directory.
  destruct (cd_target st path) as [new_path|]; [|reflexivity].
  cbv zeta. repeat split.
  - intros ->. reflexivity.
  - intros -> ->. reflexivity.
  - intros Hd. assert (He : exists_ fs
      (UserLandSystem._virtual_to_real_path (fs_root st) new_path) = true).
    { unfold is_dir in Hd. unfold exists_.
      destruct (fs _); [reflexivity | discriminate]. }
    now rewrite He, Hd.
Qed.

Lemma cd_rejects_without_change_witness :
  _change_directory demo_fs demo_session "/home/bob"
  = (demo_session, ["cd: /home/bob: No such file or directory"])
  /\ _change_directory demo_fs demo_session "notes.txt"
     = (demo_session, ["cd: notes.txt: Not a directory"]).
Proof.
  split.
  - exact (proj1 (cd_rejects_without_change demo_fs demo_session "/home/bob")
                 eq_refl).
  - exact (proj1 (proj2 (cd_rejects_without_change demo_fs demo_session
                                                    "notes.txt"))
                 eq_refl eq_refl).
Defined.

End CdClaims.

Module CdNormalForm.
Import PyStr PurePath HostFS Resolver Shell Demo PyStrFacts PathFacts.

Lemma plain_segmentb_spec (x : string) :
  plain_segmentb x = true <-> plain_segment x.
Proof.
  unfold plain_segmentb, plain_segment.
  rewrite !andb_true_iff, !negb_true_iff, !String.eqb_neq. tauto.
Qed.

Lemma forallb_plain (l : list string) :
  forallb plain_segmentb l = true <-> Forall plain_segment l.
Proof.
  rewrite forallb_forall, Forall_forall.
  split; intros H x Hx; apply plain_segmentb_spec; auto.
Qed.

Lemma split_app (sep : ascii) (a b : string) :
  split sep (a ++ String sep b)%string = split sep a ++ split sep b.
Proof.
  induction a as [|c a IH]; simpl.
  - now rewrite Ascii.eqb_refl.
  - destruct (Ascii.eqb c sep); rewrite IH; [reflexivity|].
    pose proof (split_not_nil sep a) as Hne.
    destruct (split sep a); [congruence | reflexivity].
Qed.

Lemma split_single_empty (sep : ascii) (s : string) :
  split sep s = [EmptyString] -> s = EmptyString.
Proof.
  destruct s as [|c s]; [reflexivity|]. simpl.
  destruct (Ascii.eqb c sep).
  - intros H. injection H as H. now apply split_not_nil in H.
  - destruct (split sep s); discriminate.
Qed.

(** A string that ends in the separator splits into fields the last of
    which is empty. *)
Lemma endswith_last_field (sep : ascii) (s : string) :
  endswith_char s sep = true ->
  exists l, split sep s = l ++ [EmptyString].
Proof.
  induction s as [|c s IH]; [discriminate|].
  destruct s as [|d s'].
  - simpl. intros ->. now exists [EmptyString].
  - intros H. change (endswith_char (String d s') sep = true) in H.
    destruct (IH H) as [l Hl].
    change (split sep (String c (String d s')))
      with (if Ascii.eqb c sep then EmptyString :: split sep (String d s')
            else match split sep (String d s') with
                 | [] => [String c EmptyString]
                 | w :: ws => String c w :: ws
                 end).
    rewrite Hl. destruct (Ascii.eqb c sep).
    + now exists (EmptyString :: l).
    + destruct l as [|w ws].
      * apply split_single_empty in Hl. discriminate.
      * now exists (String c w :: ws).
Qed.

Lemma plain_relative_no_trailing (s : string) :
  plain_relative s = true -> endswith_char s slash = false.
Proof.
  intros Hp. destruct (endswith_char s slash) eqn:E; [|reflexivity].
  destruct (@endswith_last_field _ _ E) as [l Hl].
  unfold plain_relative in Hp. rewrite Hl, forallb_app in Hp.
  apply andb_true_iff in Hp as [_ Hp]. discriminate.
Qed.

Lemma plain_relative_head (s : string) :
  plain_relative s = true ->
  exists c rest, s = String c rest /\ Ascii.eqb c slash = false.
Proof.
  unfold plain_relative. destruct s as [|c rest]; [discriminate|].
  intros H. exists c, rest. split; [reflexivity|].
  simpl in H. destruct (Ascii.eqb c slash); [discriminate | reflexivity].
Qed.

Lemma normalized_dir_cases (s : string) :
  normalized_dir s = true ->
  s = "/" \/ exists rest, s = String slash rest /\ plain_relative rest = true.
Proof.
  destruct s as [|c rest]; [discriminate|]. simpl.
  destruct rest as [|d rest'].
  - intros H. apply Ascii.eqb_eq in H. subst. now left.
  - intros H. apply andb_true_iff in H as [Hc Hp].
    apply Ascii.eqb_eq in Hc. subst. right. now eexists.
Qed.

Lemma normalized_dir_intro (rest : string) :
  plain_relative rest = true -> normalized_dir (String slash rest) = true.
Proof.
  intros Hp. destruct (@plain_relative_head _ Hp) as (c & r & -> & _).
  exact Hp.
Qed.

(** Parsing a normalised directory gives the root and its segments. *)
Lemma Path_of_normalized (rest : string) :
  plain_relative rest = true ->
  Path_of_string (String slash rest) = mkPath Root1 (split slash rest).
Proof.
  intros Hp. destruct (@plain_relative_head _ Hp) as (c & r & -> & Hc).
  unfold Path_of_string. f_equal.
  - simpl. now rewrite Hc.
  - change (split slash (String slash (String c r)))
      with (EmptyString :: split slash (String c r)).
    simpl filter. apply filter_kept_plain. now apply forallb_plain.
Qed.

Lemma normalized_of_segments (l : list string) :
  Forall plain_segment l ->
  normalized_dir (str (mkPath Root1 l)) = true.
Proof.
  intros Hl. unfold str; simpl.
  destruct l as [|x l']; [reflexivity|].
  apply normalized_dir_intro. unfold plain_relative.
  change "/" with (String slash EmptyString).
  rewrite split_join; [now apply forallb_plain | discriminate |].
  now apply plain_no_slash.
Qed.

Lemma str_root1_nonempty (l : list string) :
  is_empty (str (mkPath Root1 l)) = false.
Proof. reflexivity. Qed.

(** The target of [cd] is in normal form when the current directory is
    and the argument is two dots, a normalised absolute path, or plain
    segments joined by separators. *)
Lemma cd_target_normalized (st : session) (path new_path : string) :
  normalized_dir (current_dir st) = true ->
  path = ".." \/ normalized_dir path = true \/ plain_relative path = true ->
  cd_target st path = Some new_path ->
  normalized_dir new_path = true.
Proof.
  intros Hcur Hpath. unfold cd_target.
  destruct Hpath as [->|[Habs|Hrel]].
  - (* two dots *)
    simpl startswith. simpl String.eqb.
    destruct (@normalized_dir_cases _ Hcur) as [Hroot|(rest & Hrest & Hp)].
    + rewrite Hroot. discriminate.
    + rewrite Hrest.
      assert (Hne : String.eqb (String slash rest) "/" = false).
      { destruct (@plain_relative_head _ Hp) as (c & r & -> & _).
        reflexivity. }
      rewrite Hne, (@Path_of_normalized rest Hp).
      unfold parent; simpl segments; simpl root.
      assert (Hplain : Forall plain_segment (removelast (split slash rest)))
        by (apply ResolverFacts.Forall_removelast; now apply forallb_plain).
      pose proof (split_not_nil slash rest) as Hnn.
      destruct (split slash rest) as [|x l] eqn:E; [congruence|].
      rewrite str_root1_nonempty. intros H; injection H as <-.
      now apply normalized_of_segments.
  - (* an absolute path in normal form *)
    assert (Hs : startswith path "/" = true).
    { destruct (@normalized_dir_cases _ Habs) as [->|(rest & -> & _)];
        [reflexivity|]. now rewrite startswith_slash. }
    rewrite Hs. intros H; injection H as <-. exact Habs.
  - (* plain segments, relative to the current directory *)
    destruct (@plain_relative_head _ Hrel) as (c & r & Hpath & Hc).
    assert (Hs : startswith path "/" = false).
    { rewrite Hpath, startswith_slash. exact Hc. }
    assert (Hdd : String.eqb path ".." = false).
    { apply String.eqb_neq. intros ->. discriminate. }
    rewrite Hs, Hdd.
    destruct (@normalized_dir_cases _ Hcur) as [Hroot|(rest & Hrest & Hp)].
    + rewrite Hroot. simpl. intros H; injection H as <-.
      now apply normalized_dir_intro.
    + rewrite Hrest.
      assert (He : endswith_char (String slash rest) slash = false).
      { destruct (@plain_relative_head _ Hp) as (c' & r' & -> & _).
        apply (@plain_relative_no_trailing _ Hp). }
      rewrite He. intros H; injection H as <-.
      change (String slash rest ++ "/" ++ path)%string
        with (String slash (rest ++ String slash path)).
      apply normalized_dir_intro. unfold plain_relative in *.
      rewrite split_app, forallb_app.
      apply andb_true_iff. split; [exact Hp | exact Hrel].
Qed.

End CdNormalForm.

Module CdStorageClaims.
Import PyStr PurePath HostFS Resolver Shell Demo CdNormalForm.




End CdStorageClaims.


(* ================================================================== *)
(** * The ordering of the file browser *)
(* ================================================================== *)

Module BrowserFacts.
Import PyStr PurePath HostFS Resolver Browser.

Section Insertion.
Variables (A K : Type) (key : A -> K) (le : K -> K -> bool).
Hypothesis le_total : forall a b, le a b = true \/ le b a = true.

#[local] Abbreviation ordered := (fun x y : A => le (key x) (key y) = true).

Lemma insert_stable_perm (x : A) (l : list A) :
Permutation (x :: l) (insert_stable key le x l).
Proof.
induction l as [|y l IH]; simpl; [reflexivity|].
destruct (le (key x) (key y)); [reflexivity|].
rewrite perm_swap. now constructor.
Qed.

Lemma sort_by_key_perm (l : list A) :
Permutation l (sort_by_key key le l).
Proof.
induction l as [|x l IH]; simpl; [constructor|].
rewrite <- insert_stable_perm. now constructor.
Qed.

Lemma insert_stable_hd (x y : A) (l : list A) :
ordered y x -> HdRel ordered y l ->
HdRel ordered y (insert_stable key le x l).
Proof.
intros Hyx Hl. destruct l as [|z l]; simpl; [now constructor|].
destruct (le (key x) (key z)); constructor; [exact Hyx|].
now inversion Hl.
Qed.

Lemma insert_stable_sorted (x : A) (l : list A) :
Sorted ordered l -> Sorted ordered (insert_stable key le x l).
Proof.
induction 1 as [|y l Hl IH Hhd]; simpl; [repeat constructor|].
destruct (le (key x) (key y)) eqn:E.
- constructor; [now constructor | now constructor].
- constructor; [exact IH|].
apply insert_stable_hd; [|exact Hhd].
destruct (le_total (key x) (key y)) as [H|H]; [congruence | exact H].
Qed.

Lemma sort_by_key_sorted (l : list A) :
Sorted ordered (sort_by_key key le l).
Proof.
induction l as [|x l IH]; simpl; [constructor|].
now apply insert_stable_sorted.
Qed.

End Insertion.

Lemma key_le_total (a b : nat * string) :
  key_le a b = true \/ key_le b a = true.
Proof.
  unfold key_le. destruct a as [n s], b as [m t]; simpl.
  destruct (Nat.lt_trichotomy n m) as [H|[H|H]].
  - left. apply orb_true_iff. left. now apply Nat.ltb_lt.
  - subst m. rewrite Nat.eqb_refl, Nat.ltb_irrefl. simpl.
    apply String.leb_total.
  - right. apply orb_true_iff. left. now apply Nat.ltb_lt.
Qed.

(** What the sort does establish: neighbours are in key order, and
    nothing is lost or added. *)
Lemma sort_items_sorted (l : list FileItem) :
  Sorted (fun x y => key_le (sort_key x) (sort_key y) = true) (sort_items l).
Proof. apply sort_by_key_sorted. exact key_le_total. Qed.

Lemma sort_items_perm (l : list FileItem) : Permutation l (sort_items l).
Proof. apply sort_by_key_perm. Qed.

(** The key of the parent entry is the key of a directory called [..]:
    the first component does not set it apart. *)
Lemma parent_key_is_directory_key (it : FileItem) :
  name it = ".." -> sort_key it = (0, "..").
Proof. intros H. unfold sort_key. now rewrite H. Qed.

Lemma directory_key (it : FileItem) :
  is_dir it = true -> fst (sort_key it) = 0.
Proof.
  intros H. unfold sort_key; simpl. rewrite H.
  now destruct (String.eqb (name it) "..").
Qed.

End BrowserFacts.

Module BrowserClaims.
Import PyStr PurePath HostFS Resolver Browser Demo BrowserFacts.

(** C9, at an input where it fails.  [/home/ada] is not the virtual root
    and holds the directories [-drafts] and [Music] and the file
    [notes.txt]; after loading it the list starts with [-drafts], and the
    parent entry comes second. *)
Theorem parent_entry_not_first :
  current_virtual_dir demo_browser <> "/"
  /\ option_map (fun r => map name (items (fst r)))
                (load_directory demo_fs demo_browser)
     = Some ["-drafts"; ".."; "Music"; "notes.txt"]
  /\ option_map (fun r => map is_dir (items (fst r)))
                (load_directory demo_fs demo_browser)
     = Some [true; true; true; false]
  /\ option_map snd (load_directory demo_fs demo_browser) = Some [].
Proof.
  split; [discriminate|]. repeat split; vm_compute; reflexivity.
Qed.

End BrowserClaims.


(* ================================================================== *)
(** * Scanning for applications *)
(* ================================================================== *)

Module ScanClaims.
Import PyStr PurePath HostFS HostIO Apps Demo.

Section LoadAppInfo.
Variable json_load : string -> option descriptor.
Variable exec_module : string -> option module_attrs.
Variable fs : filesystem.
Variable app_dir : Path.

#[local] Abbreviation app_json := (truediv app_dir "app.json").
#[local] Abbreviation main_py := (truediv app_dir "main.py").
#[local] Abbreviation main_sh := (truediv app_dir "main.sh").
#[local] Abbreviation load := (_load_app_info json_load exec_module fs app_dir).

Lemma load_descriptor_unusable :
exists_ fs app_json = true ->
descriptor_unusable json_load fs app_dir = true ->
load = (None, [DescriptorError (PurePath.name app_dir)]).
Proof.
unfold _load_app_info, descriptor_unusable.
intros -> H.
destruct (option_map json_load (read_text fs (truediv app_dir "app.json")))
as [[data|]|]; [discriminate | reflexivity | reflexivity].
Qed.

Lemma load_silent_iff :
load = (None, [])
<-> exists_ fs app_json = false
/\ exists_ fs main_py = false
/\ exists_ fs main_sh = false.
Proof.
unfold _load_app_info. split.
- destruct (exists_ fs (truediv app_dir "app.json")).
{ destruct (option_map json_load _) as [[data|]|]; discriminate. }
destruct (exists_ fs (truediv app_dir "main.py")).
{ destruct (option_map exec_module _) as [[m|]|]; discriminate. }
destruct (exists_ fs (truediv app_dir "main.sh")); [|auto].
destruct (read_text fs _); discriminate.
- intros (-> & -> & ->). reflexivity.
Qed.

(** C6, as the code has it.  A descriptor file that cannot be read or
parsed makes the scan print an error for the folder and register
nothing for it, whether or not an entry script is there.  The
minimal descriptor is the fallback of the entry scripts only: of a
[main.py] that cannot be imported and of a [main.sh] that cannot be
read, in a folder without descriptor file.  A folder is passed over
silently exactly when it has no descriptor file and no entry
script. *)
Theorem unusable_descriptor_excludes_app :
(exists_ fs app_json = true ->
descriptor_unusable json_load fs app_dir = true ->
load = (None, [DescriptorError (PurePath.name app_dir)])
/\ forall acc,
 is_dir fs app_dir = true ->
 scan_app_dir json_load exec_module fs acc app_dir
 = (fst acc, snd acc ++ [DescriptorError (PurePath.name app_dir)]))
/\ (exists_ fs app_json = false ->
exists_ fs main_py = true ->
match option_map exec_module (read_text fs main_py) with
| Some (Some _) => False
| _ => True
end ->
load = (Some (minimal app_dir "py"), []))
/\ (exists_ fs app_json = false ->
exists_ fs main_py = false ->
exists_ fs main_sh = true ->
read_text fs main_sh = None ->
load = (Some (minimal app_dir "sh"), []))
/\ (load = (None, [])
<-> exists_ fs app_json = false
    /\ exists_ fs main_py = false
    /\ exists_ fs main_sh = false).
Proof.
split; [|split; [|split]].
- intros He Hu. pose proof (load_descriptor_unusable He Hu) as Hl.
split; [exact Hl|]. intros acc Hd. unfold scan_app_dir.
fold load. now rewrite Hd, Hl.
- unfold _load_app_info. intros -> ->.
destruct (option_map exec_module _) as [[m|]|]; [contradiction| |];
reflexivity.
- unfold _load_app_info.
intros -> -> -> ->. reflexivity.
- exact load_silent_iff.
Qed.

End LoadAppInfo.

Lemma unusable_descriptor_excludes_app_witness :
  let app_dir := mkPath Root1 ["opt"; "onex"; "apps"; "calculator"] in
  exists_ broken_apps_fs (truediv app_dir "app.json") = true
  /\ descriptor_unusable demo_json_load broken_apps_fs app_dir = true
  /\ _load_app_info demo_json_load demo_exec_module broken_apps_fs app_dir
     = (None, [DescriptorError "calculator"]).
Proof.
  cbv zeta. split; [reflexivity|]. split; [reflexivity|].
  exact (proj1 (proj1 (unusable_descriptor_excludes_app
                         demo_json_load demo_exec_module broken_apps_fs
                         (mkPath Root1 ["opt"; "onex"; "apps"; "calculator"]))
                      eq_refl eq_refl)).
Defined.

(** C6 as stated fails: the folder has a descriptor that does not parse
    and a working entry script, and the scan registers nothing for it. *)
Lemma broken_descriptor_not_registered :
  let app_dir := mkPath Root1 ["opt"; "onex"; "apps"; "calculator"] in
  exists_ broken_apps_fs (truediv app_dir "app.json") = true
  /\ demo_json_load broken_descriptor_text = None
  /\ exists_ broken_apps_fs (truediv app_dir "main.py") = true
  /\ scan_apps demo_json_load demo_exec_module demo_base demo_fs_root
               broken_apps_fs
     = Some (mkRegistry [] [], [DescriptorError "calculator"; Summary 0 0]).
Proof. cbv zeta. repeat split; vm_compute; reflexivity. Qed.

End ScanClaims.


Module ShellMarkerFacts.
Import PyStr PurePath HostFS HostIO Apps.

Lemma name_of_child (p : Path) (n : string) : PurePath.name (child p n) = n.
Proof. unfold PurePath.name, child; simpl. apply last_last. Qed.

(** Only a line that reaches the branch of the system marker changes the
    system flag. *)
Lemma sh_step_keeps_system (m : sh_meta) (line : string) :
  is_system_marker line = false ->
  sh_system_app (sh_step m line) = sh_system_app m.
Proof.
  unfold is_system_marker, sh_step. intros H.
  destruct (startswith (strip line) "# Name:"); [reflexivity|].
  destruct (startswith (strip line) "# Description:"); [reflexivity|].
  destruct (startswith (strip line) "# Version:"); [reflexivity|].
  destruct (startswith (strip line) "# Author:"); [reflexivity|].
  now rewrite H.
Qed.

Lemma sh_fold_keeps_system (lines : list string) :
  forallb (fun x => negb (is_system_marker x)) lines = true ->
  forall m, sh_system_app (fold_left sh_step lines m) = sh_system_app m.
Proof.
  induction lines as [|x lines IH]; intros H m; simpl; [reflexivity|].
  simpl in H. apply andb_true_iff in H as [Hx Hl].
  apply negb_true_iff in Hx.
  now rewrite (IH Hl), sh_step_keeps_system.
Qed.

Lemma sh_step_system_true (m : sh_meta) (line : string) :
  strip line = "# System: true" -> sh_system_app (sh_step m line) = true.
Proof. unfold sh_step. intros ->. reflexivity. Qed.

(** The flag is set when the last system marker among the lines read
    says true. *)
Lemma sh_scan_system_true (dir_name : string) (content pre post : list string)
      (l : string) :
  firstn 20 content = pre ++ l :: post ->
  strip l = "# System: true" ->
  forallb (fun x => negb (is_system_marker x)) post = true ->
  sh_system_app (sh_scan dir_name content) = true.
Proof.
  intros Hc Hl Hpost. unfold sh_scan. rewrite Hc, fold_left_app. simpl.
  rewrite (sh_fold_keeps_system _ Hpost). now apply sh_step_system_true.
Qed.

Lemma sh_step_name (m : sh_meta) (line : string) :
  sh_name (sh_step m line) = sh_name m
  \/ (is_name_marker line = true
      /\ sh_name (sh_step m line) = strip (slice_from 7 (strip line))).
Proof.
  unfold is_name_marker, sh_step.
  destruct (startswith (strip line) "# Name:"); [right; now split|].
  destruct (startswith (strip line) "# Description:"); [now left|].
  destruct (startswith (strip line) "# Version:"); [now left|].
  destruct (startswith (strip line) "# Author:"); [now left|].
  destruct (startswith (strip line) "# System:"); now left.
Qed.

Lemma sh_fold_name (dir_name : string) (lines : list string) :
  forall seen m,
    name_origin dir_name seen (sh_name m) ->
    name_origin dir_name (seen ++ lines) (sh_name (fold_left sh_step lines m)).
Proof.
  induction lines as [|x lines IH]; intros seen m Hm; simpl.
  - now rewrite app_nil_r.
  - replace (seen ++ x :: lines) with ((seen ++ [x]) ++ lines)
      by (now rewrite <- app_assoc).
    apply IH.
    destruct (sh_step_name m x) as [E|[Hx E]]; rewrite E.
    + destruct Hm as [Hm|(y & Hy & Hmy & Hn)]; [now left|].
      right. exists y. split; [apply in_or_app; now left | now split].
    + right. exists x. split; [apply in_or_app; right; now left | now split].
Qed.

Lemma sh_scan_name (dir_name : string) (content : list string) :
  name_origin dir_name (firstn 20 content) (sh_name (sh_scan dir_name content)).
Proof.
  unfold sh_scan.
  apply (@sh_fold_name dir_name (firstn 20 content) []
           (mkSh dir_name EmptyString "1.0.0" EmptyString false)).
  now left.
Qed.

End ShellMarkerFacts.

Module ScanScenario.
Import PyStr PurePath HostFS HostIO Apps Demo ShellMarkerFacts.

Section Scenario.
Variable json_load : string -> option descriptor.
Variable exec_module : string -> option module_attrs.
Variables (base_path fs_root : Path) (fs : filesystem).

#[local] Abbreviation scan_dir := (scan_app_dir json_load exec_module fs).

(** A folder with a usable descriptor is registered with the fields of
the descriptor. *)
Lemma scan_descriptor_folder (A : Path) (fa : file) (d : descriptor)
(acc : registry * list output) :
is_dir fs A = true ->
fs (truediv A "app.json") = Some (File fa) ->
readable fa = true ->
json_load (content fa) = Some d ->
exists info,
scan_dir acc A = (register (fst acc) info, snd acc ++ [])
/\ name info = get_or (d_name d) (PurePath.name A)
/\ path info = A
/\ system_app info = get_or (d_system_app d) false.
Proof.
intros Hd Hj Hr Hl. unfold scan_app_dir, _load_app_info.
rewrite Hd. unfold exists_, read_text. rewrite Hj, Hr. simpl.
rewrite Hl. eexists. split; [reflexivity|]. now repeat split.
Qed.

(** A folder with a readable shell entry script only is registered with
what the markers of the script say. *)
Lemma scan_shell_folder (B : Path) (fb : file)
(acc : registry * list output) :
is_dir fs B = true ->
exists_ fs (truediv B "app.json") = false ->
exists_ fs (truediv B "main.py") = false ->
fs (truediv B "main.sh") = Some (File fb) ->
readable fb = true ->
exists info,
scan_dir acc B = (register (fst acc) info, snd acc ++ [])
/\ name info
 = sh_name (sh_scan (PurePath.name B) (readlines (content fb)))
/\ path info = B
/\ app_type info = "sh"
/\ system_app info
 = sh_system_app (sh_scan (PurePath.name B) (readlines (content fb))).
Proof.
intros Hd Hj Hp Hs Hr. unfold scan_app_dir, _load_app_info.
rewrite Hd, Hj, Hp. unfold exists_, read_text. rewrite Hs, Hr.
eexists. split; [reflexivity|]. now repeat split.
Qed.

Lemma scan_no_system_scripts (dir : Path) (r : registry) :
no_system_scripts fs dir ->
(if exists_ fs dir
then option_map (fun l => fold_left (scan_system_item fs) l r)
             (iterdir fs dir)
else Some r) = Some r.
Proof.
unfold no_system_scripts, exists_, iterdir.
destruct (fs dir) as [[f|es]|]; [contradiction | | reflexivity].
intros H. simpl. f_equal.
induction H as [|n es Hn _ IH]; simpl; [reflexivity|].
unfold scan_system_item at 2. now rewrite Hn.
Qed.


End Scenario.


End ScanScenario.


(* ================================================================== *)
(** * What the filesystem actions leave untouched *)
(* ================================================================== *)

Module HostIOFacts.
Import PyStr PurePath HostFS HostIO Resolver.

Lemma anchor_eqb_eq (a b : anchor) : anchor_eqb a b = true <-> a = b.
Proof. destruct a, b; simpl; split; congruence. Qed.

Lemma segments_eqb_eq (l1 l2 : list string) :
  segments_eqb l1 l2 = true <-> l1 = l2.
Proof.
  revert l2. induction l1 as [|x l1 IH]; intros [|y l2]; simpl;
    try (split; congruence).
  rewrite andb_true_iff, String.eqb_eq, IH. split.
  - now intros [-> ->].
  - intros H; injection H as -> ->. now split.
Qed.

Lemma Path_eqb_eq (p q : Path) : Path_eqb p q = true <-> p = q.
Proof.
  unfold Path_eqb. rewrite andb_true_iff, anchor_eqb_eq, segments_eqb_eq.
  destruct p, q; simpl. split.
  - now intros [-> ->].
  - intros H; injection H as -> ->. now split.
Qed.

Lemma Path_eqb_refl (p : Path) : Path_eqb p p = true.
Proof. now apply Path_eqb_eq. Qed.

Lemma Path_eqb_neq (p q : Path) : Path_eqb p q = false <-> p <> q.
Proof.
  rewrite <- Path_eqb_eq. destruct (Path_eqb p q); split; congruence.
Qed.

Lemma fs_set_same (fs : filesystem) (p : Path) (n : node) :
  fs_set fs p n p = Some n.
Proof. unfold fs_set. now rewrite Path_eqb_refl. Qed.

Lemma fs_set_other (fs : filesystem) (p q : Path) (n : node) :
  q <> p -> fs_set fs p n q = fs q.
Proof. intros H. unfold fs_set. apply Path_eqb_neq in H. now rewrite H. Qed.

Lemma under_refl (d : Path) : under d d.
Proof. split; [reflexivity|]. exists []. now rewrite app_nil_r. Qed.

Lemma under_child (d p : Path) (n : string) : under d p -> under d (child p n).
Proof.
  intros [Hr [l Hl]]. split; [exact Hr|].
  exists (l ++ [n]). simpl. now rewrite Hl, app_assoc.
Qed.

Lemma under_trans (a b c : Path) : under a b -> under b c -> under a c.
Proof.
  intros [Hr1 [l1 H1]] [Hr2 [l2 H2]]. split; [congruence|].
  exists (l1 ++ l2). now rewrite H2, H1, app_assoc.
Qed.

Lemma parent_above (p : Path) : under (parent p) p.
Proof.
  unfold parent. destruct (segments p) as [|x l] eqn:E;
    [apply under_refl|].
  split; [reflexivity|]. simpl.
  exists [last (x :: l) x]. rewrite E. apply app_removelast_last. discriminate.
Qed.

(** The zone of a directory is closed under taking parents. *)
Lemma zone_parent (d q : Path) : zone d q -> zone d (parent q).
Proof.
  intros [Hdq|Hqd].
  - destruct Hdq as [Hr [l Hl]].
    destruct l as [|x l] using rev_ind.
    + right. apply under_trans with q; [apply parent_above|].
      split; [now symmetry|]. exists []. now rewrite Hl, !app_nil_r.
    + left. unfold parent. rewrite Hl.
      destruct (segments d ++ l ++ [x]) eqn:E.
      * apply app_eq_nil in E as [_ E]. apply app_eq_nil in E as [_ E].
        discriminate.
      * rewrite <- E. split; [exact Hr|]. exists l. simpl.
        now rewrite app_assoc, removelast_last.
  - right. apply under_trans with q; [apply parent_above | exact Hqd].
Qed.

Lemma apart_not_zone (a d q : Path) : apart a d -> under a q -> ~ zone d q.
Proof.
  intros [Had Hda] Haq [Hdq|Hqd].
  - destruct Haq as [Hr1 [l1 H1]], Hdq as [Hr2 [l2 H2]].
    rewrite H1 in H2. apply app_eq_app in H2 as [l [[Ha Hb]|[Ha Hb]]].
    + apply Hda. split; [congruence|]. now exists l.
    + apply Had. split; [congruence|]. now exists l.
  - apply Had. now apply under_trans with q.
Qed.

Section Invariant.
Variable Z : Path -> Prop.
Hypothesis Z_parent : forall p, Z p -> Z (parent p).
Variable fs0 : filesystem.
Variable B : Path -> Prop.

#[local] Abbreviation kept_apart := (kept_apart Z fs0 B).

Lemma kept_fs_set (fs : filesystem) (p : Path) (n : node) :
kept_apart fs -> Z p ->
~ B p \/ (exists es, n = Dir es) ->
kept_apart (fs_set fs p n).
Proof.
intros [Ha Hb] Hz Hn. split.
- intros q Hq. rewrite fs_set_other; [now apply Ha|].
  intros ->. contradiction.
- intros b Hbb. unfold not_a_file. destruct (Path_eqb b p) eqn:E.
  + apply Path_eqb_eq in E. subst p. rewrite fs_set_same.
    destruct Hn as [Hn|[es ->]]; [contradiction | exact I].
  + apply Path_eqb_neq in E. rewrite fs_set_other by exact E.
    now apply Hb.
Qed.

Lemma kept_link_entry (fs : filesystem) (p : Path) :
kept_apart fs -> Z p -> kept_apart (link_entry fs p).
Proof.
intros Hk Hz. unfold link_entry.
destruct (segments p); [exact Hk|].
destruct (fs (parent p)) as [[f|es]|]; try exact Hk.
destruct (existsb _ es); [exact Hk|].
apply kept_fs_set; [exact Hk | now apply Z_parent | right; now eexists].
Qed.

Lemma keeps_os_mkdir (p : Path) : Z p -> preserves kept_apart (os_mkdir p).
Proof.
intros Hz fs fs' r Hk. unfold os_mkdir.
destruct (fs (parent p)) as [[f|es]|];
  try (intros H; injection H as <- _; exact Hk).
destruct (fs p); intros H; injection H as <- _; [exact Hk|].
apply kept_link_entry; [|exact Hz].
apply kept_fs_set; [exact Hk | exact Hz | right; now eexists].
Qed.

Lemma keeps_mkdir_exist_ok (p : Path) :
Z p -> preserves kept_apart (mkdir_exist_ok p).
Proof.
intros Hz fs fs' r Hk. unfold mkdir_exist_ok.
destruct (os_mkdir p fs) as [fs1 [e|u]] eqn:E.
- destruct e; try destruct (is_dir fs p);
    intros H; injection H as <- _; exact Hk.
- intros H; injection H as <- _.
  exact (@keeps_os_mkdir p Hz fs fs1 (inr u) Hk E).
Qed.

Lemma keeps_bind (A C : Type) (m : io A) (k : A -> io C) :
preserves kept_apart m ->
(forall a, preserves kept_apart (k a)) ->
preserves kept_apart (bind m k).
Proof.
intros Hm Hk fs fs' r Hfs. unfold bind.
destruct (m fs) as [fs1 [e|a]] eqn:E.
- intros H; injection H as <- _. exact (Hm _ _ _ Hfs E).
- intros H. exact (Hk a _ _ _ (Hm _ _ _ Hfs E) H).
Qed.

Lemma keeps_ret (A : Type) (a : A) : preserves kept_apart (ret a).
Proof. intros fs fs' r Hk H; injection H as <- _; exact Hk. Qed.

Lemma keeps_read (A : Type) (f : filesystem -> A) :
preserves kept_apart (read f).
Proof. intros fs fs' r Hk H; injection H as <- _; exact Hk. Qed.

Lemma keeps_for_each (A : Type) (l : list A) (body : A -> io unit) :
(forall x, In x l -> preserves kept_apart (body x)) ->
preserves kept_apart (for_each l body).
Proof.
induction l as [|x l IH]; intros Hb; simpl; [apply keeps_ret|].
apply keeps_bind; [apply Hb; now left|].
intros _. apply IH. intros y Hy. apply Hb. now right.
Qed.

Lemma keeps_mkdir_parents_fuel (fuel : nat) :
forall p, Z p -> preserves kept_apart (mkdir_parents_fuel fuel p).
Proof.
induction fuel as [|fuel IH]; intros p Hz fs fs' r Hk; simpl.
- destruct (os_mkdir p fs) as [fs1 [e|u]] eqn:E.
  + destruct e; try destruct (is_dir fs p);
      intros H; injection H as <- _; exact Hk.
  + intros H; injection H as <- _.
    exact (@keeps_os_mkdir p Hz fs fs1 (inr u) Hk E).
- destruct (os_mkdir p fs) as [fs1 [e|u]] eqn:E.
  + destruct e; try (destruct (is_dir fs p);
                     intros H; injection H as <- _; exact Hk).
    destruct (Path_eqb (parent p) p);
      [intros H; injection H as <- _; exact Hk|].
    intros H. revert H. apply keeps_bind; [|intros _| exact Hk].
    * apply IH. now apply Z_parent.
    * now apply keeps_mkdir_exist_ok.
  + intros H; injection H as <- _.
    exact (@keeps_os_mkdir p Hz fs fs1 (inr u) Hk E).
Qed.

Lemma keeps_open_read (p : Path) : preserves kept_apart (open_read p).
Proof.
intros fs fs' r Hk. unfold open_read.
destruct (fs p) as [[f|es]|]; try destruct (readable f);
  intros H; injection H as <- _; exact Hk.
Qed.

Lemma keeps_read_open (p : Path) : preserves kept_apart (read_open p).
Proof.
intros fs fs' r Hk. unfold read_open.
destruct (fs p) as [[f|es]|]; intros H; injection H as <- _; exact Hk.
Qed.

Lemma keeps_open_write (p : Path) :
Z p -> ~ B p -> preserves kept_apart (open_write p).
Proof.
intros Hz Hb fs fs' r Hk. unfold open_write.
destruct (fs (parent p)) as [[f|es]|];
  try (intros H; injection H as <- _; exact Hk).
destruct (fs p) as [[f|es']|]; intros H; injection H as <- _;
  [|exact Hk|].
- apply kept_fs_set; auto.
- apply kept_link_entry; [|exact Hz]. apply kept_fs_set; auto.
Qed.

Lemma keeps_write_open (p : Path) (text : string) :
Z p -> ~ B p -> preserves kept_apart (write_open p text).
Proof.
intros Hz Hb fs fs' r Hk. unfold write_open.
destruct (fs p) as [[f|es]|]; intros H; injection H as <- _;
  try exact Hk.
apply kept_fs_set; auto.
Qed.

Lemma keeps_chmod_755 (p : Path) :
Z p -> ~ B p -> preserves kept_apart (chmod_755 p).
Proof.
intros Hz Hb fs fs' r Hk. unfold chmod_755.
destruct (fs p) as [[f|es]|]; intros H; injection H as <- _;
  try exact Hk.
apply kept_fs_set; auto.
Qed.

End Invariant.

End HostIOFacts.


(* ================================================================== *)
(** * Installing, then scanning again *)
(* ================================================================== *)

Module InstallFacts.
Import PyStr PurePath HostFS HostIO Resolver Apps PathFacts HostIOFacts
       ShellMarkerFacts.

Lemma truediv_child (p : Path) (n : string) :
  plain_segment n -> truediv p n = child p n.
Proof. intros H. now rewrite truediv_plain. Qed.

Lemma plain_app_json : plain_segment "app.json".
Proof. repeat split; discriminate. Qed.

Lemma plain_main_py : plain_segment "main.py".
Proof. repeat split; discriminate. Qed.

Lemma plain_main_sh : plain_segment "main.sh".
Proof. repeat split; discriminate. Qed.

Lemma child_neq (p : Path) (n : string) : child p n <> p.
Proof.
  intros H. apply (f_equal (fun q => List.length (segments q))) in H.
  simpl in H. rewrite length_app in H. simpl in H. lia.
Qed.

Lemma child_inj (p q : Path) (n m : string) :
  child p n = child q m -> segments p = segments q /\ n = m.
Proof.
  unfold child. intros H. injection H as _ H.
  now apply app_inj_tail in H.
Qed.

Section Directories.
Variables (base_path fs_root : Path).

#[local] Abbreviation appsd := (apps_dir base_path).
#[local] Abbreviation vdir := (virtual_apps_dir fs_root).
#[local] Abbreviation bin := (system_apps_dir fs_root).
#[local] Abbreviation Z := (install_zone fs_root).

Lemma apps_dir_eq : appsd = child base_path "apps".
Proof. apply truediv_child. repeat split; discriminate. Qed.

Lemma virtual_apps_dir_eq : vdir = child (child fs_root "usr") "apps".
Proof.
unfold virtual_apps_dir.
rewrite !truediv_child; [reflexivity | |]; repeat split; discriminate.
Qed.

Lemma system_apps_dir_eq : bin = child fs_root "bin".
Proof. apply truediv_child. repeat split; discriminate. Qed.

Lemma zone_closed (p : Path) : Z p -> Z (parent p).
Proof. intros [H|H]; [left | right]; now apply zone_parent. Qed.

Lemma zone_under_vdir (p : Path) : under vdir p -> Z p.
Proof. intros H. left. now left. Qed.

Lemma zone_under_bin (p : Path) : under bin p -> Z p.
Proof. intros H. right. now left. Qed.

Lemma below_vdir_not_bin (p : Path) (n : string) :
under vdir p -> child p n <> bin.
Proof.
rewrite virtual_apps_dir_eq, system_apps_dir_eq.
intros [_ [l Hl]] H. apply (f_equal segments) in H. simpl in H, Hl.
rewrite Hl, <- !app_assoc in H. apply app_inv_head in H.
simpl in H. destruct l; discriminate.
Qed.

Lemma apart_outside (q : Path) :
apart appsd vdir -> apart appsd bin -> under appsd q -> ~ Z q.
Proof.
intros Hv Hb Hq [H|H]; revert H; now apply apart_not_zone with appsd.
Qed.

End Directories.

Section InstallSteps.
Variable python : string.
Variable fs_root : Path.
Variable Z : Path -> Prop.
Hypothesis Z_parent : forall p, Z p -> Z (parent p).
Variable fs0 : filesystem.
Variable B : Path -> Prop.

#[local] Abbreviation vdir := (virtual_apps_dir fs_root).
#[local] Abbreviation bin := (system_apps_dir fs_root).
#[local] Abbreviation kept := (kept_apart Z fs0 B).

Lemma keeps_copy_file (item dest : Path) :
Z dest -> ~ B dest -> preserves kept (copy_file item dest).
Proof.
intros Hz Hb. unfold copy_file.
apply keeps_bind; [apply keeps_open_read | intros _].
apply keeps_bind; [now apply keeps_open_write | intros _].
apply keeps_bind; [apply keeps_read_open | intros data].
now apply keeps_write_open.
Qed.

Lemma keeps_install_item (dest_dir item : Path) :
plain_segment (PurePath.name item) ->
Z (child dest_dir (PurePath.name item)) ->
~ B (child dest_dir (PurePath.name item)) ->
preserves kept (install_item dest_dir item).
Proof.
intros Hn Hz Hb. unfold install_item.
rewrite (truediv_child _ Hn).
apply keeps_bind; [apply keeps_read | intros [|]; [|apply keeps_ret]].
apply keeps_bind; [now apply keeps_copy_file | intros _].
apply keeps_bind; [apply keeps_read | intros [|]; [|apply keeps_ret]].
now apply keeps_chmod_755.
Qed.

(** Installing one user application keeps [Z] apart, when the folder of
  the application lies outside [Z] and lists plain names, and what the
  step writes lies in [Z]. *)
Lemma keeps_install_user_app (entry : string * AppInfo) :
plain_segment (fst entry) ->
~ Z (path (snd entry)) ->
(forall es, fs0 (path (snd entry)) = Some (Dir es) ->
            Forall plain_segment es) ->
Z (child vdir (fst entry)) ->
(forall n, plain_segment n ->
           Z (child (child vdir (fst entry)) n)
           /\ ~ B (child (child vdir (fst entry)) n)) ->
preserves kept (install_user_app fs_root entry).
Proof.
intros Hn Hp Hplain Hzd Hzc fs fs' r Hk. unfold install_user_app.
rewrite (truediv_child _ Hn).
unfold bind at 1.
destruct (mkdir_exist_ok (child vdir (fst entry)) fs) as [fs1 [e|u]] eqn:E.
- intros H; injection H as <- _.
  exact (@keeps_mkdir_exist_ok Z Z_parent fs0 B _ Hzd fs fs1 (inl e) Hk E).
- assert (Hk1 : kept fs1)
    by exact (@keeps_mkdir_exist_ok Z Z_parent fs0 B _ Hzd
                fs fs1 (inr u) Hk E).
  unfold bind, read. intros H. revert H.
  apply keeps_for_each; [|exact Hk1].
  intros item Hitem.
  unfold glob_all, iterdir in Hitem.
  destruct Hk1 as [Hagree _]. rewrite (Hagree _ Hp) in Hitem.
  destruct (fs0 (path (snd entry))) as [[f|es]|] eqn:E0;
    try contradiction.
  apply in_map_iff in Hitem as (n & <- & Hin).
  pose proof (Hplain es eq_refl) as Hes.
  rewrite Forall_forall in Hes.
  apply keeps_install_item; rewrite name_of_child;
    [now apply Hes | apply Hzc | apply Hzc]; now apply Hes.
Qed.

Lemma keeps_install_system_app (entry : string * AppInfo) :
plain_segment (fst entry) ->
Z (child bin (fst entry)) ->
~ B (child bin (fst entry)) ->
preserves kept (install_system_app python fs_root entry).
Proof.
intros Hn Hz Hb. unfold install_system_app.
destruct (negb (system_app (snd entry))); [apply keeps_ret|].
rewrite (truediv_child _ Hn).
apply keeps_bind; [apply keeps_read | intros [|]; [apply keeps_ret|]].
apply keeps_bind; [now apply keeps_open_write | intros _].
apply keeps_bind; [now apply keeps_write_open | intros _].
now apply keeps_chmod_755.
Qed.

End InstallSteps.

Section Install.
Variable python : string.
Variables (base_path fs_root : Path).
Variable fs0 : filesystem.

#[local] Abbreviation appsd := (apps_dir base_path).
#[local] Abbreviation vdir := (virtual_apps_dir fs_root).
#[local] Abbreviation bin := (system_apps_dir fs_root).
#[local] Abbreviation Z := (install_zone fs_root).
#[local] Abbreviation kept := (kept_apart Z fs0 (eq bin)).

Hypothesis fs0_plain : listings_plain fs0.

Lemma user_app_targets (name : string) :
Z (child vdir name)
/\ forall n, Z (child (child vdir name) n)
             /\ bin <> child (child vdir name) n.
Proof.
assert (Hd : under vdir (child vdir name))
  by apply under_child, under_refl.
split; [now apply zone_under_vdir|]. intros n. split.
- apply zone_under_vdir. now apply under_child.
- apply not_eq_sym. now apply below_vdir_not_bin.
Qed.

Lemma system_app_targets (name : string) :
Z (child bin name) /\ bin <> child bin name.
Proof.
split; [apply zone_under_bin, under_child, under_refl|].
apply not_eq_sym, child_neq.
Qed.

(** The installation changes nothing outside its zone and does not turn
  the directory of system binaries into a file. *)
Lemma install_keeps_apart (r : registry) (fs' : filesystem) (ok : bool) :
names_plain (apps r) -> names_plain (system_apps r) ->
Forall (fun e => ~ Z (path (snd e))) (apps r) ->
not_a_file fs0 bin ->
install_app_to_virtual_fs python fs_root r fs0 = (fs', ok) ->
kept fs'.
Proof.
intros Hna Hns Hpaths Hbin. unfold install_app_to_virtual_fs.
assert (H0 : kept fs0) by (split; [now intros q _ | now intros b <-]).
assert (Hall : preserves kept
          (bind (mkdir_parents vdir) (fun _ =>
           bind (mkdir_parents bin) (fun _ =>
           bind (for_each (apps r) (install_user_app fs_root)) (fun _ =>
           for_each (system_apps r)
                    (install_system_app python fs_root)))))).
{ apply keeps_bind.
  { apply keeps_mkdir_parents_fuel; [apply zone_closed|].
    apply zone_under_vdir, under_refl. }
  intros _. apply keeps_bind.
  { apply keeps_mkdir_parents_fuel; [apply zone_closed|].
    apply zone_under_bin, under_refl. }
  intros _. apply keeps_bind.
  { apply keeps_for_each. intros e He.
    unfold names_plain in Hna. rewrite Forall_forall in Hna, Hpaths.
    apply keeps_install_user_app; auto using zone_closed.
    - intros es. apply fs0_plain.
    - apply user_app_targets.
    - intros n _. apply user_app_targets. }
  intros _. apply keeps_for_each. intros e He.
  unfold names_plain in Hns. rewrite Forall_forall in Hns.
  apply keeps_install_system_app; auto using zone_closed;
    apply system_app_targets. }
destruct (bind _ _ fs0) as [fs1 [e|u]] eqn:E;
  intros H; injection H as <- _; exact (Hall _ _ _ H0 E).
Qed.

End Install.

End InstallFacts.


Module RescanFacts.
Import PyStr PurePath HostFS HostIO Resolver Apps PathFacts HostIOFacts
       ShellMarkerFacts InstallFacts.

Section Scan.
Variable json_load : string -> option descriptor.
Variable exec_module : string -> option module_attrs.
Variables (base_path fs_root : Path).

#[local] Abbreviation appsd := (apps_dir base_path).
#[local] Abbreviation bin := (system_apps_dir fs_root).
#[local] Abbreviation scan_dir := (scan_app_dir json_load exec_module).
#[local] Abbreviation scan := (scan_apps json_load exec_module base_path fs_root).
#[local] Abbreviation from_apps_dir := (Apps.from_apps_dir base_path).

(** What the scan of one folder reads lies in that folder. *)
Lemma scan_app_dir_agree (fs fs' : filesystem) (A : Path)
    (acc : registry * list output) :
(forall q, under A q -> fs' q = fs q) ->
scan_dir fs' acc A = scan_dir fs acc A.
Proof.
intros Hag.
assert (HA : fs' A = fs A) by apply Hag, under_refl.
assert (Hc : forall n, plain_segment n ->
                       fs' (truediv A n) = fs (truediv A n)).
{ intros n Hn. rewrite (truediv_child _ Hn).
  apply Hag, under_child, under_refl. }
pose proof (Hc _ plain_app_json) as Hj.
pose proof (Hc _ plain_main_py) as Hp.
pose proof (Hc _ plain_main_sh) as Hs.
unfold scan_app_dir, _load_app_info, is_dir, exists_, read_text.
now rewrite HA, Hj, Hp, Hs.
Qed.

Lemma scan_fold_agree (fs fs' : filesystem) (es : list string) :
(forall q, under appsd q -> fs' q = fs q) ->
forall acc,
  fold_left (scan_dir fs') (map (child appsd) es) acc
  = fold_left (scan_dir fs) (map (child appsd) es) acc.
Proof.
intros Hag. induction es as [|n es IH]; intros acc; simpl; [reflexivity|].
rewrite IH. f_equal. apply scan_app_dir_agree.
intros q Hq. apply Hag. apply under_trans with (child appsd n); [|exact Hq].
apply under_child, under_refl.
Qed.

Lemma scan_system_item_apps (fs : filesystem) (r : registry) (item : Path) :
apps (scan_system_item fs r item) = apps r.
Proof. unfold scan_system_item. now destruct (is_system_script fs item). Qed.

Lemma scan_system_fold_apps (fs : filesystem) (l : list Path) :
forall r, apps (fold_left (scan_system_item fs) l r) = apps r.
Proof.
induction l as [|x l IH]; intros r; simpl; [reflexivity|].
now rewrite IH, scan_system_item_apps.
Qed.

Lemma dict_set_Forall (P : string * AppInfo -> Prop) (d : dict)
    (k : string) (v : AppInfo) :
Forall P d -> P (k, v) -> Forall P (dict_set d k v).
Proof.
intros Hd Hv. induction Hd as [|[k' v'] d Hx Hd IH]; simpl.
- now constructor.
- destruct (String.eqb k k'); constructor; auto.
Qed.

Lemma load_app_info_path (fs : filesystem) (A : Path) (info : AppInfo)
    (out : list output) :
_load_app_info json_load exec_module fs A = (Some info, out) ->
path info = A.
Proof.
unfold _load_app_info.
destruct (exists_ fs (truediv A "app.json")).
{ destruct (option_map json_load _) as [[data|]|];
    intros H; inversion H; reflexivity. }
destruct (exists_ fs (truediv A "main.py")).
{ destruct (option_map exec_module _) as [[m|]|];
    intros H; inversion H; reflexivity. }
destruct (exists_ fs (truediv A "main.sh")); [|discriminate].
destruct (read_text fs _); intros H; inversion H; reflexivity.
Qed.

Lemma scan_dir_from_apps_dir (fs : filesystem) (n : string)
    (acc : registry * list output) :
from_apps_dir (apps (fst acc)) ->
from_apps_dir (apps (fst (scan_dir fs acc (child appsd n)))).
Proof.
intros Hacc. unfold scan_app_dir.
destruct (is_dir fs (child appsd n)); [|exact Hacc].
destruct (_load_app_info json_load exec_module fs (child appsd n))
  as [[info|] out] eqn:E; [|exact Hacc].
apply load_app_info_path in E. simpl. unfold register.
destruct (negb (system_app info)); simpl; [|exact Hacc].
apply dict_set_Forall; [exact Hacc|]. simpl. now exists n.
Qed.

Lemma scan_fold_from_apps_dir (fs : filesystem) (es : list string) :
forall acc,
  from_apps_dir (apps (fst acc)) ->
  from_apps_dir
    (apps (fst (fold_left (scan_dir fs) (map (child appsd) es) acc))).
Proof.
induction es as [|n es IH]; intros acc Hacc; simpl; [exact Hacc|].
apply IH. now apply scan_dir_from_apps_dir.
Qed.

(** The shape of a scan that returns: the user namespace is what the
  folders of the applications directory gave, and the directory of
  system binaries was not a file. *)
Lemma scan_returns (fs : filesystem) (r : registry) (out : list output) :
scan fs = Some (r, out) ->
not_a_file fs bin
/\ from_apps_dir (apps r)
/\ exists start,
    (if exists_ fs appsd
     then option_map (fun l => fold_left (scan_dir fs) l
                                         (mkRegistry [] [], []))
                     (iterdir fs appsd)
     else Some (mkRegistry [] [], [])) = Some start
    /\ apps r = apps (fst start).
Proof.
unfold scan_apps.
destruct (if exists_ fs appsd then _ else _) as [[r1 out1]|] eqn:E1;
  [|discriminate].
assert (Hfrom : from_apps_dir (apps r1)).
{ destruct (exists_ fs appsd).
  - unfold iterdir in E1. destruct (fs appsd) as [[f|es]|]; try discriminate.
    simpl in E1. injection E1 as E1.
    pose proof (@scan_fold_from_apps_dir fs es (mkRegistry [] [], [])
                  (Forall_nil _)) as H.
    now rewrite E1 in H.
  - injection E1 as <- _. constructor. }
unfold exists_ at 1, iterdir, not_a_file.
destruct (fs bin) as [[f|es]|]; simpl; try discriminate.
- intros H; injection H as <- _. rewrite scan_system_fold_apps.
  split; [exact I|]. split; [exact Hfrom|]. now exists (r1, out1).
- intros H; injection H as <- _.
  split; [exact I|]. split; [exact Hfrom|]. now exists (r1, out1).
Qed.

(** A filesystem that agrees with [fs] below the applications directory,
  and in which the directory of system binaries is not a file, scans
  to the same user namespace. *)
Lemma rescan_same_apps (fs fs' : filesystem) (r : registry)
    (out : list output) :
scan fs = Some (r, out) ->
(forall q, under appsd q -> fs' q = fs q) ->
not_a_file fs' bin ->
exists r' out', scan fs' = Some (r', out') /\ apps r' = apps r.
Proof.
intros Hscan Hag Hbin.
destruct (scan_returns _ Hscan) as (_ & _ & [r1 out1] & E1 & Hr).
assert (E1' : (if exists_ fs' appsd
               then option_map (fun l => fold_left (scan_dir fs') l
                                                   (mkRegistry [] [], []))
                               (iterdir fs' appsd)
               else Some (mkRegistry [] [], [])) = Some (r1, out1)).
{ rewrite <- E1. unfold exists_, iterdir.
  rewrite (Hag appsd (under_refl _)).
  destruct (fs appsd) as [[f|es]|]; try reflexivity.
  simpl. f_equal. now apply scan_fold_agree. }
unfold scan_apps. rewrite E1'.
unfold exists_ at 1, iterdir. unfold not_a_file in Hbin.
destruct (fs' bin) as [[f|es]|]; [contradiction | |]; simpl.
- eexists _, _. split; [reflexivity|].
  now rewrite scan_system_fold_apps, Hr.
- eexists _, _. split; [reflexivity | now rewrite Hr].
Qed.

End Scan.

End RescanFacts.


Module RoundtripFacts.
Import PyStr PurePath HostFS HostIO Resolver Apps Demo PathFacts HostIOFacts
       InstallFacts RescanFacts.

Lemma dict_get_In (d : dict) (k : string) (v : AppInfo) :
  dict_get d k = Some v -> In (k, v) d.
Proof.
  induction d as [|[k' v'] d IH]; simpl; [discriminate|].
  destruct (String.eqb_spec k k') as [->|Hne].
  - intros H; injection H as ->. now left.
  - intros H. right. now apply IH.
Qed.

Lemma table_plain_listings (t : list (Path * node)) :
  table_listings_plain t = true -> listings_plain (fs_of_table t).
Proof.
  unfold table_listings_plain, listings_plain.
  induction t as [|[q n] t IH]; simpl; [discriminate|].
  intros H p es. apply andb_true_iff in H as [Hn Ht].
  destruct (Path_eqb p q).
  - intros E; injection E as ->. now apply CdNormalForm.forallb_plain.
  - now apply IH.
Qed.

End RoundtripFacts.


(* ================================================================== *)
(** * What the installation leaves in the virtual filesystem *)
(* ================================================================== *)

Module CopyFacts.
Import PyStr PurePath HostFS HostIO Resolver Apps PathFacts HostIOFacts
       ShellMarkerFacts InstallFacts.

Lemma parent_child (p : Path) (n : string) : parent (child p n) = p.
Proof.
  unfold parent, child; simpl.
  destruct (segments p ++ [n]) eqn:E.
  - now apply app_eq_nil in E as [_ E].
  - rewrite <- E, removelast_last. now destruct p.
Qed.

Lemma link_entry_other (fs : filesystem) (p q : Path) :
  q <> parent p -> link_entry fs p q = fs q.
Proof.
  intros H. unfold link_entry. destruct (segments p); [reflexivity|].
  destruct (fs (parent p)) as [[f|es]|]; try reflexivity.
  destruct (existsb _ es); [reflexivity|]. now apply fs_set_other.
Qed.

(** Opening a file for writing, when it succeeds, leaves an empty regular
    file there and touches nothing but it and the listing of its
    directory. *)
Lemma open_write_ok (fs fs1 : filesystem) (dir : Path) (n : string) :
  open_write (child dir n) fs = (fs1, inr tt) ->
  (exists g, fs1 (child dir n) = Some (File g) /\ content g = EmptyString)
  /\ forall q, q <> child dir n -> q <> dir -> fs1 q = fs q.
Proof.
  unfold open_write. rewrite parent_child.
  destruct (fs dir) as [[f|es]|]; try discriminate.
  destruct (fs (child dir n)) as [[g0|es0]|] eqn:E; try discriminate;
    intros H; injection H as <-.
  - split.
    + rewrite fs_set_same. now eexists.
    + intros q Hq _. now apply fs_set_other.
  - split.
    + rewrite link_entry_other, fs_set_same;
        [now eexists | rewrite parent_child; apply child_neq].
    + intros q Hq Hd. rewrite link_entry_other, fs_set_other;
        [reflexivity | exact Hq | now rewrite parent_child].
Qed.

Lemma write_open_ok (fs : filesystem) (p : Path) (g : file) (text : string) :
  fs p = Some (File g) ->
  write_open p text fs
  = (fs_set fs p (File (mkFile text (readable g) (executable g))), inr tt).
Proof. intros H. unfold write_open. now rewrite H. Qed.

Lemma chmod_755_ok (fs : filesystem) (p : Path) (g : file) :
  fs p = Some (File g) ->
  chmod_755 p fs = (fs_set fs p (File (mkFile (content g) true true)), inr tt).
Proof. intros H. unfold chmod_755. now rewrite H. Qed.

(** A copy step that succeeds on a regular file leaves a copy of it. *)
Lemma install_item_copies (fs fs' : filesystem) (dest_dir item : Path)
      (f : file) :
  plain_segment (PurePath.name item) ->
  fs item = Some (File f) ->
  item <> child dest_dir (PurePath.name item) ->
  item <> dest_dir ->
  install_item dest_dir item fs = (fs', inr tt) ->
  copied (child dest_dir (PurePath.name item)) f fs'.
Proof.
  intros Hn Hf Hne Hnd. unfold install_item.
  rewrite (truediv_child _ Hn).
  set (dest := child dest_dir (PurePath.name item)) in *.
  unfold bind at 1, read at 1, is_file. rewrite Hf.
  unfold bind at 1, copy_file.
  unfold bind at 1, open_read at 1. rewrite Hf.
  destruct (readable f); [|discriminate].
  unfold bind at 1.
  destruct (open_write dest fs) as [fs1 [e|[]]] eqn:Eo; [discriminate|].
  destruct (@open_write_ok fs fs1 dest_dir (PurePath.name item) Eo)
    as [[g1 [Hg1 Hc1]] Hfr1].
  assert (Hitem1 : fs1 item = Some (File f))
    by (rewrite Hfr1; [exact Hf | exact Hne | exact Hnd]).
  unfold bind at 1, read_open at 1. rewrite Hitem1.
  rewrite (@write_open_ok fs1 dest g1 (content f) Hg1).
  set (fs2 := fs_set fs1 dest _).
  assert (Hitem2 : fs2 item = Some (File f))
    by (unfold fs2; rewrite fs_set_other; [exact Hitem1 | exact Hne]).
  assert (Hdest2 : fs2 dest
                   = Some (File (mkFile (content f) (readable g1)
                                        (executable g1))))
    by (unfold fs2; apply fs_set_same).
  unfold bind at 1, read at 1, access_x. rewrite Hitem2.
  destruct (executable f) eqn:Ex.
  - rewrite (@chmod_755_ok fs2 dest _ Hdest2). intros H; injection H as <-.
    eexists. rewrite fs_set_same. split; [reflexivity|]. now split.
  - intros H; injection H as <-.
    eexists. split; [exact Hdest2|]. split; [reflexivity | congruence].
Qed.

Lemma bind_ok (A C : Type) (m : io A) (k : A -> io C) (fs fs' : filesystem)
      (c : C) :
  bind m k fs = (fs', inr c) ->
  exists fs1 a, m fs = (fs1, inr a) /\ k a fs1 = (fs', inr c).
Proof.
  unfold bind. destruct (m fs) as [fs1 [e|a]]; [discriminate|].
  intros H. now exists fs1, a.
Qed.

Lemma except_below_parent (d : Path) (Z : Path -> Prop) :
  (forall p, Z p -> Z (parent p)) ->
  forall p, except_below d Z p -> except_below d Z (parent p).
Proof.
  intros HZ p [Hz Hu]. split; [now apply HZ|].
  intros H. apply Hu. apply under_trans with (parent p); [exact H|].
  apply parent_above.
Qed.

(** What is kept apart from the rest of a zone and from everything below
    [d] still holds at [d] what it held. *)
Lemma kept_except_below (d : Path) (Z : Path -> Prop) (fs fs' : filesystem)
      (f : file) :
  kept_apart (except_below d Z) fs nothing fs' ->
  copied d f fs -> copied d f fs'.
Proof.
  intros [Hag _] (g & Hg & Hc). exists g. split; [|exact Hc].
  rewrite Hag; [exact Hg|]. intros [_ Hn]. apply Hn, under_refl.
Qed.

Lemma kept_refl (Z : Path -> Prop) (fs : filesystem) :
  kept_apart Z fs nothing fs.
Proof. split; [now intros q _ | intros b []]. Qed.

Lemma sibling_not_under (dir : Path) (n m : string) :
  m <> n -> ~ under (child dir n) (child dir m).
Proof.
  intros Hne [_ [l Hl]]. simpl in Hl. rewrite <- app_assoc in Hl.
  apply app_inv_head in Hl. simpl in Hl. injection Hl as Hl _. congruence.
Qed.

Lemma under_child_inv (q p : Path) (n : string) :
  under q (child p n) -> q = child p n \/ under q p.
Proof.
  intros [Hr [l Hl]]. simpl in Hr, Hl.
  destruct l as [|x l] using rev_ind.
  - left. rewrite app_nil_r in Hl. destruct q; simpl in *. now subst.
  - right. rewrite app_assoc in Hl. apply app_inj_tail in Hl as [Hl _].
    split; [exact Hr|]. now exists l.
Qed.

Section CopyItems.
Variables (dest_dir p : Path).

#[local] Abbreviation Zdir := (zone dest_dir).

Hypothesis sources_outside : forall n, ~ Zdir (child p n).

Lemma zone_dir_parent (q : Path) : Zdir q -> Zdir (parent q).
Proof. apply zone_parent. Qed.

(** Copying the other entries of a folder leaves the copy of the entry
  [n] as it is. *)
Lemma install_items_keep_copy (n : string) (f : file) (ns : list string)
    (fs fs' : filesystem) (r : exn + unit) :
~ In n ns -> Forall plain_segment ns ->
copied (child dest_dir n) f fs ->
for_each (map (child p) ns) (install_item dest_dir) fs = (fs', r) ->
copied (child dest_dir n) f fs'.
Proof.
intros Hnin Hplain Hc Hrun.
apply (@kept_except_below (child dest_dir n) Zdir fs fs' f); [|exact Hc].
revert Hrun. apply keeps_for_each; [|apply kept_refl].
intros item Hitem. apply in_map_iff in Hitem as (m & <- & Hm).
rewrite Forall_forall in Hplain.
apply keeps_install_item; rewrite ?name_of_child.
- apply except_below_parent, zone_dir_parent.
- now apply Hplain.
- split; [left; apply under_child, under_refl|].
  apply sibling_not_under. intros ->. contradiction.
- intros [].
Qed.

(** When the copy steps of a folder all succeed, every regular file of
  the folder has its copy. *)
Lemma install_items_copy (ns : list string) :
Forall plain_segment ns ->
forall fs0 fs fs',
  kept_apart Zdir fs0 nothing fs ->
  for_each (map (child p) ns) (install_item dest_dir) fs = (fs', inr tt) ->
  kept_apart Zdir fs0 nothing fs'
  /\ forall n f,
      In n ns -> fs0 (child p n) = Some (File f) ->
      copied (child dest_dir n) f fs'.
Proof.
induction 1 as [|m ns Hm Hns IH]; intros fs0 fs fs' Hk Hrun.
- simpl in Hrun. injection Hrun as <-. split; [exact Hk|]. intros n f [].
- simpl in Hrun. apply bind_ok in Hrun as (fs1 & [] & Hstep & Hrest).
  assert (Hk1 : kept_apart Zdir fs0 nothing fs1).
  { revert Hstep. apply keeps_install_item; rewrite ?name_of_child;
      [apply zone_dir_parent | exact Hm | | intros [] | exact Hk].
    left. apply under_child, under_refl. }
  destruct (IH fs0 fs1 fs' Hk1 Hrest) as [Hk' Hcopies].
  split; [exact Hk'|]. intros n f Hin Hf.
  destruct (in_dec string_dec n ns) as [Hn|Hn]; [now apply Hcopies|].
  destruct Hin as [<-|Hin]; [|contradiction].
  apply (@install_items_keep_copy m f ns fs1 fs' (inr tt) Hn Hns);
    [|exact Hrest].
  assert (Hsrc : fs (child p m) = Some (File f))
    by (destruct Hk as [Hag _]; rewrite Hag; [exact Hf|];
        apply sources_outside).
  pose proof (@install_item_copies fs fs1 dest_dir (child p m) f) as Hcp.
  rewrite name_of_child in Hcp. apply Hcp; [exact Hm | exact Hsrc | | |
                                            exact Hstep].
  + intros E. apply (@sources_outside m). rewrite E.
    left. apply under_child, under_refl.
  + intros E. apply (@sources_outside m). rewrite E.
    left. apply under_refl.
Qed.

End CopyItems.

End CopyFacts.


Module InstallCopies.
Import PyStr PurePath HostFS HostIO Resolver Apps PathFacts HostIOFacts
       ShellMarkerFacts InstallFacts RescanFacts CopyFacts.

Lemma preserves_for_each (I : filesystem -> Prop) (A : Type) (l : list A)
      (body : A -> io unit) :
  (forall x, In x l -> preserves I (body x)) ->
  preserves I (for_each l body).
Proof.
  induction l as [|x l IH]; intros Hb fs fs' r Hi; simpl.
  - intros H; injection H as <- _. exact Hi.
  - unfold bind. destruct (body x fs) as [fs1 [e|u]] eqn:E.
    + intros H; injection H as <- _. apply (Hb x (or_introl eq_refl) _ _ _ Hi E).
    + apply IH; [intros y Hy; apply Hb; now right|].
      apply (Hb x (or_introl eq_refl) _ _ _ Hi E).
Qed.

(** The keys of a dictionary stay distinct under assignment. *)
Lemma dict_set_keys (d : dict) (k x : string) (v : AppInfo) :
  In x (map fst (dict_set d k v)) -> x = k \/ In x (map fst d).
Proof.
  induction d as [|[k' v'] d IH]; simpl.
  - intros [<-|[]]. now left.
  - destruct (String.eqb_spec k k') as [->|Hne]; simpl.
    + intros [<-|H]; auto.
    + intros [<-|H]; [auto|]. destruct (IH H); auto.
Qed.

Lemma dict_set_nodup (d : dict) (k : string) (v : AppInfo) :
  NoDup (map fst d) -> NoDup (map fst (dict_set d k v)).
Proof.
  induction d as [|[k' v'] d IH]; simpl; intros Hd.
  - constructor; [intros [] | constructor].
  - inversion Hd as [|? ? Hnin Hd']; subst.
    destruct (String.eqb_spec k k') as [->|Hne]; simpl.
    + now constructor.
    + constructor; [|now apply IH].
      intros H. apply dict_set_keys in H as [->|H]; [congruence | contradiction].
Qed.

Section Keys.
Variable json_load : string -> option descriptor.
Variable exec_module : string -> option module_attrs.
Variables (base_path fs_root : Path).

#[local] Abbreviation appsd := (apps_dir base_path).
#[local] Abbreviation scan_dir := (scan_app_dir json_load exec_module).

Lemma scan_dir_nodup (fs : filesystem) (A : Path)
    (acc : registry * list output) :
NoDup (map fst (apps (fst acc))) ->
NoDup (map fst (apps (fst (scan_dir fs acc A)))).
Proof.
intros Hacc. unfold scan_app_dir.
destruct (is_dir fs A); [|exact Hacc].
destruct (_load_app_info json_load exec_module fs A) as [[info|] out];
  [|exact Hacc].
simpl. unfold register. destruct (negb (system_app info)); simpl;
  [now apply dict_set_nodup | exact Hacc].
Qed.

Lemma scan_fold_nodup (fs : filesystem) (l : list Path) :
forall acc,
  NoDup (map fst (apps (fst acc))) ->
  NoDup (map fst (apps (fst (fold_left (scan_dir fs) l acc)))).
Proof.
induction l as [|A l IH]; intros acc Hacc; simpl; [exact Hacc|].
apply IH. now apply scan_dir_nodup.
Qed.

(** The user namespace of a scan files each name once. *)
Lemma scan_apps_nodup (fs : filesystem) (r : registry) (out : list output) :
scan_apps json_load exec_module base_path fs_root fs = Some (r, out) ->
NoDup (map fst (apps r)).
Proof.
intros Hscan.
destruct (@scan_returns json_load exec_module base_path fs_root fs r out
            Hscan) as (_ & _ & [r1 out1] & E & ->).
destruct (exists_ fs appsd).
- destruct (iterdir fs appsd) as [l|]; [|discriminate].
  simpl in E. injection E as E.
  pose proof (@scan_fold_nodup fs l (mkRegistry [] [], [])) as H.
  rewrite E in H. apply H. constructor.
- injection E as <- _. constructor.
Qed.

End Keys.

End InstallCopies.


Module InstallPost.
Import PyStr PurePath HostFS HostIO Resolver Apps PathFacts HostIOFacts
       ShellMarkerFacts InstallFacts RescanFacts CopyFacts InstallCopies.

Lemma niece_not_under (v : Path) (a b n : string) :
  ~ under (child (child v a) n) (child v b).
Proof.
  intros [_ [l Hl]]. simpl in Hl. rewrite <- !app_assoc in Hl.
  apply app_inv_head in Hl. simpl in Hl. destruct l; discriminate.
Qed.

Lemma cousin_not_under (v : Path) (a b n m : string) :
  b <> a -> ~ under (child (child v a) n) (child (child v b) m).
Proof.
  intros Hne [_ [l Hl]]. simpl in Hl. rewrite <- !app_assoc in Hl.
  apply app_inv_head in Hl. simpl in Hl. injection Hl as Hl _. congruence.
Qed.

Section Post.
Variable python : string.
Variables (base_path fs_root : Path).
Variable fs0 : filesystem.

#[local] Abbreviation appsd := (apps_dir base_path).
#[local] Abbreviation vdir := (virtual_apps_dir fs_root).
#[local] Abbreviation bin := (system_apps_dir fs_root).
#[local] Abbreviation Z := (install_zone fs_root).
#[local] Abbreviation kept := (kept_apart Z fs0 (eq bin)).
#[local] Abbreviation installable := (Apps.installable fs_root).

Hypothesis fs0_plain : listings_plain fs0.

(** The copy of an entry is not below the wrapper of a system
  application. *)
Lemma wrapper_not_under (name n w : string) :
~ under (child (child vdir name) n) (child bin w).
Proof.
rewrite virtual_apps_dir_eq, system_apps_dir_eq.
intros [_ [l Hl]]. simpl in Hl. rewrite <- !app_assoc in Hl.
apply app_inv_head in Hl. simpl in Hl. discriminate.
Qed.

Lemma zone_dest_in_zone (name : string) (q : Path) :
zone (child vdir name) q -> Z q.
Proof.
intros [H|H].
- left. left. apply under_trans with (child vdir name); [|exact H].
  apply under_child, under_refl.
- apply under_child_inv in H as [->|H].
  + left. left. apply under_child, under_refl.
  + left. now right.
Qed.

Lemma keeps_user_app (e : string * AppInfo) :
installable e -> preserves kept (install_user_app fs_root e).
Proof.
intros (Hn & Hp & _).
apply keeps_install_user_app; auto using zone_closed.
- intros es. apply fs0_plain.
- apply user_app_targets.
- intros n _. apply user_app_targets.
Qed.

(** Installing one user application, when it succeeds, leaves a copy of
  every regular file its folder lists. *)
Lemma install_user_app_copies (e : string * AppInfo) (es : list string)
    (fs fs' : filesystem) :
installable e ->
fs0 (path (snd e)) = Some (Dir es) ->
kept fs ->
install_user_app fs_root e fs = (fs', inr tt) ->
forall n f,
  In n es -> fs0 (child (path (snd e)) n) = Some (File f) ->
  copied (child (child vdir (fst e)) n) f fs'.
Proof.
intros (Hn & Hp & Hc) Hes Hk Hrun n f Hin Hf.
unfold install_user_app in Hrun. rewrite (truediv_child _ Hn) in Hrun.
apply bind_ok in Hrun as (fs1 & [] & Hmk & Hrun).
assert (Hk1 : kept fs1).
{ revert Hmk. apply keeps_mkdir_exist_ok; [apply zone_closed | | exact Hk].
  apply user_app_targets. }
unfold bind, read in Hrun.
assert (Hglob : glob_all fs1 (path (snd e)) = map (child (path (snd e))) es).
{ unfold glob_all, iterdir. destruct Hk1 as [Hag _].
  now rewrite (Hag _ Hp), Hes. }
rewrite Hglob in Hrun.
assert (Hout : forall m, ~ zone (child vdir (fst e)) (child (path (snd e)) m)).
{ intros m H. apply (Hc m). now apply zone_dest_in_zone with (fst e). }
destruct (@install_items_copy (child vdir (fst e)) (path (snd e)) Hout es
            (fs0_plain Hes) fs1 fs1 fs' (kept_refl _ _) Hrun)
  as [_ Hcopies].
apply Hcopies; [exact Hin|].
destruct Hk1 as [Hag _]. rewrite (Hag _ (Hc n)). exact Hf.
Qed.

(** Installing another user application leaves the copy as it is. *)
Lemma install_user_app_keeps_copy (e : string * AppInfo)
    (name n : string) (f : file) :
installable e -> fst e <> name ->
preserves (fun fs => kept fs /\ copied (child (child vdir name) n) f fs)
          (install_user_app fs_root e).
Proof.
intros He Hne fs fs' r [Hk Hc] Hrun.
split; [exact (@keeps_user_app e He fs fs' r Hk Hrun)|].
destruct He as (Hn & Hp & _).
apply (@kept_except_below (child (child vdir name) n) Z fs fs' f);
  [|exact Hc].
revert Hrun. apply keeps_install_user_app; [| | | | | |apply kept_refl].
- apply except_below_parent, zone_closed.
- exact Hn.
- intros [H _]. contradiction.
- intros es Hes. destruct Hk as [Hag _]. rewrite (Hag _ Hp) in Hes.
  now apply fs0_plain in Hes.
- split; [apply user_app_targets | apply niece_not_under].
- intros m _. split; [|intros []].
  split; [apply user_app_targets | now apply cousin_not_under].
Qed.

(** Writing the wrapper of a system application leaves the copy as it
  is. *)
Lemma install_system_app_keeps_copy (e : string * AppInfo)
    (name n : string) (f : file) :
plain_segment (fst e) ->
preserves (copied (child (child vdir name) n) f)
          (install_system_app python fs_root e).
Proof.
intros Hn fs fs' r Hc Hrun.
apply (@kept_except_below (child (child vdir name) n) Z fs fs' f);
  [|exact Hc].
revert Hrun. apply keeps_install_system_app; [| | | |apply kept_refl].
- apply except_below_parent, zone_closed.
- exact Hn.
- split; [apply system_app_targets | apply wrapper_not_under].
- intros [].
Qed.

(** When the installation of the user applications succeeds, every
  regular file each folder lists has its copy. *)
Lemma install_user_apps_copy (l : dict) :
NoDup (map fst l) -> Forall installable l ->
forall fs fs',
  kept fs ->
  for_each l (install_user_app fs_root) fs = (fs', inr tt) ->
  kept fs'
  /\ forall name info es n f,
      In (name, info) l ->
      fs0 (path info) = Some (Dir es) -> In n es ->
      fs0 (child (path info) n) = Some (File f) ->
      copied (child (child vdir name) n) f fs'.
Proof.
induction l as [|e l IH]; intros Hnd Hall fs fs' Hk Hrun.
- simpl in Hrun. injection Hrun as <-. split; [exact Hk|].
  intros name info es n f [].
- inversion Hnd as [|? ? Hnin Hnd']; subst.
  inversion Hall as [|? ? He Hall']; subst.
  simpl in Hrun. apply bind_ok in Hrun as (fs1 & [] & Hstep & Hrest).
  assert (Hk1 : kept fs1) by exact (@keeps_user_app e He fs fs1 _ Hk Hstep).
  destruct (IH Hnd' Hall' fs1 fs' Hk1 Hrest) as [Hk' Hcopies].
  split; [exact Hk'|].
  intros name info es n f [->|Hin] Hes Hn Hf;
    [|now apply Hcopies with info es].
  simpl in *.
  pose proof (@install_user_app_copies (name, info) es fs fs1 He Hes Hk
                Hstep n f Hn Hf) as Hc1.
  simpl in Hc1.
  assert (Hinv : kept fs' /\ copied (child (child vdir name) n) f fs').
  { revert Hrest.
    apply (@preserves_for_each
             (fun fs => kept fs /\ copied (child (child vdir name) n) f fs));
      [|now split].
    intros e' He'. rewrite Forall_forall in Hall'.
    apply install_user_app_keeps_copy; [now apply Hall'|].
    intros E. apply Hnin. rewrite <- E. now apply in_map. }
  apply Hinv.
Qed.

(** When the installation returns true, every regular file that the
  folder of a user application lists has its copy below the virtual
  applications directory. *)
Lemma install_copies (r : registry) (fs' : filesystem) :
NoDup (map fst (apps r)) ->
Forall installable (apps r) ->
names_plain (system_apps r) ->
not_a_file fs0 bin ->
install_app_to_virtual_fs python fs_root r fs0 = (fs', true) ->
forall name info es n f,
  In (name, info) (apps r) ->
  fs0 (path info) = Some (Dir es) -> In n es ->
  fs0 (child (path info) n) = Some (File f) ->
  copied (child (child vdir name) n) f fs'.
Proof.
intros Hnd Hall Hns Hbin. unfold install_app_to_virtual_fs.
destruct (bind _ _ fs0) as [fs1 [e|[]]] eqn:E; [discriminate|].
intros H; injection H as <-.
apply bind_ok in E as (fsa & [] & Ha & E).
apply bind_ok in E as (fsb & [] & Hb & E).
apply bind_ok in E as (fsc & [] & Hc & Hd).
assert (H0 : kept fs0) by (split; [now intros q _ | now intros b <-]).
assert (Hka : kept fsa).
{ revert Ha. apply keeps_mkdir_parents_fuel; [apply zone_closed| |exact H0].
  apply zone_under_vdir, under_refl. }
assert (Hkb : kept fsb).
{ revert Hb. apply keeps_mkdir_parents_fuel; [apply zone_closed| |exact Hka].
  apply zone_under_bin, under_refl. }
destruct (@install_user_apps_copy (apps r) Hnd Hall fsb fsc Hkb Hc)
  as [_ Hcopies].
intros name info es n f Hin Hes Hn Hf.
revert Hd. apply preserves_for_each; [|now apply Hcopies with info es].
intros e' He'. unfold names_plain in Hns. rewrite Forall_forall in Hns.
apply install_system_app_keeps_copy. now apply Hns.
Qed.

End Post.

End InstallPost.


Module InstallClaims.
Import PyStr PurePath HostFS HostIO Resolver Apps Demo PathFacts HostIOFacts
       InstallFacts RescanFacts RoundtripFacts CopyFacts InstallCopies
       InstallPost.

Section Roundtrip.
Variable json_load : string -> option descriptor.
Variable exec_module : string -> option module_attrs.
Variable python : string.
Variables (base_path fs_root : Path).

#[local] Abbreviation appsd := (apps_dir base_path).
#[local] Abbreviation vdir := (virtual_apps_dir fs_root).
#[local] Abbreviation bin := (system_apps_dir fs_root).
#[local] Abbreviation scan := (scan_apps json_load exec_module base_path fs_root).


End Roundtrip.




End InstallClaims.


(* ================================================================== *)
(** * More on the path resolvers *)
(* ================================================================== *)

Module ResolverMore.
Import PyStr PurePath HostFS Resolver Shell PyStrFacts PathFacts ResolverFacts
       ResolverClaims CdNormalForm.

(** Joining the fields of a split gives the string back. *)
Lemma join_split (sep : ascii) (s : string) :
  join (String sep EmptyString) (split sep s) = s.
Proof.
  induction s as [|c s IH]; [reflexivity|]. simpl.
  destruct (Ascii.eqb c sep) eqn:E.
  - apply Ascii.eqb_eq in E. subst c.
    pose proof (split_not_nil sep s) as Hne.
    unfold join in *. simpl.
    destruct (split sep s) as [|w ws]; [congruence|].
    now rewrite IH.
  - unfold join in *. destruct (split sep s) as [|w ws].
    + simpl in IH. now subst s.
    + destruct ws as [|w' ws']; simpl in *; now rewrite IH.
Qed.

Lemma split_injective (sep : ascii) (s t : string) :
  split sep s = split sep t -> s = t.
Proof.
  intros H. rewrite <- (join_split sep s), <- (join_split sep t).
  now rewrite H.
Qed.

(** The loop leaves plain segments where they are. *)
Lemma fold_normalize_plain_app (l acc : list string) :
  Forall plain_segment l ->
  fold_left normalize_step l acc = acc ++ l.
Proof.
  intros H. revert acc.
  induction H as [|x l Hx _ IH]; intros acc; simpl.
  - now rewrite app_nil_r.
  - rewrite IH. unfold normalize_step.
    destruct Hx as (Hne & Hdot & Hdd & _).
    apply String.eqb_neq in Hdd, Hdot. rewrite Hdd, Hdot.
    destruct x as [|c x]; [congruence|]. simpl.
    now rewrite <- app_assoc.
Qed.

Lemma normalize_normalized (rest : string) :
  plain_relative rest = true ->
  normalize (String slash rest) = split slash rest.
Proof.
  intros Hp. unfold normalize.
  change (split slash (String slash rest))
    with (EmptyString :: split slash rest).
  simpl fold_left.
  change (normalize_step [] EmptyString) with (@nil string).
  rewrite fold_normalize_plain_app; [reflexivity|].
  now apply forallb_plain.
Qed.

Lemma normalize_of_normalized (s : string) :
  normalized_dir s = true ->
  s = "/" /\ normalize s = []
  \/ exists rest, s = String slash rest /\ plain_relative rest = true
                  /\ normalize s = split slash rest.
Proof.
  intros H. destruct (normalized_dir_cases _ H) as [->|(rest & -> & Hp)].
  - left. now split.
  - right. exists rest. split; [reflexivity|]. split; [exact Hp|].
    now apply normalize_normalized.
Qed.

(** X1.  The resolver of the shell and the resolver of the file browser
    return the same path for every virtual path and every root. *)
Theorem resolvers_agree (fs_root : Path) (P : string) :
  UserLandSystem._virtual_to_real_path fs_root P
  = FileManager._virtual_to_real_path fs_root P.
Proof.
  destruct (startswith P mount_prefix) eqn:E.
  - unfold UserLandSystem._virtual_to_real_path,
      FileManager._virtual_to_real_path.
    destruct P as [|c P]; [discriminate E|].
    cbn [is_empty]. unfold mount_prefix in E. now rewrite E.
  - now rewrite userland_sandboxed, filemanager_sandboxed.
Qed.

(** X2.  Outside the mount prefix, two virtual directories in normal form
    that resolve to the same real path are the same directory. *)
Theorem resolve_injective_on_normal_forms (fs_root : Path) (P Q : string) :
  normalized_dir P = true -> normalized_dir Q = true ->
  startswith P mount_prefix = false -> startswith Q mount_prefix = false ->
  UserLandSystem._virtual_to_real_path fs_root P
  = UserLandSystem._virtual_to_real_path fs_root Q ->
  P = Q.
Proof.
  intros HP HQ HmP HmQ.
  rewrite (userland_sandboxed fs_root P HmP),
          (userland_sandboxed fs_root Q HmQ).
  intros H. injection H as H. apply app_inv_head in H.
  destruct (normalize_of_normalized _ HP) as [[-> Hp]|(p & -> & Hpp & Hp)];
    destruct (normalize_of_normalized _ HQ) as [[-> Hq]|(q & -> & Hqp & Hq)];
    try rewrite Hp in H; try rewrite Hq in H.
  - reflexivity.
  - symmetry in H. now apply split_not_nil in H.
  - now apply split_not_nil in H.
  - f_equal. now apply split_injective in H.
Qed.

Lemma resolve_injective_on_normal_forms_witness :
  "/home/ada" = "/home/ada".
Proof.
  apply (@resolve_injective_on_normal_forms
           (mkPath Root1 ["srv"; "onex"]) "/home/ada" "/home/ada");
    reflexivity.
Defined.

End ResolverMore.

(* ================================================================== *)
(** * The session of the shell *)
(* ================================================================== *)

Module SessionFacts.
Import PyStr PurePath HostFS Resolver Shell ShellCommands PyStrFacts PathFacts
       ResolverFacts ResolverClaims CdNormalForm ResolverMore.

Lemma home_not_mounted (user : string) :
  startswith ("/home/" ++ user) mount_prefix = false.
Proof. reflexivity. Qed.

Lemma plain_home (user : string) :
  plain_segment user -> plain_relative ("home/" ++ user) = true.
Proof.
  intros Hu. unfold plain_relative.
  change ("home/" ++ user)%string with ("home" ++ String slash user)%string.
  rewrite (@split_app_sep slash "home" user eq_refl).
  rewrite (@split_clean slash user) by apply Hu.
  simpl. rewrite andb_true_r. now apply plain_segmentb_spec.
Qed.

Lemma init_consistent (fs_root : Path) (user : string) :
  plain_segment user -> consistent (__init__ fs_root user).
Proof.
  intros Hu. unfold consistent, __init__.
  cbn [real_current_dir current_dir Shell.fs_root].
  rewrite userland_sandboxed by apply home_not_mounted.
  change ("/home/" ++ user)%string with (String slash ("home/" ++ user)).
  rewrite normalize_normalized by now apply plain_home.
  change ("home/" ++ user)%string with ("home" ++ String slash user)%string.
  rewrite (@split_app_sep slash "home" user eq_refl).
  rewrite (@split_clean slash user) by apply Hu.
  rewrite (@truediv_plain _ "home")
    by (repeat split; try discriminate; reflexivity).
  rewrite truediv_plain by exact Hu. simpl.
  now rewrite <- app_assoc.
Qed.

Lemma cd_consistent (fs : filesystem) (st : session) (path : string) :
  consistent st -> consistent (fst (_change_directory fs st path)).
Proof.
  intros H. unfold _change_directory.
  destruct (cd_target st path) as [new_path|]; [|exact H].
  destruct (exists_ fs _); [|exact H]. simpl.
  destruct (is_dir fs _); [|exact H]. reflexivity.
Qed.

Lemma cd_keeps_root (fs : filesystem) (st : session) (path : string) :
  fs_root (fst (_change_directory fs st path)) = fs_root st.
Proof.
  unfold _change_directory.
  destruct (cd_target st path) as [new_path|]; [|reflexivity].
  destruct (exists_ fs _); [|reflexivity]. simpl.
  destruct (is_dir fs _); reflexivity.
Qed.

(** X3.  The session starts, for a user whose name is one plain segment,
    with a cached real directory that is the resolution of its virtual
    directory, and every run of [cd] commands keeps it so, whatever the
    host looks like when each of them runs. *)
Theorem session_stays_consistent
        (fs_root : Path) (user : string) (steps : list (filesystem * string)) :
  plain_segment user ->
  consistent (cd_all (__init__ fs_root user) steps).
Proof.
  intros Hu. unfold cd_all.
  generalize (init_consistent fs_root Hu).
  generalize (__init__ fs_root user) as st.
  induction steps as [|[fs path] steps IH]; intros st Hst; simpl;
    [exact Hst|].
  apply IH. now apply cd_consistent.
Qed.

Lemma session_stays_consistent_witness :
  consistent
    (cd_all (__init__ Demo.demo_root "ada")
            [(Demo.demo_fs, "Music"); (Demo.demo_fs, ".."); (Demo.demo_fs, "/")]).
Proof.
  apply (@session_stays_consistent Demo.demo_root "ada"
           [(Demo.demo_fs, "Music"); (Demo.demo_fs, "..");
            (Demo.demo_fs, "/")]).
  repeat split; try discriminate; reflexivity.
Defined.

End SessionFacts.


(* ================================================================== *)
(** * More on the command tokenizer *)
(* ================================================================== *)

Module TokenizerMore.
Import PyStr PurePath Shell ShellCommands PyStrFacts TokenizerFacts.

(** No part collected by the loop is empty. *)
Lemma tok_step_parts_nonempty (st : tok_state) (c : ascii) :
  Forall (fun t => is_empty t = false) (cmd_parts st) ->
  Forall (fun t => is_empty t = false) (cmd_parts (tok_step st c)).
Proof.
  intros H. unfold tok_step.
  destruct (is_quote c).
  - destruct (negb (in_quotes st)); [exact H|].
    destruct (same_quote (quote_char st) c); exact H.
  - destruct (isspace c && negb (in_quotes st)); [|exact H].
    destruct (is_empty (current_part st)) eqn:E; simpl; [exact H|].
    apply Forall_app. split; [exact H|]. now constructor.
Qed.

Lemma tok_loop_parts_nonempty (cmd : string) (st : tok_state) :
  Forall (fun t => is_empty t = false) (cmd_parts st) ->
  Forall (fun t => is_empty t = false) (cmd_parts (tok_loop st cmd)).
Proof.
  revert st. induction cmd as [|c cmd IH]; intros st H; simpl; [exact H|].
  apply IH. now apply tok_step_parts_nonempty.
Qed.

Lemma tok_flush_parts_nonempty (st : tok_state) :
  Forall (fun t => is_empty t = false) (cmd_parts st) ->
  Forall (fun t => is_empty t = false) (cmd_parts (tok_flush st)).
Proof.
  intros H. unfold tok_flush.
  destruct (is_empty (current_part st)) eqn:E; simpl; [exact H|].
  apply Forall_app. split; [exact H|]. now constructor.
Qed.

(** X4.  Whatever the line, no token the tokenizer returns is empty: an
    empty pair of quotes gives no argument. *)
Theorem tokens_never_empty (cmd : string) :
  match tokenize cmd with
  | inr parts => Forall (fun t => is_empty t = false) parts
  | inl _ => True
  end.
Proof.
  unfold tokenize.
  destruct (in_quotes (tok_flush (tok_loop tok_init cmd))); [exact I|].
  apply tok_flush_parts_nonempty, tok_loop_parts_nonempty. constructor.
Qed.

Lemma tok_step_ahead (pre : list string) (s s' : tok_state) (c : ascii) :
  ahead pre s s' -> ahead pre (tok_step s c) (tok_step s' c).
Proof.
  intros (Hp & Hc & Hq & Hqc). unfold tok_step. rewrite Hq, Hc.
  destruct (is_quote c).
  - destruct (in_quotes s) eqn:Ein; simpl.
    + rewrite (Hqc eq_refl).
      destruct (same_quote (quote_char s) c); unfold ahead; simpl;
        rewrite ?Ein; intuition (auto; discriminate).
    + unfold ahead; simpl; intuition auto.
  - destruct (isspace c && negb (in_quotes s)) eqn:Es.
    + destruct (is_empty (current_part s)); unfold ahead; simpl.
      * intuition auto.
      * rewrite Hp, app_assoc. intuition auto.
    + unfold ahead; simpl. intuition auto.
Qed.

Lemma tok_loop_ahead (cmd : string) (pre : list string) (s s' : tok_state) :
  ahead pre s s' -> ahead pre (tok_loop s cmd) (tok_loop s' cmd).
Proof.
  revert s s'. induction cmd as [|c cmd IH]; intros s s' H; simpl;
    [exact H|].
  apply IH. now apply tok_step_ahead.
Qed.

Lemma tok_flush_ahead (pre : list string) (s s' : tok_state) :
  ahead pre s s' -> ahead pre (tok_flush s) (tok_flush s').
Proof.
  intros (Hp & Hc & Hq & Hqc). unfold tok_flush. rewrite Hc.
  destruct (is_empty (current_part s)); simpl.
  - repeat split; auto.
  - repeat split; simpl; auto. now rewrite Hp, app_assoc.
Qed.

Lemma tokenize_state (cmd : string) (parts : list string) :
  tokenize cmd = inr parts ->
  in_quotes (tok_loop tok_init cmd) = false
  /\ parts = keep (cmd_parts (tok_loop tok_init cmd))
                  (current_part (tok_loop tok_init cmd)).
Proof.
  unfold tokenize, tok_flush, keep.
  destruct (is_empty (current_part (tok_loop tok_init cmd))); simpl;
    destruct (in_quotes (tok_loop tok_init cmd)); try discriminate;
    intros H; injection H as <-; now split.
Qed.

(** X5.  The tokens of two lines written one after the other with a blank
    in between are the tokens of the first followed by the tokens of the
    second. *)
Theorem tokenize_blank_separated
        (a b : string) (sp : ascii) (ta tb : list string) :
  isspace sp = true ->
  tokenize a = inr ta -> tokenize b = inr tb ->
  tokenize (a ++ String sp b) = inr (ta ++ tb).
Proof.
  intros Hsp Ha Hb.
  destruct (tokenize_state _ Ha) as [Hqa Hta].
  assert (Hah : ahead ta tok_init (tok_step (tok_loop tok_init a) sp)).
  { unfold tok_step. rewrite (space_not_quote _ Hsp), Hsp, Hqa. simpl.
    unfold keep in Hta.
    destruct (is_empty (current_part (tok_loop tok_init a))) eqn:E; simpl.
    - apply is_empty_true in E. repeat split; simpl;
        [now rewrite app_nil_r | exact E | exact Hqa | discriminate].
    - repeat split; simpl; [now rewrite app_nil_r | discriminate]. }
  apply (tok_loop_ahead b) in Hah. apply tok_flush_ahead in Hah.
  destruct Hah as (Hp & _ & Hq & _).
  unfold tokenize in *. rewrite tok_loop_app. simpl tok_loop.
  rewrite Hq, Hp.
  destruct (in_quotes (tok_flush (tok_loop tok_init b))); [discriminate|].
  now injection Hb as <-.
Qed.

Lemma tokenize_blank_separated_witness :
  tokenize ("cd " ++ ls_line) = inr (["cd"] ++ ["ls"; "-a"; "my dir"]).
Proof.
  apply (@tokenize_blank_separated "cd" ls_line " "%char
           ["cd"] ["ls"; "-a"; "my dir"]); reflexivity.
Defined.

End TokenizerMore.


(* ================================================================== *)
(** * Ordering strings and paths *)
(* ================================================================== *)

Module OrderFacts.
Import PyStr PurePath HostFS HostIO HostOps Browser BrowserFacts.

Lemma ascii_compare_refl (a : ascii) : Ascii.compare a a = Eq.
Proof. unfold Ascii.compare. apply N.compare_refl. Qed.

Lemma ascii_compare_lt_trans (a b c : ascii) :
  Ascii.compare a b = Lt -> Ascii.compare b c = Lt -> Ascii.compare a c = Lt.
Proof.
  unfold Ascii.compare. rewrite !N.compare_lt_iff. apply N.lt_trans.
Qed.

Lemma string_compare_refl (s : string) : String.compare s s = Eq.
Proof.
  induction s as [|c s IH]; simpl; [reflexivity|].
  now rewrite ascii_compare_refl.
Qed.

Lemma string_leb_refl (s : string) : String.leb s s = true.
Proof. unfold String.leb. now rewrite string_compare_refl. Qed.

Lemma string_leb_trans (s1 s2 s3 : string) :
  String.leb s1 s2 = true -> String.leb s2 s3 = true ->
  String.leb s1 s3 = true.
Proof.
  unfold String.leb. revert s2 s3.
  induction s1 as [|c1 s1 IH]; intros [|c2 s2] [|c3 s3]; simpl;
    try congruence.
  destruct (Ascii.compare c1 c2) eqn:E12; try congruence;
    destruct (Ascii.compare c2 c3) eqn:E23; try congruence.
  - apply Ascii.compare_eq_iff in E12, E23. subst.
    rewrite ascii_compare_refl. apply IH.
  - apply Ascii.compare_eq_iff in E12. subst. now rewrite E23.
  - apply Ascii.compare_eq_iff in E23. subst. now rewrite E12.
  - now rewrite (ascii_compare_lt_trans _ _ _ E12 E23).
Qed.

(** Among the children of one directory, paths are ordered as their
    names are. *)
Lemma parts_leb_app (l : list string) (a b : string) :
  parts_leb (l ++ [a]) (l ++ [b]) = String.leb a b.
Proof.
  induction l as [|x l IH]; simpl.
  - destruct (String.eqb a b) eqn:E.
    + apply String.eqb_eq in E. subst. now rewrite string_leb_refl.
    + unfold String.ltb, String.leb.
      destruct (String.compare a b) eqn:C; try reflexivity.
      apply String.compare_eq_iff in C. apply String.eqb_neq in E.
      contradiction.
  - now rewrite String.eqb_refl.
Qed.

Lemma parts_child (p : Path) (n : string) :
  parts (child p n) = parts p ++ [n].
Proof. unfold parts, child; simpl. now destruct (root p). Qed.

Lemma Path_leb_siblings (p : Path) (a b : string) :
  Path_leb (child p a) (child p b) = String.leb a b.
Proof. unfold Path_leb. rewrite !parts_child. apply parts_leb_app. Qed.

(** Sorting commutes with a map that respects the order. *)
Section SortMap.
Variables (A B : Type) (f : A -> B).
Variables (leA : A -> A -> bool) (leB : B -> B -> bool).
Hypothesis le_f : forall a b, leB (f a) (f b) = leA a b.

Lemma insert_stable_map (x : A) (l : list A) :
insert_stable (fun b : B => b) leB (f x) (map f l)
= map f (insert_stable (fun a : A => a) leA x l).
Proof.
induction l as [|y l IH]; simpl; [reflexivity|].
rewrite le_f. destruct (leA x y); simpl; [reflexivity|].
now rewrite IH.
Qed.

Lemma sort_by_key_map (l : list A) :
sort_by_key (fun b : B => b) leB (map f l)
= map f (sort_by_key (fun a : A => a) leA l).
Proof.
induction l as [|x l IH]; simpl; [reflexivity|].
unfold sort_by_key in *. simpl. rewrite IH. apply insert_stable_map.
Qed.

End SortMap.

Lemma sorted_children (p : Path) (es : list string) :
  sorted_paths (map (child p) es)
  = map (child p) (sort_by_key (fun n : string => n) String.leb es).
Proof.
  unfold sorted_paths. apply sort_by_key_map. apply Path_leb_siblings.
Qed.

Lemma sorted_names (es : list string) :
  StronglySorted (fun a b => String.leb a b = true)
                 (sort_by_key (fun n : string => n) String.leb es).
Proof.
  apply Sorted_StronglySorted.
  - intros a b c. apply string_leb_trans.
  - apply (@sort_by_key_sorted string string (fun n => n) String.leb).
    apply String.leb_total.
Qed.

End OrderFacts.

(* ================================================================== *)
(** * [ls] *)
(* ================================================================== *)

Module ListingFacts.
Import PyStr PurePath HostFS HostIO HostOps Resolver Shell ShellCommands
       Browser BrowserFacts OrderFacts.

(** X6.  When the target of [ls] is a directory, the command prints one
    line for each name the directory lists and nothing else, and the
    lines come in ascending order of the names, compared character by
    character. *)
Theorem ls_lists_in_name_order
        (fs : filesystem) (st : session) (path : string) (es : list string) :
  let target_path :=
    if is_empty path then real_current_dir st else operand_real st path in
  fs target_path = Some (Dir es) ->
  exists names,
    Permutation es names
    /\ StronglySorted (fun a b => String.leb a b = true) names
    /\ _list_directory fs st path
       = map (fun n => ls_entry fs (child target_path n)) names.
Proof.
  intros target_path Hdir.
  exists (sort_by_key (fun n : string => n) String.leb es).
  split; [apply sort_by_key_perm|]. split; [apply sorted_names|].
  unfold _list_directory. fold target_path.
  unfold exists_, HostFS.is_dir, iterdir. rewrite Hdir. simpl.
  now rewrite sorted_children, map_map.
Qed.

Lemma ls_lists_in_name_order_witness :
  exists names,
    Permutation ["notes.txt"; "-drafts"; "Music"] names
    /\ StronglySorted (fun a b => String.leb a b = true) names
    /\ _list_directory Demo.demo_fs Demo.demo_session EmptyString
       = map (fun n => ls_entry Demo.demo_fs
                         (child (real_current_dir Demo.demo_session) n)) names.
Proof.
  apply (@ls_lists_in_name_order Demo.demo_fs Demo.demo_session EmptyString
           ["notes.txt"; "-drafts"; "Music"]).
  reflexivity.
Defined.

End ListingFacts.


(* ================================================================== *)
(** * What the file commands of the shell leave behind *)
(* ================================================================== *)

Module HostOpsFacts.
Import PyStr PurePath HostFS HostIO HostOps Resolver HostIOFacts CopyFacts.

Lemma parent_segments (p : Path) :
  segments (parent p) = removelast (segments p).
Proof.
  unfold parent. destruct (segments p) eqn:E; [now rewrite E | reflexivity].
Qed.

Lemma parent_neq (p : Path) : segments p <> [] -> parent p <> p.
Proof.
  intros Hne E. apply (f_equal (fun q => List.length (segments q))) in E.
  rewrite parent_segments in E.
  destruct (segments p) as [|x l] using rev_ind; [congruence|].
  rewrite removelast_last, length_app in E. simpl in E. lia.
Qed.

Lemma parent_root (p : Path) : segments p = [] -> parent p = p.
Proof. intros E. unfold parent. now rewrite E. Qed.

(** A directory that [os.mkdir] made is there, and empty. *)
Lemma os_mkdir_ok (p : Path) (fs fs' : filesystem) (u : unit) :
  os_mkdir p fs = (fs', inr u) -> fs' p = Some (Dir []).
Proof.
  unfold os_mkdir.
  destruct (fs (parent p)) as [[f|es]|] eqn:Epar; try discriminate.
  destruct (fs p) eqn:Ep; [discriminate|].
  intros H; injection H as <- _.
  rewrite link_entry_other, fs_set_same; [reflexivity|].
  intros E. rewrite <- E in Epar. congruence.
Qed.

Lemma mkdir_strict_ok (p : Path) (fs fs' : filesystem) (u : unit) :
  mkdir_parents_strict p fs = (fs', inr u) -> fs' p = Some (Dir []).
Proof.
  unfold mkdir_parents_strict.
  destruct (os_mkdir p fs) as [fs1 [e|u1]] eqn:E.
  - destruct e; try discriminate.
    destruct (Path_eqb (parent p) p); [discriminate|].
    unfold bind.
    destruct (mkdir_parents (parent p) fs) as [fs2 [e2|u2]]; [discriminate|].
    apply os_mkdir_ok.
  - intros H; injection H as <- _. exact (os_mkdir_ok _ _ E).
Qed.

(** The paths at or above [p]. *)
Lemma above_parent (p q : Path) : under q p -> under (parent q) p.
Proof. intros H. apply under_trans with q; [apply parent_above | exact H]. Qed.

Lemma not_above_parent (p : Path) :
  segments p <> [] -> ~ under p (parent p).
Proof.
  intros Hne [_ [l Hl]]. rewrite parent_segments in Hl.
  apply (f_equal (@List.length string)) in Hl.
  destruct (segments p) as [|x s] using rev_ind; [congruence|].
  rewrite removelast_last, !length_app in Hl. simpl in Hl. lia.
Qed.

(** Making the directories above [p] does not touch [p]. *)
Lemma mkdir_parents_above (p : Path) (fs fs' : filesystem) (r : exn + unit) :
  segments p <> [] ->
  mkdir_parents (parent p) fs = (fs', r) -> fs' p = fs p.
Proof.
  intros Hne Hrun.
  assert (Hk : kept_apart (fun q => under q (parent p)) fs nothing fs').
  { revert Hrun. unfold mkdir_parents.
    apply keeps_mkdir_parents_fuel.
    - intros q. apply above_parent.
    - apply under_refl.
    - split; [now intros q _ | intros b []]. }
  destruct Hk as [Hag _]. apply Hag. now apply not_above_parent.
Qed.

(** At a root, [mkdir(parents=True, exist_ok=True)] succeeds only when
    the root is there, and changes nothing. *)
Lemma mkdir_parents_root (p : Path) (fs fs' : filesystem) (u : unit) :
  segments p = [] ->
  mkdir_parents p fs = (fs', inr u) ->
  fs' = fs /\ exists es, fs p = Some (Dir es).
Proof.
  intros E. unfold mkdir_parents. rewrite E. simpl.
  unfold os_mkdir, HostFS.is_dir. rewrite (parent_root _ E).
  destruct (fs p) as [[f|es]|]; try discriminate.
  intros H; injection H as <-. split; [reflexivity | now eexists].
Qed.

End HostOpsFacts.

Module FileCommandFacts.
Import PyStr PurePath HostFS HostIO HostOps Resolver Shell ShellCommands
       PyStrFacts HostIOFacts CopyFacts HostOpsFacts.

Lemma cd_target_operand (st : session) (path : string) :
  path <> ".." -> cd_target st path = Some (operand_path st path).
Proof.
  intros Hne. unfold cd_target, operand_path.
  destruct (startswith path "/"); [reflexivity|].
  apply String.eqb_neq in Hne. rewrite Hne.
  now destruct (endswith_char (current_dir st) slash).
Qed.

(** X7.  After a [mkdir] that printed nothing, the directory is there:
    [cd] with the same operand enters it. *)
Theorem mkdir_then_cd
        (st : session) (path : string) (fs fs' : filesystem) :
  path <> ".." ->
  _make_directory st path fs = (fs', []) ->
  is_dir fs' (operand_real st path) = true
  /\ _change_directory fs' st path
     = (mkSession (fs_root st) (operand_path st path) (operand_real st path),
        []).
Proof.
  intros Hne. unfold _make_directory.
  destruct (mkdir_parents_strict (operand_real st path) fs)
    as [fs1 [e|u]] eqn:E; [discriminate|].
  intros H; injection H as <-.
  pose proof (mkdir_strict_ok _ _ E) as Hdir.
  assert (Hd : is_dir fs1 (operand_real st path) = true)
    by (unfold HostFS.is_dir; now rewrite Hdir).
  split; [exact Hd|].
  unfold _change_directory. rewrite (cd_target_operand st Hne).
  fold (operand_real st path).
  unfold exists_. rewrite Hdir. simpl. now rewrite Hd.
Qed.

Lemma mkdir_then_cd_witness :
  is_dir (fst (_make_directory Demo.demo_session "work/src" Demo.demo_fs))
         (operand_real Demo.demo_session "work/src") = true
  /\ _change_directory
       (fst (_make_directory Demo.demo_session "work/src" Demo.demo_fs))
       Demo.demo_session "work/src"
     = (mkSession (fs_root Demo.demo_session)
                  (operand_path Demo.demo_session "work/src")
                  (operand_real Demo.demo_session "work/src"), []).
Proof.
  apply (@mkdir_then_cd Demo.demo_session "work/src" Demo.demo_fs
           (fst (_make_directory Demo.demo_session "work/src" Demo.demo_fs))).
  - discriminate.
  - reflexivity.
Defined.

(** X8.  [mkdir] does not accept a path that exists: it reports that the
    file exists and leaves the host as it was. *)
Theorem mkdir_existing_fails
        (st : session) (path : string) (fs : filesystem) :
  exists_ fs (operand_real st path) = true ->
  is_dir fs (parent (operand_real st path)) = true ->
  _make_directory st path fs
  = (fs, [Caught ("mkdir: impossibile creare la directory '" ++ path
                    ++ "': ")%string FileExistsError]).
Proof.
  unfold exists_, HostFS.is_dir, _make_directory, mkdir_parents_strict,
    os_mkdir.
  destruct (fs (parent (operand_real st path))) as [[f|es]|];
    try discriminate.
  destruct (fs (operand_real st path)); [reflexivity | discriminate].
Qed.

Lemma mkdir_existing_fails_witness :
  _make_directory Demo.demo_session "Music" Demo.demo_fs
  = (Demo.demo_fs,
     [Caught "mkdir: impossibile creare la directory 'Music': "
             FileExistsError]).
Proof.
  apply (@mkdir_existing_fails Demo.demo_session "Music" Demo.demo_fs);
    reflexivity.
Defined.

End FileCommandFacts.


Module RemovalFacts.
Import PyStr PurePath HostFS HostIO HostOps Resolver HostIOFacts CopyFacts
       HostOpsFacts.

Lemma is_prefix_spec (l1 l2 : list string) :
  is_prefix l1 l2 = true <-> exists l, l2 = l1 ++ l.
Proof.
  revert l2. induction l1 as [|x l1 IH]; intros l2; simpl.
  - split; [intros _; now exists l2 | reflexivity].
  - destruct l2 as [|y l2].
    + split; [discriminate | intros [l Hl]; discriminate].
    + rewrite andb_true_iff, String.eqb_eq, IH. split.
      * intros [-> [l ->]]. now exists l.
      * intros [l Hl]. injection Hl as -> ->. split; [reflexivity|].
        now exists l.
Qed.

Lemma underb_spec (d q : Path) : underb d q = true <-> under d q.
Proof.
  unfold underb, under. now rewrite andb_true_iff, anchor_eqb_eq, is_prefix_spec.
Qed.

Lemma unlink_entry_other (fs : filesystem) (p q : Path) :
  q <> parent p -> unlink_entry fs p q = fs q.
Proof.
  intros H. unfold unlink_entry. destruct (segments p); [reflexivity|].
  destruct (fs (parent p)) as [[f|es]|]; try reflexivity.
  now apply fs_set_other.
Qed.

Lemma unlink_entry_below (fs : filesystem) (p q : Path) :
  under p q -> unlink_entry fs p q = fs q.
Proof.
  intros Hu. destruct (segments p) as [|x l] eqn:E.
  - unfold unlink_entry. now rewrite E.
  - apply unlink_entry_other. intros ->.
    apply (@not_above_parent p); [rewrite E; discriminate | exact Hu].
Qed.

(** After [rmtree] nothing is left at or below the directory. *)
Lemma rmtree_ok (p q : Path) (fs fs' : filesystem) (u : unit) :
  rmtree p fs = (fs', inr u) -> under p q -> fs' q = None.
Proof.
  unfold rmtree. destruct (fs p) as [[f|es]|]; try discriminate.
  intros H Hu; injection H as <-.
  rewrite unlink_entry_below by exact Hu.
  apply underb_spec in Hu. now rewrite Hu.
Qed.

Lemma unlink_ok (p : Path) (fs fs' : filesystem) (u : unit) :
  unlink p fs = (fs', inr u) -> fs' p = None.
Proof.
  unfold unlink. destruct (fs p) as [[f|es]|]; try discriminate.
  intros H; injection H as <-.
  rewrite unlink_entry_below by apply under_refl.
  unfold fs_unset. now rewrite Path_eqb_refl.
Qed.

Section Frame.
Variable Z : Path -> Prop.
Hypothesis Z_parent : forall p, Z p -> Z (parent p).
Variable fs0 : filesystem.

#[local] Abbreviation kept := (kept_apart Z fs0 nothing).

Lemma keeps_mkdir_strict (p : Path) :
Z p -> preserves kept (mkdir_parents_strict p).
Proof.
intros Hz fs fs' r Hk. unfold mkdir_parents_strict.
destruct (os_mkdir p fs) as [fs1 [e|u]] eqn:E.
- destruct e; try (intros H; injection H as <- _; exact Hk).
  destruct (Path_eqb (parent p) p);
    [intros H; injection H as <- _; exact Hk|].
  intros H. revert H. apply keeps_bind; [| intros _ | exact Hk].
  + unfold mkdir_parents. apply keeps_mkdir_parents_fuel;
      [exact Z_parent | now apply Z_parent].
  + now apply keeps_os_mkdir.
- intros H; injection H as <- _.
  exact (@keeps_os_mkdir Z Z_parent fs0 nothing p Hz fs fs1 (inr u) Hk E).
Qed.

Lemma keeps_touch (p : Path) : Z p -> preserves kept (touch p).
Proof.
intros Hz fs fs' r Hk. unfold touch.
destruct (fs p); [intros H; injection H as <- _; exact Hk|].
destruct (fs (parent p)) as [[f|es]|];
  intros H; injection H as <- _; try exact Hk.
apply kept_link_entry; [exact Z_parent | | exact Hz].
apply kept_fs_set; [exact Hk | exact Hz | left; intros []].
Qed.

Lemma kept_unlink_entry (fs : filesystem) (p : Path) :
kept fs -> Z p -> kept (unlink_entry fs p).
Proof.
intros Hk Hz. unfold unlink_entry.
destruct (segments p); [exact Hk|].
destruct (fs (parent p)) as [[f|es]|]; try exact Hk.
apply kept_fs_set; [exact Hk | now apply Z_parent | right; now eexists].
Qed.

Lemma kept_without (fs : filesystem) (gone : Path -> bool) :
kept fs -> (forall q, gone q = true -> Z q) ->
kept (fun q => if gone q then None else fs q).
Proof.
intros [Ha _] Hg. split; [|intros b []].
intros q Hq. destruct (gone q) eqn:E; [|now apply Ha].
exfalso. apply Hq. now apply Hg.
Qed.

Lemma keeps_unlink (p : Path) : Z p -> preserves kept (unlink p).
Proof.
intros Hz fs fs' r Hk. unfold unlink.
destruct (fs p) as [[f|es]|]; intros H; injection H as <- _;
  try exact Hk.
apply kept_unlink_entry; [|exact Hz].
apply (@kept_without fs (fun q => Path_eqb q p) Hk).
intros q Hq. apply Path_eqb_eq in Hq. now subst.
Qed.

Lemma keeps_rmtree (p : Path) :
Z p -> (forall q, under p q -> Z q) -> preserves kept (rmtree p).
Proof.
intros Hz Hbelow fs fs' r Hk. unfold rmtree.
destruct (fs p) as [[f|es]|]; intros H; injection H as <- _;
  try exact Hk.
apply kept_unlink_entry; [|exact Hz].
apply (@kept_without fs (underb p) Hk).
intros q Hq. apply Hbelow. now apply underb_spec.
Qed.

End Frame.

(** What lies in the zone of a path below [d] lies in the zone of [d]. *)
Lemma zone_inside (d p q : Path) : under d p -> zone p q -> zone d q.
Proof.
  intros Hdp [Hpq|Hqp].
  - left. now apply under_trans with p.
  - destruct Hdp as [Hr1 [l1 H1]], Hqp as [Hr2 [l2 H2]].
    rewrite H1 in H2. apply app_eq_app in H2 as [l [[Ha Hb]|[Ha Hb]]].
    + right. split; [congruence|]. now exists l.
    + left. split; [congruence|]. now exists l.
Qed.

End RemovalFacts.

Module FileCommandMore.
Import PyStr PurePath HostFS HostIO HostOps Resolver Shell ShellCommands
       PyStrFacts HostIOFacts CopyFacts HostOpsFacts RemovalFacts
       ResolverClaims FileCommandFacts.

(** X9.  After a [touch] that printed nothing: where nothing was, [cat]
    prints an empty text; a regular file that was there is unchanged, and
    [cat] prints what it held. *)
Theorem touch_then_cat
        (st : session) (path : string) (fs fs' : filesystem) :
  _touch_file st path fs = (fs', []) ->
  (fs (operand_real st path) = None ->
   _cat_file fs' st path = [Say EmptyString])
  /\ (forall f, fs (operand_real st path) = Some (File f) ->
        fs' (operand_real st path) = Some (File f)
        /\ (readable f = true -> _cat_file fs' st path = [Say (content f)])).
Proof.
  unfold _touch_file. set (p := operand_real st path).
  destruct (bind (mkdir_parents (parent p)) (fun _ => touch p) fs)
    as [fs2 [e|[]]] eqn:E; [discriminate|].
  intros H; injection H as <-.
  apply bind_ok in E as (fs1 & [] & Hmk & Htouch).
  assert (Hcat : forall f, fs2 p = Some (File f) -> readable f = true ->
                           _cat_file fs2 st path = [Say (content f)]).
  { intros f Hf Hr. unfold _cat_file. fold p.
    unfold exists_, is_file, bind, open_read, read_open.
    rewrite Hf. simpl. rewrite Hr. now rewrite Hf. }
  destruct (segments p) as [|x l] eqn:Eseg.
  - rewrite (parent_root _ Eseg) in Hmk.
    destruct (@mkdir_parents_root p fs fs1 tt Eseg Hmk) as [-> [es Hes]].
    split; [congruence | intros f Hf; congruence].
  - assert (Hsame : fs1 p = fs p)
      by (apply (@mkdir_parents_above p fs fs1 (inr tt));
          [rewrite Eseg; discriminate | exact Hmk]).
    unfold touch in Htouch. rewrite Hsame in Htouch. split.
    + intros Hnone. rewrite Hnone in Htouch.
      destruct (fs1 (parent p)) as [[f|es]|]; try discriminate.
      injection Htouch as <-.
      apply (Hcat (mkFile EmptyString true false)); [|reflexivity].
      rewrite link_entry_other, fs_set_same; [reflexivity|].
      intros Ep. symmetry in Ep. revert Ep. apply parent_neq.
      rewrite Eseg; discriminate.
    + intros f Hf. rewrite Hf in Htouch. injection Htouch as <-.
      assert (Hf1 : fs1 p = Some (File f)) by congruence.
      split; [exact Hf1 | now apply Hcat].
Qed.

Lemma touch_then_cat_witness :
  _cat_file (fst (_touch_file Demo.demo_session "todo" Demo.demo_fs))
            Demo.demo_session "todo" = [Say EmptyString].
Proof.
  apply (@touch_then_cat Demo.demo_session "todo" Demo.demo_fs
           (fst (_touch_file Demo.demo_session "todo" Demo.demo_fs)));
    reflexivity.
Defined.

(** X10.  After an [rm] that printed nothing, nothing is left at the
    path, nor below it when it was a directory: [cat], [ls] and [cd] with
    the same operand all report that there is no such file. *)
Theorem rm_then_gone
        (st : session) (path : string) (fs fs' : filesystem) :
  _remove_file st path fs = (fs', []) ->
  fs' (operand_real st path) = None
  /\ (is_dir fs (operand_real st path) = true ->
      forall q, under (operand_real st path) q -> fs' q = None)
  /\ _cat_file fs' st path
     = [Say ("cat: " ++ path ++ ": No such file or directory")%string]
  /\ (path <> EmptyString ->
      _list_directory fs' st path
      = [("ls: cannot access '" ++ path
            ++ "': No such file or directory")%string])
  /\ (path <> ".." ->
      _change_directory fs' st path
      = (st, [("cd: " ++ path ++ ": No such file or directory")%string])).
Proof.
  unfold _remove_file. set (p := operand_real st path).
  destruct ((if is_dir fs p then rmtree p else unlink p) fs)
    as [fs1 [e|u]] eqn:E; [discriminate|].
  intros H; injection H as <-.
  assert (Hgone : fs1 p = None).
  { destruct (is_dir fs p).
    - apply (@rmtree_ok p p fs fs1 u E), under_refl.
    - exact (@unlink_ok p fs fs1 u E). }
  split; [exact Hgone|]. split.
  { intros Hd q Hq. rewrite Hd in E. exact (@rmtree_ok p q fs fs1 u E Hq). }
  split.
  { unfold _cat_file. fold p. unfold exists_. now rewrite Hgone. }
  split.
  { intros Hne. unfold _list_directory.
    destruct path as [|c path']; [congruence|]. cbn [is_empty]. fold p.
    unfold exists_. now rewrite Hgone. }
  intros Hne. unfold _change_directory.
  rewrite (cd_target_operand st Hne). fold (operand_real st path). fold p.
  unfold exists_. now rewrite Hgone.
Qed.

Lemma rm_then_gone_witness :
  fst (_remove_file Demo.demo_session "/home" Demo.demo_fs)
      (mkPath Root1 ["srv"; "onex"; "home"; "ada"; "notes.txt"]) = None.
Proof.
  apply (@rm_then_gone Demo.demo_session "/home" Demo.demo_fs
           (fst (_remove_file Demo.demo_session "/home" Demo.demo_fs))
           eq_refl).
  - reflexivity.
  - split; [reflexivity|]. now exists ["ada"; "notes.txt"].
Defined.

Lemma operand_inside (st : session) (path : string) :
  startswith (operand_path st path) mount_prefix = false ->
  under (fs_root st) (operand_real st path).
Proof.
  intros H. unfold operand_real. rewrite (userland_sandboxed _ _ H).
  split; [reflexivity|]. now eexists.
Qed.

(** X11.  [mkdir], [touch] and [rm] with an operand that does not resolve
    through the mount prefix change nothing on the host outside the
    virtual root: every path that is neither inside [fs_root] nor one of
    the directories above it holds afterwards what it held before. *)
Theorem file_commands_stay_in_sandbox
        (st : session) (path : string) (fs : filesystem) (q : Path) :
  startswith (operand_path st path) mount_prefix = false ->
  ~ zone (fs_root st) q ->
  fst (_make_directory st path fs) q = fs q
  /\ fst (_touch_file st path fs) q = fs q
  /\ fst (_remove_file st path fs) q = fs q.
Proof.
  intros Hm Hq. pose proof (operand_inside st path Hm) as Hin.
  set (p := operand_real st path) in *.
  assert (Hout : ~ zone p q)
    by (intros Hz; apply Hq; exact (@zone_inside (fs_root st) p q Hin Hz)).
  assert (Hstart : kept_apart (zone p) fs nothing fs)
    by (split; [now intros x _ | intros b []]).
  assert (Hzp : zone p p) by (left; apply under_refl).
  assert (Hpar : forall x, zone p x -> zone p (parent x))
    by (intros x; apply zone_parent).
  assert (Hend : forall fs', kept_apart (zone p) fs nothing fs' -> fs' q = fs q)
    by (intros fs' [Hag _]; now apply Hag).
  split; [|split]; apply Hend.
  - unfold _make_directory. fold p.
    destruct (mkdir_parents_strict p fs) as [fs1 r] eqn:E.
    assert (Hk : kept_apart (zone p) fs nothing fs1)
      by exact (@keeps_mkdir_strict (zone p) Hpar fs p Hzp fs fs1 r Hstart E).
    now destruct r.
  - unfold _touch_file. fold p.
    destruct (bind (mkdir_parents (parent p)) (fun _ => touch p) fs)
      as [fs1 r] eqn:E.
    assert (Hk : kept_apart (zone p) fs nothing fs1).
    { revert E. apply keeps_bind; [| intros _ | exact Hstart].
      - unfold mkdir_parents. apply keeps_mkdir_parents_fuel;
          [exact Hpar | now apply Hpar].
      - now apply keeps_touch. }
    now destruct r.
  - unfold _remove_file. fold p.
    destruct ((if is_dir fs p then rmtree p else unlink p) fs)
      as [fs1 r] eqn:E.
    assert (Hk : kept_apart (zone p) fs nothing fs1).
    { destruct (is_dir fs p).
      - revert E. apply keeps_rmtree; [exact Hpar | exact Hzp | | exact Hstart].
        intros x Hx. now left.
      - revert E. apply keeps_unlink; [exact Hpar | exact Hzp | exact Hstart]. }
    now destruct r.
Qed.

Lemma file_commands_stay_in_sandbox_witness :
  fst (_make_directory Demo.demo_session "../../etc" Demo.demo_fs)
      (mkPath Root1 ["etc"]) = Demo.demo_fs (mkPath Root1 ["etc"])
  /\ fst (_touch_file Demo.demo_session "../../etc" Demo.demo_fs)
         (mkPath Root1 ["etc"]) = Demo.demo_fs (mkPath Root1 ["etc"])
  /\ fst (_remove_file Demo.demo_session "../../etc" Demo.demo_fs)
         (mkPath Root1 ["etc"]) = Demo.demo_fs (mkPath Root1 ["etc"]).
Proof.
  apply (@file_commands_stay_in_sandbox Demo.demo_session "../../etc"
           Demo.demo_fs (mkPath Root1 ["etc"])).
  - reflexivity.
  - intros [[_ [l Hl]]|[_ [l Hl]]]; discriminate.
Defined.

(** X12.  After [cd] has entered a directory, [ls] without operand prints
    what [ls] with the operand of that [cd] printed before. *)
Theorem cd_then_ls
        (st : session) (path : string) (fs : filesystem) :
  path <> EmptyString -> path <> ".." ->
  is_dir fs (operand_real st path) = true ->
  current_dir (fst (_change_directory fs st path)) = operand_path st path
  /\ _list_directory fs (fst (_change_directory fs st path)) EmptyString
     = _list_directory fs st path.
Proof.
  intros Hne Hdd Hdir.
  assert (Hex : exists_ fs (operand_real st path) = true).
  { unfold exists_. unfold HostFS.is_dir in Hdir.
    now destruct (fs (operand_real st path)). }
  unfold _change_directory. rewrite (cd_target_operand st Hdd).
  fold (operand_real st path). rewrite Hex, Hdir. simpl.
  split; [reflexivity|].
  unfold _list_directory. cbn [is_empty real_current_dir].
  destruct path as [|c path']; [congruence|]. cbn [is_empty].
  unfold HostFS.is_dir in Hdir. unfold exists_, HostFS.is_dir, iterdir.
  destruct (fs (operand_real st (String c path'))) as [[f|es]|];
    try discriminate; reflexivity.
Qed.

Lemma cd_then_ls_witness :
  current_dir (fst (_change_directory Demo.demo_fs Demo.demo_session "/home"))
  = operand_path Demo.demo_session "/home"
  /\ _list_directory Demo.demo_fs
       (fst (_change_directory Demo.demo_fs Demo.demo_session "/home"))
       EmptyString
     = _list_directory Demo.demo_fs Demo.demo_session "/home".
Proof.
  apply (@cd_then_ls Demo.demo_session "/home" Demo.demo_fs);
    [discriminate | discriminate | reflexivity].
Defined.

End FileCommandMore.


(* ================================================================== *)
(** * What the ordering of the file browser does establish *)
(* ================================================================== *)

Module BrowserOrder.
Import PyStr PurePath HostFS Resolver Browser BrowserFacts OrderFacts
       HostIOFacts.

Lemma key_le_trans (a b c : nat * string) :
  key_le a b = true -> key_le b c = true -> key_le a c = true.
Proof.
  unfold key_le. destruct a as [n s], b as [m t], c as [k u]; simpl.
  rewrite !orb_true_iff, !andb_true_iff, !Nat.ltb_lt, !Nat.eqb_eq.
  intros [H1|[H1 L1]] [H2|[H2 L2]].
  - left. lia.
  - left. lia.
  - left. lia.
  - right. split; [lia|]. exact (string_leb_trans _ _ _ L1 L2).
Qed.

Lemma sort_items_strongly (l : list FileItem) :
  StronglySorted (fun x y => key_le (sort_key x) (sort_key y) = true)
                 (sort_items l).
Proof.
  apply Sorted_StronglySorted; [|apply sort_items_sorted].
  intros a b c. apply key_le_trans.
Qed.

Lemma rank_cases (x : FileItem) :
  fst (sort_key x) = 0 /\ (is_dir x = true \/ name x = "..")
  \/ fst (sort_key x) = 1 /\ is_dir x = false /\ name x <> "..".
Proof.
  unfold sort_key; simpl.
  destruct (String.eqb (name x) "..") eqn:E.
  - left. split; [reflexivity|]. right. now apply String.eqb_eq.
  - apply String.eqb_neq in E. destruct (is_dir x); simpl.
    + left. split; [reflexivity | now left].
    + right. now repeat split.
Qed.

(** A list in key order is its entries of rank 0 followed by its entries
    of rank 1, each group in the order of the lowered names. *)
Lemma ordered_groups (l : list FileItem) :
  StronglySorted (fun x y => key_le (sort_key x) (sort_key y) = true) l ->
  exists dirs files,
    l = dirs ++ files
    /\ Forall (fun x => is_dir x = true \/ name x = "..") dirs
    /\ Forall (fun x => is_dir x = false /\ name x <> "..") files
    /\ StronglySorted
         (fun x y => String.leb (lower (name x)) (lower (name y)) = true) dirs
    /\ StronglySorted
         (fun x y => String.leb (lower (name x)) (lower (name y)) = true) files.
Proof.
  induction 1 as [|x l Hl IH Hx].
  - exists [], []. repeat split; constructor.
  - destruct IH as (dirs & files & -> & Hd & Hf & Sd & Sf).
    destruct (rank_cases x) as [[Hr Hk]|[Hr Hk]].
    + exists (x :: dirs), files. split; [reflexivity|].
      split; [now constructor|]. split; [exact Hf|]. split; [|exact Sf].
      constructor; [exact Sd|].
      apply Forall_app in Hx as [Hxd _].
      rewrite Forall_forall in Hxd, Hd. apply Forall_forall.
      intros y Hy. specialize (Hxd y Hy).
      unfold key_le in Hxd. rewrite Hr in Hxd.
      destruct (rank_cases y) as [[Hry _]|[Hry [Hyd Hyn]]].
      * rewrite Hry in Hxd. exact Hxd.
      * destruct (Hd y Hy) as [H|H]; congruence.
    + assert (Hnil : dirs = []).
      { destruct dirs as [|y dirs]; [reflexivity|]. exfalso.
        inversion Hx as [|? ? Hxy _]; subst.
        inversion Hd as [|? ? Hyd _]; subst.
        unfold key_le in Hxy. rewrite Hr in Hxy.
        destruct (rank_cases y) as [[Hry _]|[_ [Hy1 Hy2]]].
        - rewrite Hry in Hxy. discriminate.
        - destruct Hyd; congruence. }
      subst dirs. exists [], (x :: files). split; [reflexivity|].
      split; [constructor|]. split; [now constructor|].
      split; [constructor|]. constructor; [exact Sf|].
      simpl in Hx. rewrite Forall_forall in Hx, Hf. apply Forall_forall.
      intros y Hy. specialize (Hx y Hy).
      unfold key_le in Hx. rewrite Hr in Hx.
      destruct (rank_cases y) as [[Hry [Hyd|Hyn]]|[Hry _]].
      * destruct (Hf y Hy); congruence.
      * destruct (Hf y Hy); congruence.
      * rewrite Hry in Hx. exact Hx.
Qed.

(** An entry that no other entry precedes in key order stays first. *)
Lemma sort_keeps_least_first (x : FileItem) (l : list FileItem) :
  Forall (fun y => key_le (sort_key x) (sort_key y) = true) l ->
  sort_items (x :: l) = x :: sort_items l.
Proof.
  intros H. unfold sort_items, sort_by_key. simpl.
  fold (sort_by_key sort_key key_le l). fold (sort_items l).
  assert (Hs : Forall (fun y => key_le (sort_key x) (sort_key y) = true)
                      (sort_items l)).
  { rewrite Forall_forall in *. intros y Hy. apply H.
    apply Permutation_in with (sort_items l);
      [symmetry; apply sort_items_perm | exact Hy]. }
  destruct (sort_items l) as [|y s]; [reflexivity|]. simpl.
  inversion Hs as [|? ? Hy _]; subst. now rewrite Hy.
Qed.

(** The entry for the parent directory and the entries of a listing, as
    [_load_directory] builds them outside the mount point. *)
Lemma load_plain (fs : filesystem) (b : browser) (es : list string) :
  startswith (current_virtual_dir b) "/mnt/system" = false ->
  fs (current_real_dir b) = Some (Dir es) ->
  load_directory fs b
  = Some (with_items b
            (sort_items
               (add_plain fs (current_virtual_dir b)
                  (if negb (String.eqb (current_virtual_dir b) "/") then
                     [rename (new_FileItem fs (parent (current_real_dir b))
                                (str (parent (Path_of_string
                                                (current_virtual_dir b)))))
                             ".."]
                   else [])
                  (map (child (current_real_dir b)) es))), []).
Proof.
  intros Hm Hd. unfold load_directory.
  cbn [_load_directory]. rewrite Hm. unfold iterdir. now rewrite Hd.
Qed.



(** X14.  Outside the mount point and away from the virtual root, the
    parent entry is the first item whenever no directory of the listing
    has a lowered name that sorts before two dots. *)
Theorem parent_entry_first_when_names_allow
        (fs : filesystem) (b : browser) (es : list string) :
  startswith (current_virtual_dir b) "/mnt/system" = false ->
  current_virtual_dir b <> "/" ->
  fs (current_real_dir b) = Some (Dir es) ->
  (forall n, In n es -> HostFS.is_dir fs (child (current_real_dir b) n) = true ->
             String.leb ".." (lower n) = true) ->
  exists b' rest,
    load_directory fs b = Some (b', [])
    /\ items b'
       = rename (new_FileItem fs (parent (current_real_dir b))
                   (str (parent (Path_of_string (current_virtual_dir b)))))
                ".." :: rest.
Proof.
  intros Hm Hroot Hd Hnames. rewrite (load_plain fs b Hm Hd).
  apply String.eqb_neq in Hroot. rewrite Hroot. cbn [negb].
  unfold add_plain. cbn [app].
  eexists. eexists. split; [reflexivity|]. simpl items.
  apply sort_keeps_least_first.
  apply Forall_forall. intros y Hy.
  apply in_map_iff in Hy as (c & <- & Hc).
  apply in_map_iff in Hc as (n & <- & Hn).
  rewrite (@parent_key_is_directory_key (rename _ "..") eq_refl).
  set (y := new_FileItem fs (child (current_real_dir b) n) _).
  assert (Hname : name y = n) by apply ShellMarkerFacts.name_of_child.
  assert (Hdir : is_dir y = HostFS.is_dir fs (child (current_real_dir b) n))
    by reflexivity.
  unfold key_le, sort_key. cbn [fst snd]. rewrite Hname, Hdir.
  clearbody y.
  destruct (String.eqb n "..") eqn:En.
  - apply String.eqb_eq in En. rewrite En. reflexivity.
  - destruct (HostFS.is_dir fs (child (current_real_dir b) n)) eqn:Ed.
    + cbn [negb Nat.ltb Nat.leb Nat.eqb orb andb]. now apply Hnames.
    + reflexivity.
Qed.

Lemma parent_entry_first_when_names_allow_witness :
  exists b' rest,
    load_directory Demo.demo_fs
      (mkBrowser Demo.demo_root "/home" (mkPath Root1 ["srv"; "onex"; "home"])
                 [] 0 0)
    = Some (b', [])
    /\ items b'
       = rename (new_FileItem Demo.demo_fs (mkPath Root1 ["srv"; "onex"])
                              "/") ".." :: rest.
Proof.
  apply (@parent_entry_first_when_names_allow Demo.demo_fs
           (mkBrowser Demo.demo_root "/home"
                      (mkPath Root1 ["srv"; "onex"; "home"]) [] 0 0)
           ["ada"]).
  - reflexivity.
  - discriminate.
  - reflexivity.
  - intros n [<-|[]] _. reflexivity.
Defined.

End BrowserOrder.


(* ================================================================== *)
(** * The selection and the window of the file browser *)
(* ================================================================== *)

Module SelectionFacts.
Import PyStr PurePath HostFS Resolver Browser BrowserNav PyStrFacts.

Ltac flatten_tests :=
  repeat match goal with
         | |- context [(?a <? ?b)%Z] => destruct (Z.ltb_spec a b)
         | |- context [(?a >=? ?b)%Z] =>
             rewrite (Z.geb_leb a b); destruct (Z.leb_spec b a)
         end.

(** X15.  In a list that is not empty the selection is on an item after
    every move: a step that stays inside the list is taken as it is, any
    other is cut at the first or the last item, which is where Home and
    End lead. *)
Theorem selection_stays_on_an_item (n_items selection delta : Z) :
  (0 < n_items)%Z ->
  (0 <= _move_selection n_items selection delta < n_items)%Z
  /\ ((0 <= selection + delta < n_items)%Z ->
      _move_selection n_items selection delta = (selection + delta)%Z)
  /\ ((0 <= selection < n_items)%Z ->
      forall list_height,
        _move_selection n_items selection
                        (key_delta n_items list_height KEY_HOME) = 0%Z
        /\ _move_selection n_items selection
                           (key_delta n_items list_height KEY_END)
           = (n_items - 1)%Z).
Proof.
  intros Hn. unfold _move_selection, key_delta.
  split; [|split].
  - flatten_tests; lia.
  - intros H. flatten_tests; lia.
  - intros H h. split; flatten_tests; lia.
Qed.

Lemma selection_stays_on_an_item_witness :
  (0 <= _move_selection 3 2 5 < 3)%Z.
Proof.
  apply (@selection_stays_on_an_item 3 2 5). reflexivity.
Defined.

(** X16.  When the selection is on an item and the list has room for at
    least one row, the window placed by the drawing code holds the
    selected row, starts at or after the first item and no later than the
    last full window. *)
Theorem selection_stays_visible (n_items list_height selection offset : Z) :
  (1 <= list_height)%Z ->
  (0 <= selection < n_items)%Z ->
  (0 <= offset)%Z ->
  let offset' := window_offset n_items list_height selection offset in
  (0 <= offset' <= selection)%Z
  /\ (selection < offset' + list_height)%Z
  /\ (offset' <= Z.max 0 (n_items - list_height))%Z.
Proof.
  intros Hh Hs Ho. unfold window_offset. cbv zeta.
  destruct (Z.ltb_spec selection offset);
    match goal with
    | |- context [(?a >=? ?b)%Z] =>
        rewrite (Z.geb_leb a b); destruct (Z.leb_spec b a)
    end; lia.
Qed.

Lemma selection_stays_visible_witness :
  (0 <= window_offset 40 10 25 0 <= 25)%Z
  /\ (25 < window_offset 40 10 25 0 + 10)%Z
  /\ (window_offset 40 10 25 0 <= Z.max 0 (40 - 10))%Z.
Proof.
  apply (@selection_stays_visible 40 10 25 0); lia.
Defined.

(** X17.  In an empty list every move leaves the selection at minus one,
    which passes the test that guards the opening of an item: opening
    then raises [IndexError]. *)
Theorem move_in_empty_list_breaks_open
        (fs : filesystem) (b : browser) (selection delta : Z) :
  items b = [] ->
  _move_selection (Z.of_nat (List.length (items b))) selection delta = (-1)%Z
  /\ _action_open_item fs b
       (_move_selection (Z.of_nat (List.length (items b))) selection delta)
     = IndexError.
Proof.
  intros He.
  assert (Hm : _move_selection (Z.of_nat (List.length (items b)))
                               selection delta = (-1)%Z).
  { rewrite He. simpl. unfold _move_selection. flatten_tests; lia. }
  split; [exact Hm|]. rewrite Hm. unfold _action_open_item.
  rewrite He. reflexivity.
Qed.

Lemma move_in_empty_list_breaks_open_witness :
  _action_open_item Demo.demo_fs (__init__ Demo.demo_root "/")
    (_move_selection
       (Z.of_nat (List.length (items (__init__ Demo.demo_root "/")))) 0 1)
  = IndexError.
Proof.
  apply (@move_in_empty_list_breaks_open Demo.demo_fs
           (__init__ Demo.demo_root "/") 0 1).
  reflexivity.
Defined.

Lemma str_of_kept (r : anchor) (segs : list string) :
  Forall (fun x => kept x = true) segs ->
  is_empty (str (mkPath r segs)) = false.
Proof.
  intros H. unfold str. cbn [root segments].
  destruct r; [|now destruct segs|now destruct segs].
  destruct segs as [|x l]; [reflexivity|].
  inversion H as [|? ? Hx _]; subst.
  assert (Hne : x <> EmptyString) by (intros ->; discriminate).
  change (is_empty (join "/" (x :: l)) = false).
  apply is_empty_false. now apply join_cons_nonempty.
Qed.

Lemma Forall_removelast_kept (l : list string) :
  Forall (fun x => kept x = true) l ->
  Forall (fun x => kept x = true) (removelast l).
Proof. apply ResolverFacts.Forall_removelast. Qed.

Lemma parent_virtual_nonempty (v : string) :
  is_empty (str (parent (Path_of_string v))) = false.
Proof.
  unfold parent, Path_of_string. simpl.
  assert (Hk : Forall (fun x => kept x = true) (filter kept (split slash v))).
  { apply Forall_forall. intros x Hx. now apply filter_In in Hx. }
  destruct (filter kept (split slash v)) as [|x l] eqn:E.
  - rewrite <- E. apply str_of_kept. now rewrite E.
  - apply str_of_kept. now apply Forall_removelast_kept.
Qed.

(** X18.  Opening the entry for the parent directory does what going to
    the parent does. *)
Theorem open_parent_entry_goes_to_parent
        (fs0 fs : filesystem) (b : browser) (selection : Z) :
  current_virtual_dir b <> "/" ->
  (selection < Z.of_nat (List.length (items b)))%Z ->
  py_index (items b) selection = Some (parent_entry fs0 b) ->
  HostFS.is_dir fs0 (parent (current_real_dir b)) = true ->
  _action_open_item fs b selection = Entered (_action_go_parent fs b).
Proof.
  intros Hroot Hsel Hitem Hdir. unfold _action_open_item, _action_go_parent.
  rewrite Z.geb_leb. destruct (Z.leb_spec (Z.of_nat (List.length (items b)))
                                          selection); [lia|].
  rewrite Hitem. apply String.eqb_neq in Hroot. rewrite Hroot.
  unfold parent_entry, rename, new_FileItem. cbn [is_dir virtual_path path].
  rewrite Hdir. now rewrite parent_virtual_nonempty.
Qed.

Lemma open_parent_entry_goes_to_parent_witness :
  _action_open_item Demo.demo_fs Examples.loaded_browser 1
  = Entered (_action_go_parent Demo.demo_fs Examples.loaded_browser).
Proof.
  apply (@open_parent_entry_goes_to_parent Demo.demo_fs Demo.demo_fs
           Examples.loaded_browser 1).
  - discriminate.
  - reflexivity.
  - reflexivity.
  - reflexivity.
Defined.

End SelectionFacts.


(* ================================================================== *)
(** * Browsing stays in the virtual filesystem, outside the mount point *)
(* ================================================================== *)

Module BrowsingFacts.
Import PyStr PurePath HostFS HostIO Resolver Shell Browser BrowserNav
       BrowserInv PyStrFacts PathFacts ResolverFacts ResolverClaims
       CdNormalForm ResolverMore BrowserFacts BrowserOrder.

Lemma prefix_app (p a b : string) :
  String.prefix p a = true -> String.prefix p (a ++ b) = true.
Proof.
  revert a. induction p as [|c p IH]; intros a H;
    [apply (startswith_nothing (a ++ b))|].
  destruct a as [|d a]; [discriminate|]. simpl in *.
  destruct (Ascii.ascii_dec c d); [now apply IH | discriminate].
Qed.

Lemma not_mounted_prefix (a b : string) :
  startswith (a ++ b) mount_prefix = false ->
  startswith a mount_prefix = false.
Proof.
  unfold startswith. intros H.
  destruct (String.prefix mount_prefix a) eqn:E; [|reflexivity].
  now rewrite (prefix_app _ _ b E) in H.
Qed.

Lemma join_snoc (sep : string) (l : list string) (x : string) :
  l <> [] -> join sep (l ++ [x]) = (join sep l ++ sep ++ x)%string.
Proof.
  unfold join. induction l as [|y l IH]; [congruence|]. intros _.
  destruct l as [|z l].
  - reflexivity.
  - change (String.concat sep ((y :: z :: l) ++ [x]))
      with (y ++ sep ++ String.concat sep ((z :: l) ++ [x]))%string.
    rewrite IH by discriminate.
    change (String.concat sep (y :: z :: l))
      with (y ++ sep ++ String.concat sep (z :: l))%string.
    now rewrite !append_assoc.
Qed.

Lemma parent_of_segments (r : anchor) (l : list string) :
  l <> [] -> parent (mkPath r l) = mkPath r (removelast l).
Proof. intros H. unfold parent; simpl. destruct l; [congruence | reflexivity]. Qed.

(** The virtual parent of a normalised directory. *)
Lemma parent_of_normalized (v : string) :
  normalized_dir v = true -> v <> "/" ->
  let pv := str (parent (Path_of_string v)) in
  normalized_dir pv = true
  /\ (exists tail, v = (pv ++ tail)%string)
  /\ normalize v <> []
  /\ normalize pv = removelast (normalize v).
Proof.
  intros Hn Hroot.
  destruct (normalized_dir_cases _ Hn) as [->|(rest & -> & Hp)]; [congruence|].
  cbv zeta. rewrite (Path_of_normalized _ Hp), (normalize_normalized _ Hp).
  pose proof (split_not_nil slash rest) as Hne.
  rewrite parent_of_segments by exact Hne.
  assert (Hplain : Forall plain_segment (removelast (split slash rest)))
    by (apply Forall_removelast; now apply forallb_plain).
  split; [now apply normalized_of_segments|]. split; [|split; [exact Hne|]].
  - destruct (split slash rest) as [|x l] eqn:E using rev_ind; [congruence|].
    clear IHl. rewrite removelast_last.
    pose proof (join_split slash rest) as Hj. rewrite E in Hj.
    destruct l as [|y l].
    + simpl in Hj. subst x. now exists rest.
    + rewrite join_snoc in Hj by discriminate.
      exists (String slash x). rewrite <- Hj. unfold str; simpl.
      reflexivity.
  - destruct (removelast (split slash rest)) as [|y l] eqn:E; [reflexivity|].
    change (str (mkPath Root1 (y :: l)))
      with (String slash (join "/" (y :: l))).
    rewrite normalize_normalized.
    + change "/" with (String slash EmptyString).
      apply split_join; [discriminate | now apply plain_no_slash].
    + unfold plain_relative. change "/" with (String slash EmptyString).
      rewrite split_join; [now apply forallb_plain | discriminate |].
      now apply plain_no_slash.
Qed.

Lemma plain_not_rooted (n : string) :
  plain_segment n -> startswith n "/" = false.
Proof.
  intros (Hne & _ & _ & Hs). destruct n as [|c r]; [congruence|].
  rewrite startswith_slash. simpl in Hs.
  now apply orb_false_iff in Hs as [Hc _].
Qed.

Lemma plain_is_relative (n : string) :
  plain_segment n -> plain_relative n = true.
Proof.
  intros Hn. unfold plain_relative. rewrite split_clean by apply Hn.
  simpl. rewrite andb_true_r. now apply plain_segmentb_spec.
Qed.

(** The virtual path of an entry of a normalised directory. *)
Lemma child_of_normalized (v n : string) :
  normalized_dir v = true -> plain_segment n ->
  normalized_dir (posix_join v n) = true
  /\ normalize (posix_join v n) = normalize v ++ [n].
Proof.
  intros Hn Hp. unfold posix_join. rewrite (plain_not_rooted Hp).
  destruct (normalized_dir_cases _ Hn) as [->|(rest & -> & Hr)].
  - cbn [is_empty endswith_char orb]. simpl Ascii.eqb. cbn [orb].
    change ("/" ++ n)%string with (String slash n).
    split; [apply normalized_dir_intro; now apply plain_is_relative|].
    rewrite normalize_normalized by now apply plain_is_relative.
    now rewrite split_clean by apply Hp.
  - destruct (plain_relative_head _ Hr) as (c & r & -> & Hc).
    pose proof (plain_relative_no_trailing _ Hr) as Hend.
    cbn [is_empty orb].
    change (endswith_char (String slash (String c r)) slash)
      with (endswith_char (String c r) slash).
    rewrite Hend.
    change (String slash (String c r) ++ "/" ++ n)%string
      with (String slash (String c r ++ String slash n)).
    assert (Hs : split slash (String c r ++ String slash n)
                 = split slash (String c r) ++ [n])
      by (rewrite split_app; f_equal; now apply split_clean, Hp).
    assert (Hpl : plain_relative (String c r ++ String slash n) = true).
    { unfold plain_relative. rewrite Hs, forallb_app.
      apply andb_true_iff. split; [exact Hr|].
      simpl. rewrite andb_true_r. now apply plain_segmentb_spec. }
    split; [now apply normalized_dir_intro|].
    now rewrite !normalize_normalized, Hs by assumption.
Qed.

(** Outside the mount prefix, loading keeps the two directories and
    replaces the items. *)
Lemma load_outside (fs : filesystem) (b b' : browser) (pops : list popup) :
  startswith (current_virtual_dir b) "/mnt/system" = false ->
  load_directory fs b = Some (b', pops) ->
  exists l,
    b' = with_items b l
    /\ Forall (fun item =>
                 In item (if negb (String.eqb (current_virtual_dir b) "/")
                          then [parent_entry fs b] else [])
                 \/ exists es n,
                      fs (current_real_dir b) = Some (Dir es) /\ In n es
                      /\ item = new_FileItem fs (child (current_real_dir b) n)
                                  (posix_join (current_virtual_dir b) n)) l.
Proof.
  intros Hm. unfold load_directory. cbn [_load_directory]. rewrite Hm.
  unfold iterdir. fold (parent_entry fs b).
  destruct (fs (current_real_dir b)) as [[f|es]|] eqn:E;
    intros H; injection H as <- <-; eexists; (split; [reflexivity|]).
  - apply Forall_forall. intros item Hi. now left.
  - apply Forall_forall. intros item Hi.
    apply Permutation_in with (l' := add_plain fs (current_virtual_dir b)
             (if negb (String.eqb (current_virtual_dir b) "/")
              then [parent_entry fs b] else [])
             (map (child (current_real_dir b)) es)) in Hi;
      [|symmetry; apply sort_items_perm].
    unfold add_plain in Hi. apply in_app_iff in Hi as [Hi|Hi]; [now left|].
    right. apply in_map_iff in Hi as (c & <- & Hc).
    apply in_map_iff in Hc as (n & <- & Hn).
    exists es, n. split; [reflexivity|]. split; [exact Hn|].
    now rewrite ShellMarkerFacts.name_of_child.
  - apply Forall_forall. intros item Hi. now left.
Qed.

Lemma loaded_items_listed (fs : filesystem) (b b' : browser)
      (pops : list popup) :
  listings_plain fs ->
  startswith (current_virtual_dir b) "/mnt/system" = false ->
  load_directory fs b = Some (b', pops) ->
  current_virtual_dir b' = current_virtual_dir b
  /\ current_real_dir b' = current_real_dir b
  /\ fs_root b' = fs_root b
  /\ Forall (listed b') (items b').
Proof.
  intros Hfs Hm Hload.
  destruct (@load_outside fs b b' pops Hm Hload) as (l & -> & Hl).
  repeat split. simpl.
  apply Forall_forall. intros item Hi.
  rewrite Forall_forall in Hl. destruct (Hl item Hi) as [Hp|(es & n & He & Hn & ->)].
  - left. unfold with_items; simpl.
    destruct (String.eqb (current_virtual_dir b) "/") eqn:E; [destruct Hp|].
    destruct Hp as [<-|[]]. apply String.eqb_neq in E. now repeat split.
  - right. exists n. split; [|now split].
    apply Hfs in He. rewrite Forall_forall in He. now apply He.
Qed.

Lemma py_index_In (A : Type) (l : list A) (i : Z) (x : A) :
  py_index l i = Some x -> In x l.
Proof.
  unfold py_index. destruct (i <? 0)%Z.
  - destruct (i + Z.of_nat (List.length l) <? 0)%Z; [discriminate|].
    apply nth_error_In.
  - apply nth_error_In.
Qed.

(** The browser moved to the parent directory, before it loads it. *)
Lemma parent_in_step (b : browser) :
  normalized_dir (current_virtual_dir b) = true ->
  startswith (current_virtual_dir b) "/mnt/system" = false ->
  in_step b -> current_virtual_dir b <> "/" ->
  let pv := str (parent (Path_of_string (current_virtual_dir b))) in
  normalized_dir pv = true
  /\ startswith pv "/mnt/system" = false
  /\ parent (current_real_dir b)
     = FileManager._virtual_to_real_path (fs_root b) pv.
Proof.
  intros Hn Hm Hs Hroot.
  destruct (@parent_of_normalized (current_virtual_dir b) Hn Hroot) as (Hpn & [tail Ht] & Hne & Hnorm).
  cbv zeta. split; [exact Hpn|].
  assert (Hpm : startswith (str (parent (Path_of_string (current_virtual_dir b))))
                           "/mnt/system" = false).
  { apply (@not_mounted_prefix _ tail). now rewrite <- Ht. }
  split; [exact Hpm|].
  unfold in_step in Hs. rewrite Hs.
  rewrite (@filemanager_sandboxed (fs_root b) _ Hm),
    (@filemanager_sandboxed (fs_root b) _ Hpm).
  rewrite Hnorm, parent_of_segments.
  - now rewrite removelast_app.
  - intros E. apply app_eq_nil in E as [_ E]. contradiction.
Qed.

Lemma child_in_step (b : browser) (n : string) :
  normalized_dir (current_virtual_dir b) = true ->
  startswith (current_virtual_dir b) "/mnt/system" = false ->
  in_step b -> plain_segment n ->
  startswith (posix_join (current_virtual_dir b) n) "/mnt/system" = false ->
  normalized_dir (posix_join (current_virtual_dir b) n) = true
  /\ child (current_real_dir b) n
     = FileManager._virtual_to_real_path
         (fs_root b) (posix_join (current_virtual_dir b) n).
Proof.
  intros Hn Hm Hs Hp Hcm.
  destruct (@child_of_normalized (current_virtual_dir b) n Hn Hp) as [Hcn Hnorm].
  split; [exact Hcn|].
  unfold in_step in Hs. rewrite Hs.
  rewrite (@filemanager_sandboxed (fs_root b) _ Hm),
    (@filemanager_sandboxed (fs_root b) _ Hcm).
  rewrite Hnorm. unfold child; simpl. now rewrite app_assoc.
Qed.





End BrowsingFacts.


(* ================================================================== *)
(** * The registry after a scan, and its listing *)
(* ================================================================== *)

Module RegistryFacts.
Import PyStr PurePath HostFS HostIO Resolver Apps AppRun PyStrFacts PathFacts
       HostIOFacts RescanFacts InstallCopies RoundtripFacts OrderFacts
       BrowserFacts.

Section Filed.
Variable json_load : string -> option descriptor.
Variable exec_module : string -> option module_attrs.
Variables (base_path fs_root : Path).

#[local] Abbreviation user_entry :=
  (fun e : string * AppInfo => name (snd e) = fst e /\ system_app (snd e) = false).
#[local] Abbreviation system_entry :=
  (fun e : string * AppInfo => name (snd e) = fst e /\ system_app (snd e) = true).
#[local] Abbreviation filed :=
  (fun r : registry =>
     Forall user_entry (apps r) /\ Forall system_entry (system_apps r)
     /\ NoDup (map fst (apps r)) /\ NoDup (map fst (system_apps r))).

Lemma register_filed (r : registry) (app_info : AppInfo) :
filed r -> filed (register r app_info).
Proof.
intros (Hu & Hs & Nu & Ns). unfold register.
destruct (system_app app_info) eqn:E; simpl.
- split; [exact Hu|]. split; [|split; [exact Nu|]].
  + apply dict_set_Forall; [exact Hs | now split].
  + now apply dict_set_nodup.
- split; [|split; [exact Hs|split; [|exact Ns]]].
  + apply dict_set_Forall; [exact Hu | now split].
  + now apply dict_set_nodup.
Qed.

Lemma scan_app_dir_filed (fs : filesystem) (acc : registry * list output)
    (A : Path) :
filed (fst acc) -> filed (fst (scan_app_dir json_load exec_module fs acc A)).
Proof.
intros H. unfold scan_app_dir. destruct (is_dir fs A); [|exact H].
destruct (_load_app_info json_load exec_module fs A) as [[info|] out];
  [|exact H].
now apply register_filed.
Qed.

Lemma scan_fold_filed (fs : filesystem) (l : list Path) :
forall acc,
  filed (fst acc) ->
  filed (fst (fold_left (scan_app_dir json_load exec_module fs) l acc)).
Proof.
induction l as [|A l IH]; intros acc H; simpl; [exact H|].
apply IH. now apply scan_app_dir_filed.
Qed.

Lemma scan_system_item_filed (fs : filesystem) (r : registry) (item : Path) :
filed r -> filed (scan_system_item fs r item).
Proof.
intros (Hu & Hs & Nu & Ns). unfold scan_system_item.
destruct (is_system_script fs item); [|now repeat split]. simpl.
split; [exact Hu|]. split; [|split; [exact Nu|]].
- apply dict_set_Forall; [exact Hs | now split].
- now apply dict_set_nodup.
Qed.

Lemma scan_system_fold_filed (fs : filesystem) (l : list Path) :
forall r, filed r -> filed (fold_left (scan_system_item fs) l r).
Proof.
induction l as [|x l IH]; intros r H; simpl; [exact H|].
apply IH. now apply scan_system_item_filed.
Qed.

Lemma scan_apps_filed (fs : filesystem) (r : registry) (out : list output) :
scan_apps json_load exec_module base_path fs_root fs = Some (r, out) ->
filed r.
Proof.
unfold scan_apps.
assert (H0 : filed (mkRegistry [] []))
  by (repeat split; constructor).
destruct (if exists_ fs (apps_dir base_path) then _ else _)
  as [[r1 out1]|] eqn:E1; [|discriminate].
assert (H1 : filed r1).
{ destruct (exists_ fs (apps_dir base_path)).
  - destruct (iterdir fs (apps_dir base_path)) as [l|]; [|discriminate].
    simpl in E1. injection E1 as E1.
    pose proof (@scan_fold_filed fs l (mkRegistry [] [], []) H0) as H.
    now rewrite E1 in H.
  - injection E1 as <- _. exact H0. }
destruct (exists_ fs (system_apps_dir fs_root)).
- destruct (iterdir fs (system_apps_dir fs_root)) as [l|]; [|discriminate].
  simpl. intros H; injection H as <- _.
  now apply scan_system_fold_filed.
- intros H; injection H as <- _. exact H1.
Qed.

(** X21.  In the registry a scan returns, every application is filed
  under its own name, the user namespace holds only applications whose
  system flag is off and the system namespace only applications whose
  flag is on, and no name is filed twice in a namespace. *)
Theorem scan_files_apps_under_their_names
      (fs : filesystem) (r : registry) (out : list output) :
scan_apps json_load exec_module base_path fs_root fs = Some (r, out) ->
(forall k v, dict_get (apps r) k = Some v ->
             name v = k /\ system_app v = false)
/\ (forall k v, dict_get (system_apps r) k = Some v ->
                name v = k /\ system_app v = true)
/\ NoDup (map fst (apps r))
/\ NoDup (map fst (system_apps r)).
Proof.
intros Hscan.
destruct (@scan_apps_filed fs r out Hscan) as (Hu & Hs & Nu & Ns).
rewrite Forall_forall in Hu, Hs.
split; [|split; [|now split]].
- intros k v Hg. apply dict_get_In in Hg. exact (Hu _ Hg).
- intros k v Hg. apply dict_get_In in Hg. exact (Hs _ Hg).
Qed.

End Filed.

Lemma scan_files_apps_under_their_names_witness :
  (forall k v, dict_get (apps Demo.demo_registry) k = Some v ->
               name v = k /\ system_app v = false)
  /\ (forall k v, dict_get (system_apps Demo.demo_registry) k = Some v ->
                  name v = k /\ system_app v = true)
  /\ NoDup (map fst (apps Demo.demo_registry))
  /\ NoDup (map fst (system_apps Demo.demo_registry)).
Proof.
  apply (@scan_files_apps_under_their_names
           Demo.demo_json_load Demo.demo_exec_module Demo.demo_base
           Demo.demo_fs_root Demo.demo_apps_fs Demo.demo_registry
           [Summary 1 1]).
  reflexivity.
Defined.

(** X22.  The list of applications holds every application of the user
    namespace once, and with them those of the system namespace when
    they are asked for, in ascending order of the names. *)
Theorem get_app_list_sorted_by_name (r : registry) (include_system : bool) :
  Permutation
    (values (apps r)
       ++ (if include_system then values (system_apps r) else []))
    (get_app_list r include_system)
  /\ StronglySorted (fun a b => String.leb (name a) (name b) = true)
                    (get_app_list r include_system).
Proof.
  unfold get_app_list. split.
  - destruct include_system; [|rewrite app_nil_r]; apply sort_by_key_perm.
  - apply Sorted_StronglySorted.
    + intros a b c. apply string_leb_trans.
    + apply (@sort_by_key_sorted AppInfo string name String.leb).
      apply String.leb_total.
Qed.

(** Parsing the text of a parsed path gives the path back. *)
Lemma first_not_slash (x : string) (l : list string) :
  kept x = true -> mem_char slash x = false ->
  exists c rest, join "/" (x :: l) = String c rest /\ Ascii.eqb c slash = false.
Proof.
  intros Hk Hs. destruct x as [|c x]; [discriminate|].
  simpl in Hs. apply orb_false_iff in Hs as [Hc _].
  destruct l; simpl; eauto.
Qed.

Lemma filter_kept_all (l : list string) :
  Forall (fun x => kept x = true /\ mem_char slash x = false) l ->
  filter kept l = l.
Proof.
  induction 1 as [|x l [Hx _] _ IH]; simpl; [reflexivity|].
  now rewrite Hx, IH.
Qed.

Lemma split_join_parsed (l : list string) :
  l <> [] ->
  Forall (fun x => kept x = true /\ mem_char slash x = false) l ->
  split slash (join "/" l) = l.
Proof.
  intros Hne H. change "/" with (String slash EmptyString).
  apply split_join; [exact Hne|].
  eapply Forall_impl; [|exact H]. now intros x [_ Hx].
Qed.

Lemma Path_of_str (p : Path) :
  parsed p -> Path_of_string (str p) = p.
Proof.
  destruct p as [r segs]. unfold parsed; simpl. intros H.
  destruct segs as [|x l].
  - now destruct r.
  - inversion H as [|? ? [Hk Hs] Hl]; subst.
    destruct (@first_not_slash x l Hk Hs) as (c & rest & Ej & Hc).
    pose proof (@split_join_parsed (x :: l) ltac:(discriminate) H) as Hsp.
    unfold Path_of_string, str. cbn [root segments].
    destruct r; cbn [root_str].
    + change (EmptyString ++ join "/" (x :: l))%string with (join "/" (x :: l)).
      rewrite Hsp, (@filter_kept_all (x :: l) H). f_equal.
      rewrite Ej. simpl. now rewrite Hc.
    + change ("/" ++ join "/" (x :: l))%string
        with (String slash (join "/" (x :: l))).
      change (split slash (String slash (join "/" (x :: l))))
        with (EmptyString :: split slash (join "/" (x :: l))).
      rewrite Hsp.
      change (filter kept (EmptyString :: x :: l)) with (filter kept (x :: l)).
      rewrite (@filter_kept_all (x :: l) H). f_equal.
      rewrite Ej. simpl. now rewrite Hc.
    + change ("//" ++ join "/" (x :: l))%string
        with (String slash (String slash (join "/" (x :: l)))).
      change (split slash (String slash (String slash (join "/" (x :: l)))))
        with (EmptyString :: EmptyString :: split slash (join "/" (x :: l))).
      rewrite Hsp.
      change (filter kept (EmptyString :: EmptyString :: x :: l))
        with (filter kept (x :: l)).
      rewrite (@filter_kept_all (x :: l) H). f_equal.
      rewrite Ej. simpl. now rewrite Hc.
Qed.

(** X23.  Rebuilding an application record from its dictionary gives the
    record back, when its path is one the path parser could have
    produced; the base path handed to [from_dict] plays no part. *)
Theorem from_dict_to_dict (a : AppInfo) (base_path : Path) :
  parsed (path a) -> from_dict (to_dict a) base_path = a.
Proof.
  intros H. unfold from_dict, to_dict; simpl.
  rewrite (@Path_of_str (path a) H). now destruct a.
Qed.

Lemma from_dict_to_dict_witness :
  from_dict (to_dict (mkApp "calc" Demo.demo_calc_source "py" EmptyString
                            "1.0.0" EmptyString false)) Demo.demo_base
  = mkApp "calc" Demo.demo_calc_source "py" EmptyString "1.0.0" EmptyString
          false.
Proof.
  apply (@from_dict_to_dict
           (mkApp "calc" Demo.demo_calc_source "py" EmptyString "1.0.0"
                  EmptyString false) Demo.demo_base).
  repeat constructor.
Defined.

End RegistryFacts.


(* ================================================================== *)
(** * Starting applications, and the table of applications *)
(* ================================================================== *)

Module RunFacts.
Import PyStr PurePath HostFS HostIO Resolver Apps AppRun ShellCompat
       PyStrFacts PathFacts HostIOFacts.

Section Launch.
Variable json_load : string -> option descriptor.
Variable exec_module : string -> option module_attrs.
Variable python : string.
Variable fs_root : Path.

Lemma dir_not_file (fs : filesystem) (p : Path) :
is_dir fs p = true -> is_file fs p = false.
Proof. unfold is_dir, is_file. now destruct (fs p) as [[f|es]|]. Qed.

Lemma chmod_existing (fs : filesystem) (p : Path) :
exists_ fs p = true -> exists fs', chmod_755 p fs = (fs', inr tt).
Proof.
unfold exists_, chmod_755.
destruct (fs p) as [[f|es]|]; [eauto | eauto | discriminate].
Qed.


(** X25.  Starting an application changes no content on the host: a
  path holds afterwards what it held before, or a regular file with the
  same content that has been made readable and executable. *)
Theorem launch_changes_only_modes
      (app_name : string) (app_info : AppInfo) (args : list string)
      (fs : filesystem) (q : Path) :
let fs' := fst (launch python fs_root app_name app_info args fs) in
fs' q = fs q
\/ exists f, fs q = Some (File f)
             /\ fs' q = Some (File (mkFile (content f) true true)).
Proof.
cbv zeta. unfold launch.
destruct (String.eqb (app_type app_info) "py").
{ destruct (system_app app_info && is_file fs (path app_info)); [now left|].
  destruct (negb (exists_ fs _)); [now left|].
  destruct (_ || _); now left. }
destruct (String.eqb (app_type app_info) "sh"); [|now left].
set (script := if system_app app_info && is_file fs (path app_info)
               then _ else _).
destruct script as [p|]; [|now left].
unfold chmod_755. destruct (fs p) as [[f|es]|] eqn:Ep; simpl; try now left.
destruct (Path_eqb q p) eqn:E.
- apply Path_eqb_eq in E. subst q. right. exists f.
  split; [exact Ep | apply fs_set_same].
- left. apply fs_set_other. now apply Path_eqb_neq.
Qed.

End Launch.


(** ** Substrings *)

Lemma prefix_spec (p s : string) :
  String.prefix p s = true <-> exists post, s = (p ++ post)%string.
Proof.
  revert s. induction p as [|c p IH]; intros s.
  - split; [intros _; now exists s | intros _; apply startswith_nothing].
  - destruct s as [|d s]; simpl.
    + split; [discriminate | intros [post H]; discriminate].
    + destruct (Ascii.ascii_dec c d) as [->|Hne].
      * rewrite IH. split; intros [post H]; exists post.
        -- now rewrite H.
        -- now injection H.
      * split; [discriminate|]. intros [post H]. injection H as H _.
        congruence.
Qed.

Lemma contains_spec (needle hay : string) :
  contains needle hay = true
  <-> exists pre post, hay = (pre ++ needle ++ post)%string.
Proof.
  induction hay as [|c hay IH].
  - change (contains needle EmptyString)
      with (String.prefix needle EmptyString || false).
    rewrite orb_false_r, prefix_spec. split.
    + intros [post H]. now exists EmptyString, post.
    + intros ([|d pre] & post & H); [now exists post | discriminate].
  - change (contains needle (String c hay))
      with (String.prefix needle (String c hay) || contains needle hay).
    rewrite orb_true_iff, prefix_spec, IH. split.
    + intros [[post H]|(pre & post & H)].
      * now exists EmptyString, post.
      * exists (String c pre), post. simpl. now rewrite H.
    + intros ([|d pre] & post & H).
      * left. now exists post.
      * right. injection H as _ H. now exists pre, post.
Qed.

Lemma contains_tail (a b hay : string) :
  contains (a ++ b) hay = true -> contains b hay = true.
Proof.
  rewrite !contains_spec. intros (pre & post & ->).
  exists (pre ++ a)%string, post. now rewrite !append_assoc.
Qed.

(** X26.  The shell of the host is reported as unknown exactly when its
    path does not contain the letters [sh]; otherwise the report is one
    of the five known names, and it is [sh] only for a path that
    contains none of the four longer names. *)
Theorem detect_shell_unknown_iff_no_sh (shell_path : string) :
  (_detect_shell shell_path = "unknown" <-> contains "sh" shell_path = false)
  /\ (contains "sh" shell_path = true ->
      In (_detect_shell shell_path) ["bash"; "zsh"; "fish"; "dash"; "sh"])
  /\ (_detect_shell shell_path = "sh" ->
      contains "bash" shell_path = false /\ contains "zsh" shell_path = false
      /\ contains "fish" shell_path = false
      /\ contains "dash" shell_path = false).
Proof.
  unfold _detect_shell.
  pose proof (@contains_tail "ba" "sh" shell_path) as Hbash.
  pose proof (@contains_tail "z" "sh" shell_path) as Hzsh.
  pose proof (@contains_tail "fi" "sh" shell_path) as Hfish.
  pose proof (@contains_tail "da" "sh" shell_path) as Hdash.
  change ("ba" ++ "sh")%string with "bash" in Hbash.
  change ("z" ++ "sh")%string with "zsh" in Hzsh.
  change ("fi" ++ "sh")%string with "fish" in Hfish.
  change ("da" ++ "sh")%string with "dash" in Hdash.
  destruct (contains "bash" shell_path);
    [rewrite (Hbash eq_refl); repeat split; try discriminate; simpl; auto|].
  destruct (contains "zsh" shell_path);
    [rewrite (Hzsh eq_refl); repeat split; try discriminate; simpl; auto|].
  destruct (contains "fish" shell_path);
    [rewrite (Hfish eq_refl); repeat split; try discriminate; simpl; auto|].
  destruct (contains "dash" shell_path);
    [rewrite (Hdash eq_refl); repeat split; try discriminate; simpl; auto 6|].
  destruct (contains "sh" shell_path);
    repeat split; try discriminate; simpl; auto 6.
Qed.

(** ** The table of applications *)

Lemma length_append (a b : string) :
  String.length (a ++ b) = String.length a + String.length b.
Proof. induction a as [|c a IH]; simpl; [reflexivity | now rewrite IH]. Qed.

Lemma length_spaces (n : nat) : String.length (spaces n) = n.
Proof. induction n as [|n IH]; simpl; [reflexivity | now rewrite IH]. Qed.

Lemma length_dashes (n : nat) : String.length (dashes n) = n.
Proof. induction n as [|n IH]; simpl; [reflexivity | now rewrite IH]. Qed.

Lemma length_ljust (s : string) (w : nat) :
  String.length (ljust s w) = Nat.max (String.length s) w.
Proof. unfold ljust. rewrite length_append, length_spaces. lia. Qed.

Lemma max_len_ge (s : string) (l : list string) :
  In s l -> String.length s <= max_len l.
Proof.
  unfold max_len. induction l as [|x l IH]; simpl; [intros []|].
  intros [->|H]; [lia|]. specialize (IH H). lia.
Qed.

(** X27.  The table of applications has, after its title, a heading, a
    rule and one row for each application of the list, in the order of
    the list.  In every row the description starts at the same column,
    the sum of the two widths; the heading puts its last word at that
    column only when the names leave room for four characters and the
    versions for eight. *)
Theorem list_apps_rows_are_aligned (r : registry) (args : list string) :
  let show_all :=
    existsb (String.eqb "--all") args || existsb (String.eqb "-a") args in
  let listed := get_app_list r show_all in
  listed <> [] ->
  exists name_width version_width title heading rule,
    _list_apps r args
    = title :: heading :: rule
        :: map (app_row name_width version_width) listed
    /\ String.length rule = name_width + version_width + 40
    /\ (exists pre, heading = (pre ++ "Descrizione")%string
                    /\ String.length pre
                       = Nat.max 4 name_width + Nat.max 8 version_width)
    /\ Forall (fun app =>
                 exists pre,
                   app_row name_width version_width app
                   = (pre ++ description app)%string
                   /\ String.length pre = name_width + version_width)
              listed.
Proof.
  intros show_all listed Hne. unfold _list_apps.
  fold show_all. fold listed.
  destruct listed as [|a l] eqn:El; [congruence|]. rewrite <- El.
  set (nw := max_len (map name listed) + 2).
  set (vw := max_len (map version listed) + 2).
  exists nw, vw. eexists. eexists. eexists.
  split; [reflexivity|]. split; [apply length_dashes|]. split.
  - exists (ljust "Nome" nw ++ ljust "Versione" vw)%string.
    split; [now rewrite append_assoc|].
    now rewrite length_append, !length_ljust.
  - apply Forall_forall. intros app Happ.
    exists (ljust (name app) nw ++ ljust (version app) vw)%string.
    split; [unfold app_row; now rewrite append_assoc|].
    rewrite length_append, !length_ljust.
    assert (Hn : String.length (name app) <= max_len (map name listed))
      by (apply max_len_ge, in_map, Happ).
    assert (Hv : String.length (version app) <= max_len (map version listed))
      by (apply max_len_ge, in_map, Happ).
    unfold nw, vw. lia.
Qed.

Lemma list_apps_rows_are_aligned_witness :
  exists name_width version_width title heading rule,
    _list_apps Demo.demo_registry ["--all"]
    = title :: heading :: rule
        :: map (app_row name_width version_width)
               (get_app_list Demo.demo_registry true)
    /\ String.length rule = name_width + version_width + 40
    /\ (exists pre, heading = (pre ++ "Descrizione")%string
                    /\ String.length pre
                       = Nat.max 4 name_width + Nat.max 8 version_width)
    /\ Forall (fun app =>
                 exists pre,
                   app_row name_width version_width app
                   = (pre ++ description app)%string
                   /\ String.length pre = name_width + version_width)
              (get_app_list Demo.demo_registry true).
Proof.
  apply (@list_apps_rows_are_aligned Demo.demo_registry ["--all"]).
  discriminate.
Defined.

End RunFacts.


(* ================================================================== *)
(** * The text viewer *)
(* ================================================================== *)

Module ViewerFacts.
Import PyStr BrowserNav TextViewer.

Lemma py_index_nat (A : Type) (l : list A) (i : nat) :
  py_index l (Z.of_nat i) = nth_error l i.
Proof.
  unfold py_index. destruct (Z.ltb_spec (Z.of_nat i) 0); [lia|].
  now rewrite Nat2Z.id.
Qed.

Lemma skipn_nth (A : Type) (l : list A) :
  forall a x, nth_error l a = Some x -> skipn a l = x :: skipn (S a) l.
Proof.
  induction l as [|y l IH]; intros [|a] x; simpl; try discriminate.
  - now intros H; injection H as ->.
  - intros H. now rewrite (IH a x H).
Qed.

Lemma fetch_consecutive (lines : list string) (k : nat) :
  forall a, a + k <= List.length lines ->
            fetch_all lines (map Z.of_nat (seq a k))
            = Some (firstn k (skipn a lines)).
Proof.
  induction k as [|k IH]; intros a Ha; [reflexivity|].
  cbn [seq map fetch_all]. rewrite py_index_nat.
  destruct (nth_error lines a) as [line|] eqn:E.
  - rewrite IH by lia. now rewrite (skipn_nth _ _ E).
  - apply nth_error_None in E. lia.
Qed.

Lemma shifted_seq (a k : nat) :
  map (fun i => a + i) (seq 0 k) = seq a k.
Proof.
  revert a. induction k as [|k IH]; intros a; simpl; [reflexivity|].
  rewrite Nat.add_0_r. f_equal.
  rewrite <- seq_shift, map_map, <- (IH (S a)).
  apply map_ext. intros i. lia.
Qed.

Lemma shifted_range (top m : Z) :
  (0 <= top)%Z ->
  map (fun i => (top + i)%Z) (range m)
  = map Z.of_nat (seq (Z.to_nat top) (Z.to_nat m)).
Proof.
  intros Ht. unfold range.
  rewrite map_map, <- (shifted_seq (Z.to_nat top) (Z.to_nat m)), map_map.
  apply map_ext. intros i. lia.
Qed.

(** X28.  While the text has a line and the screen a row for it, every
    key leaves the first line shown inside the text, and the pass that
    follows draws the lines from there on, as many as fit. *)
Theorem viewer_stays_in_the_text
        (lines : list string) (max_lines top_line : Z) (k : move_key) :
  let n := Z.of_nat (List.length lines) in
  (1 <= max_lines)%Z ->
  (0 <= top_line < n)%Z ->
  let top' := viewer_step n max_lines top_line k in
  (0 <= top' < n)%Z
  /\ drawn lines max_lines top'
     = Some (firstn (Z.to_nat (Z.min max_lines (n - top')))
                    (skipn (Z.to_nat top') lines)).
Proof.
  intros n Hm Ht top'.
  assert (Hin : (0 <= top' < n)%Z)
    by (unfold top', viewer_step; destruct k; lia).
  split; [exact Hin|].
  unfold drawn. fold n. rewrite shifted_range by lia.
  apply fetch_consecutive. unfold n in *. lia.
Qed.

Lemma viewer_stays_in_the_text_witness :
  (0 <= viewer_step 3 2 1 KEY_NPAGE < 3)%Z
  /\ drawn ["a"; "b"; "c"] 2 (viewer_step 3 2 1 KEY_NPAGE)
     = Some (firstn (Z.to_nat (Z.min 2 (3 - viewer_step 3 2 1 KEY_NPAGE)))
                    (skipn (Z.to_nat (viewer_step 3 2 1 KEY_NPAGE))
                           ["a"; "b"; "c"])).
Proof.
  apply (@viewer_stays_in_the_text ["a"; "b"; "c"] 2 1 KEY_NPAGE);
    simpl; lia.
Defined.

(** X29.  On a text without lines, the keys that move down leave the
    first line shown at minus one, and the pass that follows raises
    [IndexError]. *)
Theorem viewer_breaks_on_empty_text (max_lines : Z) (k : move_key) :
  (1 <= max_lines)%Z ->
  k = KEY_DOWN \/ k = KEY_NPAGE ->
  viewer_step 0 max_lines 0 k = (-1)%Z
  /\ drawn [] max_lines (viewer_step 0 max_lines 0 k) = None.
Proof.
  intros Hm Hk.
  assert (Hs : viewer_step 0 max_lines 0 k = (-1)%Z)
    by (destruct Hk as [-> | ->]; unfold viewer_step; lia).
  split; [exact Hs|]. rewrite Hs. unfold drawn. simpl List.length.
  replace (Z.min max_lines (Z.of_nat 0 - -1)) with 1%Z by lia.
  reflexivity.
Qed.

Lemma viewer_breaks_on_empty_text_witness :
  viewer_step 0 20 0 KEY_DOWN = (-1)%Z
  /\ drawn [] 20 (viewer_step 0 20 0 KEY_DOWN) = None.
Proof.
  apply (@viewer_breaks_on_empty_text 20 KEY_DOWN); [lia | now left].
Defined.

End ViewerFacts.


(* ================================================================== *)
(** * What an installation leaves in place, and what a scan reads *)
(* ================================================================== *)

Module InstallKeeps.
Import PyStr PurePath HostFS HostIO Resolver Apps InstallInv HostIOFacts
       InstallCopies.

Section Kinds.
Variable fs0 : filesystem.

#[local] Abbreviation kept := (kinds_kept fs0).

Lemma kept_set (fs : filesystem) (p : Path) (n : node) :
kept fs -> same_kind fs p n -> kept (fs_set fs p n).
Proof.
intros Hk Hs q. destruct (Hk q) as [Hd Hf].
unfold is_dir, is_file in *. unfold fs_set.
destruct (Path_eqb q p) eqn:E; [|now split].
apply Path_eqb_eq in E. subst q. unfold same_kind in Hs.
destruct (fs p) as [[f|es]|], n as [g|es']; try contradiction;
  split; intros H; try reflexivity;
  try (apply Hd in H; discriminate); apply Hf in H; discriminate.
Qed.

Lemma kept_link (fs : filesystem) (p : Path) :
kept fs -> kept (link_entry fs p).
Proof.
intros Hk. unfold link_entry. destruct (segments p); [exact Hk|].
destruct (fs (parent p)) as [[f|es]|] eqn:E; try exact Hk.
destruct (existsb _ es); [exact Hk|].
apply kept_set; [exact Hk|]. unfold same_kind. now rewrite E.
Qed.

Lemma keeps_kinds_os_mkdir (p : Path) : preserves kept (os_mkdir p).
Proof.
intros fs fs' r Hk. unfold os_mkdir.
destruct (fs (parent p)) as [[f|es]|];
  try (intros H; injection H as <- _; exact Hk).
destruct (fs p) eqn:E; intros H; injection H as <- _; [exact Hk|].
apply kept_link, kept_set; [exact Hk|]. unfold same_kind. now rewrite E.
Qed.

Lemma keeps_kinds_mkdir_exist_ok (p : Path) :
preserves kept (mkdir_exist_ok p).
Proof.
intros fs fs' r Hk. unfold mkdir_exist_ok.
destruct (os_mkdir p fs) as [fs1 [e|u]] eqn:E.
- destruct e; try destruct (is_dir fs p);
    intros H; injection H as <- _; exact Hk.
- intros H; injection H as <- _.
  exact (@keeps_kinds_os_mkdir p fs fs1 (inr u) Hk E).
Qed.

Lemma keeps_kinds_bind (A C : Type) (m : io A) (k : A -> io C) :
preserves kept m -> (forall a, preserves kept (k a)) ->
preserves kept (bind m k).
Proof.
intros Hm Hk fs fs' r Hfs. unfold bind.
destruct (m fs) as [fs1 [e|a]] eqn:E.
- intros H; injection H as <- _. exact (Hm _ _ _ Hfs E).
- intros H. exact (Hk a _ _ _ (Hm _ _ _ Hfs E) H).
Qed.

Lemma keeps_kinds_pure (A : Type) (m : io A) :
(forall fs, fst (m fs) = fs) -> preserves kept m.
Proof.
intros Hm fs fs' r Hk E. pose proof (Hm fs) as H. rewrite E in H.
simpl in H. now subst.
Qed.

Lemma keeps_kinds_mkdir_parents (fuel : nat) :
forall p, preserves kept (mkdir_parents_fuel fuel p).
Proof.
induction fuel as [|fuel IH]; intros p fs fs' r Hk; simpl.
- destruct (os_mkdir p fs) as [fs1 [e|u]] eqn:E.
  + destruct e; try destruct (is_dir fs p);
      intros H; injection H as <- _; exact Hk.
  + intros H; injection H as <- _.
    exact (@keeps_kinds_os_mkdir p fs fs1 (inr u) Hk E).
- destruct (os_mkdir p fs) as [fs1 [e|u]] eqn:E.
  + destruct e; try (destruct (is_dir fs p);
                     intros H; injection H as <- _; exact Hk).
    destruct (Path_eqb (parent p) p);
      [intros H; injection H as <- _; exact Hk|].
    intros H. revert H. apply keeps_kinds_bind; [apply IH | | exact Hk].
    intros _. apply keeps_kinds_mkdir_exist_ok.
  + intros H; injection H as <- _.
    exact (@keeps_kinds_os_mkdir p fs fs1 (inr u) Hk E).
Qed.

Lemma keeps_kinds_open_write (p : Path) : preserves kept (open_write p).
Proof.
intros fs fs' r Hk. unfold open_write.
destruct (fs (parent p)) as [[f|es]|];
  try (intros H; injection H as <- _; exact Hk).
destruct (fs p) as [[f|es']|] eqn:E; intros H; injection H as <- _;
  [|exact Hk|].
- apply kept_set; [exact Hk|]. unfold same_kind. now rewrite E.
- apply kept_link, kept_set; [exact Hk|]. unfold same_kind. now rewrite E.
Qed.

Lemma keeps_kinds_write_open (p : Path) (text : string) :
preserves kept (write_open p text).
Proof.
intros fs fs' r Hk. unfold write_open.
destruct (fs p) as [[f|es]|] eqn:E; intros H; injection H as <- _;
  try exact Hk.
apply kept_set; [exact Hk|]. unfold same_kind. now rewrite E.
Qed.

Lemma keeps_kinds_chmod (p : Path) : preserves kept (chmod_755 p).
Proof.
intros fs fs' r Hk. unfold chmod_755.
destruct (fs p) as [[f|es]|] eqn:E; intros H; injection H as <- _;
  try exact Hk.
apply kept_set; [exact Hk|]. unfold same_kind. now rewrite E.
Qed.

Lemma keeps_kinds_open_read (p : Path) : preserves kept (open_read p).
Proof.
apply keeps_kinds_pure. intros fs. unfold open_read.
destruct (fs p) as [[f|es]|]; try destruct (readable f); reflexivity.
Qed.

Lemma keeps_kinds_read_open (p : Path) : preserves kept (read_open p).
Proof.
apply keeps_kinds_pure. intros fs. unfold read_open.
now destruct (fs p) as [[f|es]|].
Qed.

Lemma keeps_kinds_read (A : Type) (f : filesystem -> A) :
preserves kept (read f).
Proof. now apply keeps_kinds_pure. Qed.

Lemma keeps_kinds_ret (A : Type) (a : A) : preserves kept (ret a).
Proof. now apply keeps_kinds_pure. Qed.

Variable python : string.
Variable fs_root : Path.

Lemma keeps_kinds_install_item (dest_dir item : Path) :
preserves kept (install_item dest_dir item).
Proof.
unfold install_item. apply keeps_kinds_bind; [apply keeps_kinds_read|].
intros [|]; [|apply keeps_kinds_ret].
apply keeps_kinds_bind.
- unfold copy_file.
  apply keeps_kinds_bind; [apply keeps_kinds_open_read|]. intros _.
  apply keeps_kinds_bind; [apply keeps_kinds_open_write|]. intros _.
  apply keeps_kinds_bind; [apply keeps_kinds_read_open|]. intros data.
  apply keeps_kinds_write_open.
- intros _. apply keeps_kinds_bind; [apply keeps_kinds_read|].
  intros [|]; [apply keeps_kinds_chmod | apply keeps_kinds_ret].
Qed.

Lemma keeps_kinds_install_user_app (entry : string * AppInfo) :
preserves kept (install_user_app fs_root entry).
Proof.
unfold install_user_app.
apply keeps_kinds_bind; [apply keeps_kinds_mkdir_exist_ok|]. intros _.
apply keeps_kinds_bind; [apply keeps_kinds_read|]. intros items.
apply preserves_for_each. intros item _. apply keeps_kinds_install_item.
Qed.

Lemma keeps_kinds_install_system_app (entry : string * AppInfo) :
preserves kept (install_system_app python fs_root entry).
Proof.
unfold install_system_app.
destruct (negb (system_app (snd entry))); [apply keeps_kinds_ret|].
apply keeps_kinds_bind; [apply keeps_kinds_read|].
intros [|]; [apply keeps_kinds_ret|].
apply keeps_kinds_bind; [apply keeps_kinds_open_write|]. intros _.
apply keeps_kinds_bind; [apply keeps_kinds_write_open|]. intros _.
apply keeps_kinds_chmod.
Qed.

End Kinds.

(** X30.  An installation removes nothing and turns nothing into
    something else: whatever was a directory before is a directory
    afterwards, and whatever was a regular file is a regular file,
    whether the installation returns true or false. *)
Theorem install_keeps_what_exists
        (python : string) (fs_root : Path) (r : registry) (fs : filesystem)
        (p : Path) :
  let fs' := fst (install_app_to_virtual_fs python fs_root r fs) in
  (is_dir fs p = true -> is_dir fs' p = true)
  /\ (is_file fs p = true -> is_file fs' p = true).
Proof.
  cbv zeta. unfold install_app_to_virtual_fs.
  destruct (bind _ _ fs) as [fs1 res] eqn:E.
  assert (Hk : kinds_kept fs fs1).
  { revert E. apply keeps_kinds_bind.
    - apply keeps_kinds_mkdir_parents.
    - intros _. apply keeps_kinds_bind; [apply keeps_kinds_mkdir_parents|].
      intros _. apply keeps_kinds_bind.
      + apply preserves_for_each. intros e _.
        apply keeps_kinds_install_user_app.
      + intros _. apply preserves_for_each. intros e _.
        apply keeps_kinds_install_system_app.
    - intros q. now split. }
  destruct res; exact (Hk p).
Qed.

End InstallKeeps.

Module ScanReads.
Import PyStr PurePath HostFS HostIO Resolver Apps HostIOFacts RescanFacts.

Section Reads.
Variable json_load : string -> option descriptor.
Variable exec_module : string -> option module_attrs.
Variables (base_path fs_root : Path).

Lemma scan_system_item_agree (fs fs' : filesystem) (r : registry)
    (item : Path) :
fs' item = fs item ->
scan_system_item fs' r item = scan_system_item fs r item.
Proof.
intros H. unfold scan_system_item, is_system_script, is_file, access_x.
now rewrite H.
Qed.

Lemma scan_system_fold_agree (fs fs' : filesystem) (dir : Path)
    (es : list string) :
(forall q, under dir q -> fs' q = fs q) ->
forall r,
  fold_left (scan_system_item fs') (map (child dir) es) r
  = fold_left (scan_system_item fs) (map (child dir) es) r.
Proof.
intros Hag. induction es as [|n es IH]; intros r; simpl; [reflexivity|].
rewrite IH. f_equal. apply scan_system_item_agree.
apply Hag, under_child, under_refl.
Qed.


End Reads.


End ScanReads.
